(** * Postforge: the caption-generation pipeline (services/aiGenerator.js)

    A shallow embedding of [generateInstagramCaptions] (auto-selection mode),
    [generateCombinedPost] (combined mode) and [processBatch], with the
    properties the specification states about batching, early stop, the
    five-post cap, retries, placeholders and response validation.

    Everything the JavaScript gets from outside (HTTP fetches, the
    generation service, the clock, JSON decoding of the model's free text)
    is a parameter of the model; each of these may depend on the whole
    history of the run, which is kept as a trace of events. A string is a
    sequence of 8-bit characters. *)

From Stdlib Require Import List ZArith Lia Bool String Ascii DecimalString.
From Stdlib Require Import Permutation Sorted.
Import ListNotations.

Local Open Scope string_scope.
Local Open Scope list_scope.
Local Open Scope Z_scope.

(* ------------------------------------------------------------------ *)
(** ** Strings *)

(** ["\n"] *)
Definition nl : string := String (ascii_of_nat 10) EmptyString.

(** A double quote, for the JSON shapes quoted in the prompts. *)
Definition dq : string := String (ascii_of_nat 34) EmptyString.

(** A template literal: its pieces, concatenated. *)
Definition template (pieces : list string) : string :=
  String.concat EmptyString pieces.

(** [`${n}`] for a non-negative integer. *)
Definition showNat (n : nat) : string :=
  NilEmpty.string_of_uint (Nat.to_uint n).

(** [s.slice(0, n)] *)
Definition slice0 (n : nat) (s : string) : string := substring 0 n s.

(** [s.split('T')[0]]: what stands before the first [T]. *)
Fixpoint beforeT (s : string) : string :=
  match s with
  | EmptyString => EmptyString
  | String c rest =>
      if Ascii.eqb c "T"%char then EmptyString else String c (beforeT rest)
  end.

(** The string from position [n] on. *)
Definition dropChars (n : nat) (s : string) : string :=
  substring n (String.length s - n) s.

(** What stands before the first [;] and what stands after it, when there
    is one. *)
Fixpoint splitAtSemicolon (s : string) : option (string * string) :=
  match s with
  | EmptyString => None
  | String c rest =>
      if Ascii.eqb c ";"%char
      then Some (EmptyString, rest)
      else
        match splitAtSemicolon rest with
        | Some (before, after) => Some (String c before, after)
        | None => None
        end
  end.

(** No character of [s] is a line terminator (these are what [.] does not
    match in a regular expression). *)
Fixpoint noLineTerminator (s : string) : bool :=
  match s with
  | EmptyString => true
  | String c rest =>
      negb (Ascii.eqb c (ascii_of_nat 10))
      && negb (Ascii.eqb c (ascii_of_nat 13))
      && noLineTerminator rest
  end.

(** White space, as [trim] takes it, among the 8-bit characters: tab, line
    feed, vertical tab, form feed, carriage return, space, no-break space. *)
Definition isWhiteSpace (c : ascii) : bool :=
  let n := nat_of_ascii c in
  ((9 <=? n) && (n <=? 13) || (n =? 32) || (n =? 160))%nat.

Fixpoint trimStart (s : string) : string :=
  match s with
  | EmptyString => EmptyString
  | String c rest => if isWhiteSpace c then trimStart rest else s
  end.

Fixpoint trimEnd (s : string) : string :=
  match s with
  | EmptyString => EmptyString
  | String c rest =>
      match trimEnd rest with
      | EmptyString => if isWhiteSpace c then EmptyString else String c EmptyString
      | rest' => String c rest'
      end
  end.

(** [s.trim()] *)
Definition trim (s : string) : string := trimEnd (trimStart s).

(** [s.endsWith(suffix)] *)
Definition endsWith (suffix s : string) : bool :=
  (String.length suffix <=? String.length s)%nat
  && String.eqb (dropChars (String.length s - String.length suffix) s) suffix.

(** [s] without its last [n] characters. *)
Definition dropLast (n : nat) (s : string) : string :=
  substring 0 (String.length s - n) s.

(** Three backquotes. *)
Definition fence : string := "```".

(** [s.replace(/^```(?:json|JSON)?\n?/, '')] *)
Definition stripOpeningFence (s : string) : string :=
  if prefix fence s
  then
    let s1 := dropChars 3 s in
    let s2 := if prefix "json" s1 || prefix "JSON" s1 then dropChars 4 s1 else s1 in
    if prefix nl s2 then dropChars 1 s2 else s2
  else s.

(** [s.replace(/\n?```$/, '')] *)
Definition stripClosingFence (s : string) : string :=
  if endsWith fence s
  then
    let s1 := dropLast 3 s in
    if endsWith nl s1 then dropLast 1 s1 else s1
  else s.

(** Lines 447-453 and 281-285: the text handed to [JSON.parse]. *)
Definition jsonString (messageContent : string) : string :=
  let trimmed := trim messageContent in
  if prefix fence trimmed
  then stripClosingFence (stripOpeningFence trimmed)
  else trimmed.

(** [x ?? d] *)
Definition orElse (x : option string) (d : string) : string :=
  match x with
  | Some s => s
  | None => d
  end.

(** JavaScript truthiness of a string. *)
Definition truthy (s : string) : bool :=
  match s with
  | EmptyString => false
  | String _ _ => true
  end.

(* ------------------------------------------------------------------ *)
(** ** The batch planner (generateInstagramCaptions, lines 91-110)

    The source inlines the planner with its two constants; here the ceiling
    and the per-item estimate are arguments, and [generateInstagramCaptions]
    below passes the constants. *)

Module Planner.
Section Plan.

Variable A : Type.

(** The three variables of the loop. *)
Record state : Type := mkState {
  batches : list (list A);
  currentBatch : list A;
  currentBatchSizeKB : Z
}.

Definition init : state := mkState [] [] 0.

(** [currentBatch.length > 0] *)
Definition nonEmpty (l : list A) : bool := (0 <? List.length l)%nat.

(** Whether the loop body closes the current batch before it adds the image. *)
Definition closes (maxBatchSizeKB estimateKB : Z) (st : state) : bool :=
  (currentBatchSizeKB st + estimateKB >? maxBatchSizeKB)
  && nonEmpty (currentBatch st).

(** One iteration of [for (const image of allImages)]. *)
Definition step (maxBatchSizeKB estimateKB : Z) (st : state) (image : A) : state :=
  let st1 :=
    if closes maxBatchSizeKB estimateKB st
    then mkState (batches st ++ [currentBatch st]) [] 0
    else st in
  mkState (batches st1)
          (currentBatch st1 ++ [image])
          (currentBatchSizeKB st1 + estimateKB).

(** The final [if (currentBatch.length > 0) batches.push(currentBatch)]. *)
Definition finish (st : state) : list (list A) :=
  if nonEmpty (currentBatch st)
  then batches st ++ [currentBatch st]
  else batches st.

Definition planBatches (maxBatchSizeKB estimateKB : Z) (allImages : list A)
  : list (list A) :=
  finish (fold_left (step maxBatchSizeKB estimateKB) allImages init).

(** The images seen so far: the closed batches, then the open one. *)
Definition seen (st : state) : list A :=
  List.concat (batches st) ++ currentBatch st.

(** A batch fits under the ceiling as soon as it holds two images. *)
Definition fits (maxBatchSizeKB estimateKB : Z) (b : list A) : Prop :=
  (2 <= List.length b)%nat ->
  Z.of_nat (List.length b) * estimateKB <= maxBatchSizeKB.

(** One more image would not have fitted. *)
Definition full (maxBatchSizeKB estimateKB : Z) (b : list A) : Prop :=
  Z.of_nat (List.length b) * estimateKB + estimateKB > maxBatchSizeKB.

(** The invariant of the loop: the running estimate is the size of the open
    batch times the per-item estimate, the open batch fits, and each closed
    batch is non-empty, fits and is full. *)
Record planned (maxBatchSizeKB estimateKB : Z) (st : state) : Prop := mkPlanned {
  planned_size :
    currentBatchSizeKB st = Z.of_nat (List.length (currentBatch st)) * estimateKB;
  planned_current : fits maxBatchSizeKB estimateKB (currentBatch st);
  planned_closed :
    Forall (fun b => b <> [] /\ fits maxBatchSizeKB estimateKB b
                     /\ full maxBatchSizeKB estimateKB b)
           (batches st)
}.

End Plan.

Arguments batches {A} _.
Arguments currentBatch {A} _.
Arguments currentBatchSizeKB {A} _.
Arguments mkState {A} _ _ _.
Arguments init {A}.
Arguments nonEmpty {A} _.
Arguments closes {A} _ _ _.
Arguments step {A} _ _ _ _.
Arguments finish {A} _.
Arguments planBatches {A} _ _ _.
Arguments seen {A} _.
Arguments fits {A} _ _ _.
Arguments full {A} _ _ _.
Arguments planned {A} _ _ _.

End Planner.

(** The batching constants. *)
Definition MAX_BATCH_SIZE_MB : Z := 30.
Definition ESTIMATED_IMAGE_SIZE_KB : Z := 500.

(* ------------------------------------------------------------------ *)
(** ** Data *)

(** An email as [fetchEmailsWithImagesForDateRange] returns it. *)
Record email : Type := mkEmail {
  id : string;
  email_subject : option string;
  email_sender : option string;
  email_textContent : option string;
  imageUrls : list string
}.

(** An image with the context of its email. *)
Record image : Type := mkImage {
  imageUrl : string;
  emailId : string;
  subject : option string;
  sender : option string;
  textContent : option string
}.

(** What [imageUrlToBase64] returns. *)
Record base64Image : Type := mkBase64 {
  mediaType : string;
  base64Data : string
}.

(** What [fetch] resolves to, as far as [fetchImageAsBase64] reads it: the
    body is given as [Buffer.from(arrayBuffer).toString('base64')]. *)
Record fetched : Type := mkFetched {
  ok : bool;
  statusText : string;
  bodyBase64 : string;
  contentType : option string
}.

(** A block of the message content. *)
Inductive contentBlock : Type :=
  | TextBlock (text : string)
  | ImageBlock (media_type : string) (data : string).

(** The request of [anthropic.messages.create]. The model name, [max_tokens]
    (2048) and [temperature] (0.7) are the same constants in every call and
    are left out. *)
Record request : Type := mkRequest {
  system : string;
  content : list contentBlock
}.

(** A block of the response, and the response. *)
Record responseBlock : Type := mkResponseBlock {
  block_text : option string
}.

Record response : Type := mkResponse {
  response_content : option (list responseBlock)
}.

(** A thrown value: [status] is set on the provider's API errors. *)
Record error : Type := mkError {
  status : option Z;
  message : string
}.

(** [new Error(msg)] *)
Definition Error (msg : string) : error := mkError None msg.

(** The value of [image_index], as the lookup [batch[...]] reads it, that
    is as the key of a property of the array. The response is free text of
    the model, so any JSON value can stand there:
    - [IntegerKey z]: the key is the decimal of the integer [z] (the number
      [2], the string of its decimal);
    - [LengthKey]: the key is [length];
    - [InheritedKey name]: another key that names a property every array
      has through its prototypes ([constructor], [at], [map], ...), a
      function or an object;
    - [NoSuchKey]: any other key, which names no property (a missing
      field, [null], a fraction, another string). *)
Inductive propertyKey : Type :=
  | IntegerKey (z : Z)
  | LengthKey
  | InheritedKey (name : string)
  | NoSuchKey.

(** One entry of [selections] that is not [null], as far as it is read: the
    key of its [image_index] and its caption (a string, as the prompt asks).
    An entry that is no object (a number, a string) reads as an object
    without fields. *)
Record selection : Type := mkSelection {
  image_index : propertyKey;
  caption : string;
  reasoning : string
}.

(** [parsed.selections]: an array, whose entries may be [null] ([None]), or
    anything else (a missing field too). *)
Inductive selectionsField : Type :=
  | NotAnArray
  | SelectionsArray (entries : list (option selection)).

(** A post candidate. Its [email_id] and [source_image_url] are read from
    what the lookup in the batch found, and are [undefined] ([None]) when
    that is no image. *)
Record post : Type := mkPost {
  caption_text : string;
  email_id : option string;
  source_image_url : option string;
  source_image_urls : option (list string);
  created_at : string
}.

(** What the run does to the outside, in order. Logging is not recorded. *)
Inductive event : Type :=
  | EvFetch (url : string)
  | EvCreate (req : request)
  | EvSleep (ms : Z)
  | EvNow.

Definition trace : Type := list event.

(** An event is a call of the generation service. *)
Definition isCreate (e : event) : bool :=
  match e with
  | EvCreate _ => true
  | _ => false
  end.

(** An event touches the network (an image fetch or the generation service). *)
Definition isNetwork (e : event) : bool :=
  match e with
  | EvFetch _ | EvCreate _ => true
  | _ => false
  end.

(* ------------------------------------------------------------------ *)
(** ** Effects: a trace and exceptions *)

Definition M (A : Type) : Type := trace -> trace * (error + A).

Definition ret {A : Type} (a : A) : M A := fun tr => (tr, inr a).

Definition throw {A : Type} (e : error) : M A := fun tr => (tr, inl e).

Definition bind {A B : Type} (c : M A) (k : A -> M B) : M B :=
  fun tr =>
    match c tr with
    | (tr1, inr a) => k a tr1
    | (tr1, inl e) => (tr1, inl e)
    end.

(** [try { c } catch (error) { ... }]: the outcome of [c], as a value. *)
Definition attempt {A : Type} (c : M A) : M (error + A) :=
  fun tr =>
    match c tr with
    | (tr1, r) => (tr1, inr r)
    end.

(** Record an event. *)
Definition emit (e : event) : M unit := fun tr => (tr ++ [e], inr tt).

Declare Scope js_scope.
Delimit Scope js_scope with js.
Notation "x <- c ;; k" := (bind c (fun x => k))
  (at level 61, c at next level, right associativity) : js_scope.
Notation "c ;;; k" := (bind c (fun _ => k))
  (at level 61, right associativity) : js_scope.

Local Open Scope js_scope.

(* ------------------------------------------------------------------ *)
(** ** Around the pipeline: pure code of the other services and routes *)

(** *** emailNotificationService.js: escapeHtml *)

(** The entity of a character, [map[m]], or the character itself. *)
Definition escapeChar (c : ascii) : string :=
  if Ascii.eqb c "&"%char then "&amp;"
  else if Ascii.eqb c "<"%char then "&lt;"
  else if Ascii.eqb c ">"%char then "&gt;"
  else if Ascii.eqb c (ascii_of_nat 34) then "&quot;"
  else if Ascii.eqb c "'"%char then "&#039;"
  else String c EmptyString.

(** [text.replace(re, (m) => map[m])], where [re] matches, globally, each of
    the five characters that have an entity in [map]. *)
Fixpoint escapeHtml (text : string) : string :=
  match text with
  | EmptyString => EmptyString
  | String c rest => (escapeChar c ++ escapeHtml rest)%string
  end.

(** One of the four characters that open or close markup or an attribute. *)
Definition isMarkup (c : ascii) : bool :=
  Ascii.eqb c "<"%char || Ascii.eqb c ">"%char
  || Ascii.eqb c (ascii_of_nat 34) || Ascii.eqb c "'"%char.

(** A character of [s] satisfies [p]. *)
Fixpoint hasChar (p : ascii -> bool) (s : string) : bool :=
  match s with
  | EmptyString => false
  | String c rest => p c || hasChar p rest
  end.

(** *** routes/cron.js: verifyCronSecret *)

(** What a middleware does: it calls [next()], or it answers with a status
    and an error message. *)
Inductive middleware : Type :=
  | Next
  | Respond (status : nat) (errorMessage : string).

(** [cronSecret] is [process.env.CRON_SECRET], [authorization] is
    [req.headers.authorization]. *)
Definition verifyCronSecret (cronSecret authorization : option string)
  : middleware :=
  match cronSecret with
  | Some (String c s) =>
      let providedSecret :=
        match authorization with
        | Some authHeader =>
            if prefix "Bearer " authHeader
            then Some (dropChars (String.length "Bearer ") authHeader)
            else None
        | None => None
        end in
      match providedSecret with
      | Some provided =>
          if String.eqb provided (String c s)
          then Next
          else Respond 401 "Unauthorized"
      | None => Respond 401 "Unauthorized"
      end
  | _ => Respond 500 "Cron secret not configured"
  end.

(** *** routes/webhooks.js: the locator of an attachment that could not be
    uploaded *)

(** [`data:${attachment.contentType};base64,${base64}`] *)
Definition fallbackLocator (contentType base64 : string) : string :=
  template ["data:"; contentType; ";base64,"; base64].

(** *** routes/emails.js: deleting images of an email by their indices *)

Module EmailRoutes.
Section Delete.

Variable A : Type.

(** [newUrls.splice(index, 1)], for an index of the array. *)
Definition splice1 (index : nat) (newUrls : list A) : list A :=
  firstn index newUrls ++ skipn (S index) newUrls.

(** [indices.sort((a, b) => b - a)]: the indices in descending order
    ([insertDescending] puts an index before the first one that is not
    larger). *)
Fixpoint insertDescending (x : Z) (sorted : list Z) : list Z :=
  match sorted with
  | [] => [x]
  | y :: rest => if y <=? x then x :: sorted else y :: insertDescending x rest
  end.

Definition sortDescending (indices : list Z) : list Z :=
  fold_right insertDescending [] indices.

(** The loop [for (const index of sortedIndices)] of the bulk route (lines
    425-430), with the array of URLs and the count so far. *)
Fixpoint deleteLoop (sortedIndices : list Z) (newUrls : list A) (deletedCount : nat)
  : list A * nat :=
  match sortedIndices with
  | [] => (newUrls, deletedCount)
  | index :: rest =>
      if (0 <=? index) && (index <? Z.of_nat (List.length newUrls))
      then deleteLoop rest (splice1 (Z.to_nat index) newUrls) (S deletedCount)
      else deleteLoop rest newUrls deletedCount
  end.

(** Lines 421-430: the new array of URLs of one email, and the count. *)
Definition deleteImages (currentUrls : list A) (indices : list Z) (deletedCount : nat)
  : list A * nat :=
  deleteLoop (sortDescending indices) currentUrls deletedCount.

(** Lines 326-339 of the single route: the array to write back, when the
    index is an index of the array ([None]: nothing is written). *)
Definition deleteImage (currentUrls : list A) (imageIndex : Z) : option (list A) :=
  if (0 <=? imageIndex) && (imageIndex <? Z.of_nat (List.length currentUrls))
  then Some (splice1 (Z.to_nat imageIndex) currentUrls)
  else None.

(** The elements of [l] whose position, counted from [position], is not
    selected. *)
Fixpoint keepUnselected (selected : Z -> bool) (position : Z) (l : list A) : list A :=
  match l with
  | [] => []
  | x :: rest =>
      if selected position
      then keepUnselected selected (position + 1) rest
      else x :: keepUnselected selected (position + 1) rest
  end.

End Delete.

Arguments splice1 {A} _ _.
Arguments deleteLoop {A} _ _ _.
Arguments deleteImages {A} _ _ _.
Arguments deleteImage {A} _ _.
Arguments keepUnselected {A} _ _ _.

(** [index] is one of [indices]. *)
Definition among (indices : list Z) (index : Z) : bool :=
  existsb (Z.eqb index) indices.

(** [index] is an index of an array of [n] elements. *)
Definition inRange (n : nat) (index : Z) : bool :=
  (0 <=? index) && (index <? Z.of_nat n).

End EmailRoutes.

(** *** routes/cron.js and routes/posts.js: the window of today *)

Module Today.

Definition msPerDay : Z := 86400000.

(** [TimeClip]: a time value is a number of milliseconds within 8.64e15 of
    the epoch; anything else is [NaN], here [None]. The integers met here
    are far below 2^53, where the arithmetic of numbers is exact. *)
Definition timeClip (t : Z) : option Z :=
  if Z.abs t <=? 8640000000000000 then Some t else None.

(** [date.setUTCHours(hour, min, sec, ms)]: the day of the date, at that time. *)
Definition setUTCHours (date : option Z) (hour min sec ms : Z) : option Z :=
  match date with
  | Some t =>
      timeClip ((t / msPerDay) * msPerDay
                + (hour * 3600000 + min * 60000 + sec * 1000 + ms))
  | None => None
  end.

(** [date.getTime() - offset], a number or [NaN]. *)
Definition minus (time : option Z) (offset : Z) : option Z :=
  match time with
  | Some t => Some (t - offset)
  | None => None
  end.

(** [date.setTime(time)] *)
Definition setTime (time : option Z) : option Z :=
  match time with
  | Some t => timeClip t
  | None => None
  end.

(** Lines 60-74 of routes/cron.js (and 106-114 of routes/posts.js): [start]
    and [end] from the time value of [now] and the offset in hours. *)
Definition window (now timezoneOffsetHours : Z) : option Z * option Z :=
  let utcNow := timeClip (now + timezoneOffsetHours * 60 * 60 * 1000) in
  let start := setUTCHours utcNow 0 0 0 0 in
  let start := setTime (minus start (timezoneOffsetHours * 60 * 60 * 1000)) in
  let end_ := setUTCHours utcNow 23 59 59 999 in
  let end_ := setTime (minus end_ (timezoneOffsetHours * 60 * 60 * 1000)) in
  (start, end_).

End Today.

(** *** services/postService.js: storeGeneratedPosts *)

Module PostService.

(** A post as [storeGeneratedPosts] reads it; a field but the caption may be
    missing ([source_image_urls] is [None] when it is not an array). *)
Record input : Type := mkInput {
  caption_text : string;
  email_id : option string;
  source_image_url : option string;
  source_image_urls : option (list string);
  image_url : option string;
  suggested_image : option string;
  created_at : option string;
  is_user_generated : option bool
}.

(** A row of the payload that is inserted. *)
Module Payload.
Record row : Type := mkRow {
  caption_text : string;
  email_id : option string;
  source_image_url : option string;
  source_image_urls : option (list string);
  image_url : option string;
  suggested_image : option string;
  created_at : string;
  organization_id : option string;
  is_user_generated : bool
}.
End Payload.

(** Lines 408-410: the URLs of a post that are not empty. *)
Definition normalizedUrls (p : input) : list string :=
  match source_image_urls p with
  | Some urls => filter truthy urls
  | None =>
      match source_image_url p with
      | Some (String c s) => [String c s]
      | _ => []
      end
  end.

(** The callback of [posts.map] (lines 407-423); [now] is the clock, read
    when the post has no [created_at]. *)
Definition toRow (organizationId : option string) (now : string) (p : input)
  : Payload.row :=
  let normalizedUrls := normalizedUrls p in
  {| Payload.caption_text := caption_text p;
     Payload.email_id := email_id p;
     Payload.source_image_url :=
       match normalizedUrls with
       | first :: _ => Some first
       | [] => source_image_url p
       end;
     Payload.source_image_urls :=
       if (0 <? List.length normalizedUrls)%nat then Some normalizedUrls else None;
     Payload.image_url := image_url p;
     Payload.suggested_image := suggested_image p;
     Payload.created_at :=
       match created_at p with
       | Some t => t
       | None => now
       end;
     Payload.organization_id := organizationId;
     Payload.is_user_generated :=
       match is_user_generated p with
       | Some b => b
       | None => false
       end |}.

(** The list of URLs of a row is never empty and holds no empty URL, and the
    URL of the row is the first of them. *)
Definition normalized (r : Payload.row) : Prop :=
  match Payload.source_image_urls r with
  | Some urls =>
      exists first rest,
        urls = first :: rest
        /\ Forall (fun url => truthy url = true) urls
        /\ Payload.source_image_url r = Some first
  | None => True
  end.

Section Store.

(** What the database hands back for a row it stored. *)
Variable Stored : Type.

(** [storeGeneratedPosts(posts, organizationId)]: [supabaseAdmin] is [None]
    when the client is not configured, otherwise what the insert of a
    payload answers ([data] and [error]); [posts] is [None] when it is not an
    array; [now i] is the clock when the callback runs on post [i]. *)
Definition storeGeneratedPosts
    (supabaseAdmin : option (list Payload.row -> option (list Stored) * option error))
    (now : nat -> string)
    (posts : option (list input)) (organizationId : option string)
  : error + list Stored :=
  match supabaseAdmin with
  | None => inl (Error "Supabase client not configured")
  | Some insert =>
      match posts with
      | None | Some [] => inr []
      | Some posts =>
          let payload :=
            map (fun ip => toRow organizationId (now (fst ip)) (snd ip))
                (combine (seq 0 (List.length posts)) posts) in
          match insert payload with
          | (_, Some e) => inl e
          | (Some data, None) => inr data
          | (None, None) => inr []
          end
      end
  end.

End Store.

Arguments storeGeneratedPosts {Stored} _ _ _ _.

(** A post of the pipeline, as the routes hand it over: as it is (cron), or
    marked as generated by a user (the generate route). *)
Definition ofPost (isUserGenerated : option bool) (p : post) : input :=
  let (caption, emailId, url, urls, createdAt) := p in
  {| caption_text := caption;
     email_id := emailId;
     source_image_url := url;
     source_image_urls := urls;
     image_url := None;
     suggested_image := None;
     created_at := Some createdAt;
     is_user_generated := isUserGenerated |}.

(** The row that holds a post as it is. *)
Definition asIs (organizationId : option string) (isUserGenerated : option bool)
    (p : post) : Payload.row :=
  let (caption, emailId, url, urls, createdAt) := p in
  {| Payload.caption_text := caption;
     Payload.email_id := emailId;
     Payload.source_image_url := url;
     Payload.source_image_urls := urls;
     Payload.image_url := None;
     Payload.suggested_image := None;
     Payload.created_at := createdAt;
     Payload.organization_id := organizationId;
     Payload.is_user_generated :=
       match isUserGenerated with
       | Some b => b
       | None => false
       end |}.

End PostService.

(** *** Handlers: a world and exceptions *)

(** A handler runs against collaborators (the database, the clock, the mail
    service, the generator) whose answers may depend on all that happened
    before: a computation takes the world and hands back the world after
    it, with a value or a thrown error. *)
Module Handler.

Definition io (W A : Type) : Type := W -> W * (error + A).

Definition ret {W A : Type} (a : A) : io W A := fun w => (w, inr a).

Definition throw {W A : Type} (e : error) : io W A := fun w => (w, inl e).

Definition bind {W A B : Type} (c : io W A) (k : A -> io W B) : io W B :=
  fun w =>
    match c w with
    | (w1, inr a) => k a w1
    | (w1, inl e) => (w1, inl e)
    end.

(** [try { await c } catch (error) { }], where the error is only logged. *)
Definition ignoring {W A : Type} (c : io W A) : io W unit :=
  fun w =>
    match c w with
    | (w1, _) => (w1, inr tt)
    end.

End Handler.

Declare Scope io_scope.
Delimit Scope io_scope with io.
Notation "x <- c ;; k" := (Handler.bind c (fun x => k))
  (at level 61, c at next level, right associativity) : io_scope.
Notation "c ;;; k" := (Handler.bind c (fun _ => k))
  (at level 61, right associativity) : io_scope.

(** *** routes/cron.js: POST /api/cron/generate-daily-posts *)

Module Cron.

Record organization : Type := mkOrganization {
  id : string;
  name : string
}.

(** The variables of the environment the handler reads. *)
Record environment : Type := mkEnvironment {
  CLAUDE_API_KEY : option string;
  NOTIFICATION_EMAIL : option string
}.

(** An entry of [results]: an organization that was skipped with a message
    ([success: true, captionsGenerated: 0]), one for which posts were stored
    ([success: true] and the three counts), one that failed
    ([success: false] and the message of the error). *)
Inductive result : Type :=
  | Skipped (organization message : string)
  | Generated (organization : string)
              (captionsGenerated emailsProcessed imagesReviewed : nat)
  | Failed (organization error : string).

Definition organization_of (r : result) : string :=
  match r with
  | Skipped organization _ => organization
  | Generated organization _ _ _ => organization
  | Failed organization _ => organization
  end.

(** [r.captionsGenerated || 0] *)
Definition captionsGenerated_of (r : result) : nat :=
  match r with
  | Generated _ captionsGenerated _ _ => captionsGenerated
  | _ => 0%nat
  end.

(** What the handler answers: status 500 with [error: 'Claude API key not
    configured']; status 200 with [message: 'No organizations found'];
    status 200 with the results; status 500 with [success: false]. *)
Inductive response : Type :=
  | NotConfigured
  | NoOrganizations (duration : Z)
  | Completed (organizations : list result) (totalCaptions : nat) (duration : Z)
  | Failure (error : string) (duration : Z).

(** The services the handler imports, and the clock: [dateNow] is the time
    value of [Date.now()] and of [new Date()], [toISOString] the ISO string
    of a valid date. *)
Record services (W : Type) : Type := mkServices {
  dateNow : W -> W * Z;
  toISOString : Z -> string;
  listOrganizations : Handler.io W (list organization);
  fetchEmailsWithImagesForDateRange : Z -> Z -> string -> Handler.io W (list email);
  generateInstagramCaptions : list email -> string -> Handler.io W (list post);
  storeGeneratedPosts : list post -> string -> Handler.io W unit;
  sendDailyPostsNotification : string -> list post -> string -> Z -> Handler.io W unit
}.

Arguments dateNow {W} _ _.
Arguments toISOString {W} _ _.
Arguments listOrganizations {W} _ _.
Arguments fetchEmailsWithImagesForDateRange {W} _ _ _ _ _.
Arguments generateInstagramCaptions {W} _ _ _ _.
Arguments storeGeneratedPosts {W} _ _ _ _.
Arguments sendDailyPostsNotification {W} _ _ _ _ _ _.

(** The same services, with another generator. *)
Definition withGenerator {W : Type} (s : services W)
    (generator : list email -> string -> Handler.io W (list post)) : services W :=
  {| dateNow := dateNow s;
     toISOString := toISOString s;
     listOrganizations := listOrganizations s;
     fetchEmailsWithImagesForDateRange := fetchEmailsWithImagesForDateRange s;
     generateInstagramCaptions := generator;
     storeGeneratedPosts := storeGeneratedPosts s;
     sendDailyPostsNotification := sendDailyPostsNotification s |}.

Section Handler.

Local Open Scope io_scope.

Variable W : Type.
Variable s : services W.
Variable env : environment.

(** [timezoneOffsetHours] is [parseInt(process.env.TIMEZONE_OFFSET || '-5', 10)],
    [None] when it is [NaN]; then [start] and [end] are invalid dates. *)
Definition today (now : Z) (timezoneOffsetHours : option Z) : option Z * option Z :=
  match timezoneOffsetHours with
  | Some hours => Today.window now hours
  | None => (None, None)
  end.

(** The body of [try] in the loop (lines 98-163), up to the entry it pushes.
    The message that is logged first calls [toISOString] on [start] and on
    [end], which throws a [RangeError] on an invalid date. *)
Definition processOrganization (start end_ : option Z) (now : Z) (org : organization)
  : Handler.io W result :=
  match start, end_ with
  | Some start, Some end_ =>
      emails <- fetchEmailsWithImagesForDateRange s start end_ (id org) ;;
      if (List.length emails =? 0)%nat
      then Handler.ret (Skipped (name org) "No emails with images")
      else
        let totalImages :=
          fold_left (fun sum email => (sum + List.length (imageUrls email))%nat)
                    emails 0%nat in
        captions <- generateInstagramCaptions s emails (toISOString s now) ;;
        if (List.length captions =? 0)%nat
        then Handler.ret (Skipped (name org) "No images selected by AI")
        else
          storeGeneratedPosts s captions (id org) ;;;
          match NOTIFICATION_EMAIL env with
          | Some (String c rest) =>
              Handler.ignoring
                (sendDailyPostsNotification s (String c rest) captions (name org) now)
          | _ => Handler.ret tt
          end ;;;
          Handler.ret (Generated (name org) (List.length captions)
                                 (List.length emails) totalImages)
  | _, _ => Handler.throw (Error "Invalid time value")
  end.

(** [for (const org of organizations)] (lines 96-172), with the results so
    far. *)
Fixpoint forOrganizations (start end_ : option Z) (now : Z)
    (organizations : list organization) (results : list result) (w : W)
  : W * list result :=
  match organizations with
  | [] => (w, results)
  | org :: rest =>
      match processOrganization start end_ now org w with
      | (w1, inr entry) =>
          forOrganizations start end_ now rest (results ++ [entry]) w1
      | (w1, inl orgError) =>
          forOrganizations start end_ now rest
                           (results ++ [Failed (name org) (message orgError)]) w1
      end
  end.

(** The handler (lines 46-194). *)
Definition generateDailyPosts (timezoneOffsetHours : option Z) (w : W) : W * response :=
  let '(w, startTime) := dateNow s w in
  match CLAUDE_API_KEY env with
  | Some (String _ _) =>
      let '(w, now) := dateNow s w in
      let '(start, end_) := today now timezoneOffsetHours in
      match listOrganizations s w with
      | (w, inr organizations) =>
          if (List.length organizations =? 0)%nat
          then
            let '(w, finished) := dateNow s w in
            (w, NoOrganizations (finished - startTime))
          else
            let '(w, results) := forOrganizations start end_ now organizations [] w in
            let '(w, finished) := dateNow s w in
            let duration := finished - startTime in
            let totalCaptions :=
              fold_left (fun sum r => (sum + captionsGenerated_of r)%nat) results 0%nat in
            (w, Completed results totalCaptions duration)
      | (w, inl error) =>
          let '(w, finished) := dateNow s w in
          (w, Failure (message error) (finished - startTime))
      end
  | _ => (w, NotConfigured)
  end.

End Handler.

Arguments today _ _ : clear implicits.
Arguments processOrganization {W} _ _ _ _ _ _ _.
Arguments forOrganizations {W} _ _ _ _ _ _ _ _.
Arguments generateDailyPosts {W} _ _ _ _.

(** What an entry says of its organization: its name; and when posts were
    stored, at least one post from at least one email. *)
Definition reports (org : organization) (r : result) : Prop :=
  organization_of r = name org
  /\ match r with
     | Generated _ captionsGenerated emailsProcessed _ =>
         (1 <= captionsGenerated)%nat /\ (1 <= emailsProcessed)%nat
     | _ => True
     end.

End Cron.

(** *** services/emailService.js: fetchEmailsWithImagesForDateRange *)

Module EmailService.

(** A row of [emails] joined with its parsed content, as the query selects
    it. *)
Record parsedContent : Type := mkParsedContent {
  text_content : option string;
  image_urls : option (list string)
}.

Record row : Type := mkRow {
  id : string;
  sender : option string;
  subject : option string;
  raw_text : option string;
  parsed_content : option parsedContent
}.

(** The query that is built: the bounds on [received_at], and the
    organization when one is given. The rows come in ascending order of
    [received_at]. *)
Record query : Type := mkQuery {
  received_from : string;
  received_to : string;
  organization_id : option string
}.

(** The predicate of [filter] (lines 660-663). *)
Definition hasImages (email : row) : bool :=
  match parsed_content email with
  | Some content =>
      match image_urls content with
      | Some (_ :: _) => true
      | _ => false
      end
  | None => false
  end.

(** The callback of [map] (lines 664-671); it runs on rows that have images
    only. [receivedAt] is not read by the generator and is left out. *)
Definition flatten (e : row) : email :=
  mkEmail
    (id e)
    (subject e)
    (sender e)
    (match parsed_content e with
     | Some content =>
         match text_content content with
         | Some (String c s) => Some (String c s)
         | _ => raw_text e
         end
     | None => raw_text e
     end)
    (match parsed_content e with
     | Some content =>
         match image_urls content with
         | Some urls => urls
         | None => []
         end
     | None => []
     end).

(** [startDate] and [endDate] are given by their ISO strings; the client
    answers a query with [data] and [error]. *)
Definition fetchEmailsWithImagesForDateRange
    (supabaseAdmin : option (query -> option (list row) * option error))
    (startDate endDate : string) (organizationId : option string)
  : error + list email :=
  match supabaseAdmin with
  | None => inl (Error "Supabase client not configured")
  | Some run =>
      let q :=
        {| received_from := startDate;
           received_to := endDate;
           organization_id :=
             match organizationId with
             | Some (String c s) => Some (String c s)
             | _ => None
             end |} in
      match run q with
      | (_, Some error) => inl error
      | (data, None) =>
          inr (map flatten
                   (filter hasImages (match data with Some rows => rows | None => [] end)))
      end
  end.

End EmailService.

(** *** services/storageService.js: cleanupOldImages *)

Module StorageService.

(** An entry of a listing: a file or a folder, with [metadata?.size]. *)
Record file : Type := mkFile {
  name : string;
  size : option Z
}.

(** The calls made to the bucket of the storage. *)
Inductive call : Type :=
  | ListFolder (path : string)
  | Remove (paths : list string).

(** The bucket: what [list] and [remove] answer after the calls made so far;
    [list] answers with an error or with entries, [remove] with an error or
    without one. *)
Record bucket : Type := mkBucket {
  list_ : list call -> string -> error + list file;
  remove : list call -> list string -> option error
}.

(** What [cleanupOldImages] returns. *)
Record cleanup : Type := mkCleanup {
  deletedCount : nat;
  freedSpace : Z
}.

Definition isDigit (c : ascii) : bool :=
  (48 <=? nat_of_ascii c)%nat && (nat_of_ascii c <=? 57)%nat.

(** [name.match(/^\d{4}-\d{2}-\d{2}$/)] *)
Definition isDateFolder (name : string) : bool :=
  match name with
  | String y1 (String y2 (String y3 (String y4 (String h1 (String m1 (String m2
      (String h2 (String d1 (String d2 EmptyString))))))))) =>
      isDigit y1 && isDigit y2 && isDigit y3 && isDigit y4
      && Ascii.eqb h1 "-"%char
      && isDigit m1 && isDigit m2
      && Ascii.eqb h2 "-"%char
      && isDigit d1 && isDigit d2
  | _ => false
  end.

(** The two filters of lines 83-85: a folder named as a date, before the
    cutoff in the order of strings. *)
Definition toDelete (cutoffDateString : string) (file : file) : bool :=
  truthy (name file) && isDateFolder (name file)
  && String.ltb (name file) cutoffDateString.

(** [file.metadata?.size || 0] *)
Definition sizeOf (file : file) : Z :=
  match size file with
  | Some n => n
  | None => 0
  end.

(** [for (const folder of foldersToDelete)] (lines 98-125), with the totals
    and the calls made so far. *)
Fixpoint forFolders (storage : bucket) (foldersToDelete : list file)
    (totalDeleted : nat) (totalSize : Z) (calls : list call)
  : list call * cleanup :=
  match foldersToDelete with
  | [] => (calls, mkCleanup totalDeleted totalSize)
  | folder :: rest =>
      let listed := calls ++ [ListFolder (name folder)] in
      match list_ storage calls (name folder) with
      | inl _ => forFolders storage rest totalDeleted totalSize listed
      | inr folderFiles =>
          if (0 <? List.length folderFiles)%nat
          then
            let totalSize :=
              totalSize + fold_left (fun sum file => sum + sizeOf file) folderFiles 0 in
            let filePaths :=
              map (fun file => template [name folder; "/"; name file]) folderFiles in
            let removed := listed ++ [Remove filePaths] in
            match remove storage listed filePaths with
            | Some _ => forFolders storage rest totalDeleted totalSize removed
            | None =>
                forFolders storage rest
                           (totalDeleted + List.length filePaths)%nat totalSize removed
            end
          else forFolders storage rest totalDeleted totalSize listed
      end
  end.

(** [cleanupOldImages(retentionDays)]: [cutoffDateString] is the date, as
    [YYYY-MM-DD], that the clock and [retentionDays] give. *)
Definition cleanupOldImages (supabaseAdmin : option bucket) (cutoffDateString : string)
    (calls : list call) : list call * (error + cleanup) :=
  match supabaseAdmin with
  | None => (calls, inl (Error "Supabase client not configured"))
  | Some storage =>
      let listed := calls ++ [ListFolder EmptyString] in
      match list_ storage calls EmptyString with
      | inl listError =>
          (listed, inl (Error (template ["Failed to list files: "; message listError])))
      | inr files =>
          let foldersToDelete := filter (toDelete cutoffDateString) files in
          if (List.length foldersToDelete =? 0)%nat
          then (listed, inr (mkCleanup 0 0))
          else
            let '(calls, result) := forFolders storage foldersToDelete 0 0 listed in
            (calls, inr result)
      end
  end.

(** A character of the class [a-zA-Z0-9.-]. *)
Definition isSafe (c : ascii) : bool :=
  let n := nat_of_ascii c in
  ((97 <=? n) && (n <=? 122) || (65 <=? n) && (n <=? 90) || (48 <=? n) && (n <=? 57)
   || (n =? 46) || (n =? 45))%nat.

(** [originalName.replace(/[^a-zA-Z0-9.-]/g, '_')] *)
Fixpoint sanitize (originalName : string) : string :=
  match originalName with
  | EmptyString => EmptyString
  | String c rest =>
      String (if isSafe c then c else "_"%char) (sanitize rest)
  end.

(** Lines 19-27: the path of an upload, from the ISO string of the clock, the
    UUID that was drawn and the name of the file. *)
Definition storagePath (nowISO uuid originalName : string) : string :=
  let dateFolder := beforeT nowISO in
  let sanitizedName := sanitize originalName in
  let filename := template [uuid; "-"; sanitizedName] in
  template [dateFolder; "/"; filename].

(** The storage, for an upload: [upload] answers with an error or without
    one, [getPublicUrl] with the public URL of a path. *)
Record uploader : Type := mkUploader {
  upload : string -> string -> string -> option error;
  getPublicUrl : string -> string
}.

(** [uploadImageToStorage(buffer, contentType, originalName)] *)
Definition uploadImageToStorage (supabaseAdmin : option uploader)
    (nowISO uuid : string) (buffer contentType originalName : string)
  : error + string :=
  match supabaseAdmin with
  | None => inl (Error "Supabase client not configured")
  | Some storage =>
      let storagePath := storagePath nowISO uuid originalName in
      match upload storage storagePath buffer contentType with
      | Some error =>
          inl (Error (template ["Failed to upload image: "; message error]))
      | None => inr (getPublicUrl storage storagePath)
      end
  end.

(** A path in a folder that is named as a date before the cutoff. *)
Definition expired (cutoffDateString path : string) : Prop :=
  exists folder file,
    path = (folder ++ "/" ++ file)%string
    /\ isDateFolder folder = true
    /\ String.ltb folder cutoffDateString = true.

(** A call the cleanup may make: the listing of the bucket or of an expired
    folder, the removal of paths in expired folders. *)
Definition allowed (cutoffDateString : string) (c : call) : Prop :=
  match c with
  | ListFolder path =>
      path = EmptyString
      \/ (isDateFolder path = true /\ String.ltb path cutoffDateString = true)
  | Remove paths => paths <> [] /\ Forall (expired cutoffDateString) paths
  end.

(** The number of paths handed to [remove]. *)
Definition removals (calls : list call) : nat :=
  list_sum (map (fun c => match c with
                          | Remove paths => List.length paths
                          | ListFolder _ => 0%nat
                          end) calls).

End StorageService.

(** *** middleware/auth.js: requireAuth *)

Module Auth.

(** [data.user], as far as it is read. *)
Record user : Type := mkUser {
  id : string;
  email : option string
}.

(** The middleware sets [req.user] and calls [next()], or answers with a
    status and an error message. *)
Inductive outcome : Type :=
  | Authenticated (reqUser : user)
  | Rejected (status : nat) (errorMessage : string).

(** [supabaseAdmin] is [None] when the client is not configured; otherwise
    [getUser(token)] throws, or answers with [data?.user] and [error]. *)
Definition requireAuth
    (supabaseAdmin : option (string -> error + (option user * option error)))
    (authorization : option string) : outcome :=
  match authorization with
  | Some (String c rest) =>
      let authHeader := String c rest in
      if prefix "Bearer " authHeader
      then
        match supabaseAdmin with
        | None => Rejected 500 "Supabase client not configured"
        | Some getUser =>
            let token := dropChars (String.length "Bearer ") authHeader in
            match getUser token with
            | inl _ => Rejected 500 "Auth check failed"
            | inr (_, Some _) => Rejected 401 "Invalid token"
            | inr (None, None) => Rejected 401 "Invalid token"
            | inr (Some dataUser, None) =>
                Authenticated (mkUser (id dataUser) (email dataUser))
            end
        end
      else Rejected 401 "Unauthorized"
  | _ => Rejected 401 "Unauthorized"
  end.

End Auth.

(* ------------------------------------------------------------------ *)
(** ** The pipeline *)

Section Pipeline.

(** The module-level client: [None] when [CLAUDE_API_KEY] is not set,
    otherwise what [anthropic.messages.create] answers to a request, given
    everything that happened before: a response, or a thrown error. *)
Variable anthropic : option (trace -> request -> error + response).

(** What [fetch(url)] followed by [response.arrayBuffer()] gives, given
    everything that happened before: a response, or a thrown error. *)
Variable fetch : trace -> string -> error + fetched.

(** [new Date().toISOString()] *)
Variable clock : trace -> string.

(** [JSON.parse(jsonString)] and the read of [parsed.selections] (lines
    455-456). [None] when one of them raises. *)
Variable decodeSelections : string -> option selectionsField.

(** [JSON.parse(jsonString)] and the read of [parsed.caption] (lines
    287-288; [Some None] when the field is absent). [None] when one of them
    raises. *)
Variable decodeCaption : string -> option (option string).

(** *** Image resolution (lines 14-54) *)

Definition fetchImageAsBase64 (url : string) : M base64Image :=
  fun tr =>
    (tr ++ [EvFetch url],
     match fetch tr url with
     | inl e => inl e
     | inr resp =>
         if ok resp
         then inr {| mediaType :=
                       match contentType resp with
                       | Some (String c s) => String c s
                       | _ => "image/png"
                       end;
                     base64Data := bodyBase64 resp |}
         else inl (Error (template ["Failed to fetch image from "; url; ": ";
                                    statusText resp]))
     end).

(** [imageUrl.match(/^data:([^;]+);base64,(.+)$/)]: the two groups. The first
    group ends at the first [;] after [data:]. *)
Definition dataUrlMatch (imageUrl : string) : option (string * string) :=
  if prefix "data:" imageUrl
  then
    match splitAtSemicolon (dropChars 5 imageUrl) with
    | Some (String c s, after) =>
        if prefix "base64," after
        then
          match dropChars 7 after with
          | String d payload =>
              if noLineTerminator (String d payload)
              then Some (String c s, String d payload)
              else None
          | EmptyString => None
          end
        else None
    | _ => None
    end
  else None.

Definition imageUrlToBase64 (imageUrl : string) : M base64Image :=
  match dataUrlMatch imageUrl with
  | Some (type, data) => ret {| mediaType := type; base64Data := data |}
  | None =>
      if prefix "http://" imageUrl || prefix "https://" imageUrl
      then fetchImageAsBase64 imageUrl
      else throw (Error (template ["Invalid image URL format: "; imageUrl]))
  end.

(** [sizeInMB > 5] with [sizeInMB = (base64Data.length * 0.75) / (1024 * 1024)]:
    both operations are exact on these values, so the test is
    [3 * length > 5 * 4 * 1024 * 1024]. *)
Definition overFiveMB (base64Data : string) : bool :=
  5 * 4 * (1024 * 1024) <? 3 * Z.of_nat (String.length base64Data).

(** *** The generation call with retries (lines 403-441 and 237-275) *)

Definition retries : nat := 3.

(** [anthropic.messages.create(...)] *)
Definition messagesCreate (req : request) : M response :=
  fun tr =>
    match anthropic with
    | Some create => (tr ++ [EvCreate req], create tr req)
    | None => (tr, inl (Error "Cannot read properties of null"))
    end.

(** [await new Promise(resolve => setTimeout(resolve, waitTime))] *)
Definition sleep (waitTime : Z) : M unit := emit (EvSleep waitTime).

(** [error.status === 529] *)
Definition isOverloaded (e : error) : bool :=
  match status e with
  | Some s => s =? 529
  | None => false
  end.

(** The loop [for (let i = 0; i < retries; i++)], from iteration [i] with
    [remaining = retries - i] iterations to go, and what follows it
    ([if (!response) throw lastError || new Error(...)]). *)
Fixpoint retryLoop (remaining i : nat) (lastError : option error) (req : request)
  : M response :=
  match remaining with
  | O =>
      throw (match lastError with
             | Some e => e
             | None => Error "Failed to get response from Claude"
             end)
  | S remaining' =>
      r <- attempt (messagesCreate req) ;;
      match r with
      | inr response => ret response
      | inl error =>
          if isOverloaded error && (i <? retries - 1)%nat
          then
            sleep ((Z.of_nat i + 1) * 2000) ;;;
            retryLoop remaining' (S i) (Some error) req
          else throw error
      end
  end.

Definition createWithRetry (req : request) : M response :=
  retryLoop retries 0 None req.

(** [response.content?.[0]?.text ?? '{}'] *)
Definition messageContent (r : response) : string :=
  match response_content r with
  | Some (b :: _) => orElse (block_text b) "{}"
  | _ => "{}"
  end.

(** *** Selection mode: processBatch (lines 318-487) *)

Definition selectionSystem : string :=
  "You are an expert social media manager for schools. You have a great eye for selecting engaging photos and writing compelling Instagram captions.".

Definition selectionIntro (date : string) (batchLength : nat) : string :=
  template [
    "You are a social media manager for a school. Today's date is ";
    beforeT date; "."; nl; nl;
    "You will review "; showNat batchLength;
    " images with their associated email content from today. Your task is to:"; nl; nl;
    "1. Review all the images and their associated email content"; nl;
    "2. Select the 3-5 BEST image+caption combinations that would work great for Instagram"; nl;
    "3. For each selected image, write an engaging Instagram caption (max 60 words, upbeat, mention key details)"; nl; nl;
    "Focus on images that are:"; nl;
    "- Visually appealing and clear"; nl;
    "- Show engaging activities or moments"; nl;
    "- Would resonate with parents and students"; nl; nl;
    "Here are the images with their context:"; nl; nl ].

Definition selectionContext (imageIndex : nat) (img : image) : string :=
  template [
    "--- Image "; showNat (imageIndex + 1); " ---"; nl;
    "Subject: "; orElse (subject img) "No subject"; nl;
    "From: "; orElse (sender img) "Unknown"; nl;
    "Text content: "; slice0 1500 (orElse (textContent img) EmptyString); nl ].

Definition selectionOutro : string :=
  template [
    nl; nl;
    "Now, select the 3-5 best image+caption combinations. Respond in valid JSON with this exact shape:"; nl;
    "{"; nl;
    "  "; dq; "selections"; dq; ": ["; nl;
    "    {"; nl;
    "      "; dq; "image_index"; dq; ": 0,"; nl;
    "      "; dq; "caption"; dq; ": "; dq; "Your engaging Instagram caption here..."; dq; ","; nl;
    "      "; dq; "reasoning"; dq; ": "; dq; "Brief explanation of why this image works well"; dq; nl;
    "    }"; nl;
    "  ]"; nl;
    "}"; nl; nl;
    "The image_index is 0-based (Image 1 = index 0)."; nl;
    "Make sure to pick the most visually appealing and engaging combinations." ].

(** The loop over the batch (lines 341-383), from index [imageIndex]: the
    context block, then the image block unless the image is over 5MB
    ([continue]) or could not be resolved ([catch]: skip the image), then
    the separator. *)
Fixpoint addBatchImages (imageIndex : nat) (batch : list image)
    (contentBlocks : list contentBlock) : M (list contentBlock) :=
  match batch with
  | [] => ret contentBlocks
  | img :: rest =>
      let contentBlocks := contentBlocks ++ [TextBlock (selectionContext imageIndex img)] in
      r <- attempt (imageUrlToBase64 (imageUrl img)) ;;
      match r with
      | inr resolved =>
          if overFiveMB (base64Data resolved)
          then addBatchImages (S imageIndex) rest contentBlocks
          else
            addBatchImages (S imageIndex) rest
              (contentBlocks
                 ++ [ImageBlock (mediaType resolved) (base64Data resolved)]
                 ++ [TextBlock nl])
      | inl _ =>
          addBatchImages (S imageIndex) rest (contentBlocks ++ [TextBlock nl])
      end
  end.

(** Lines 319-401: the content of the request for a batch. *)
Definition batchContent (batch : list image) (date : string) : M (list contentBlock) :=
  contentBlocks <- addBatchImages 0 batch
                     [TextBlock (selectionIntro date (List.length batch))] ;;
  ret (contentBlocks ++ [TextBlock selectionOutro]).

(** What [batch[selection.image_index]] is when it is truthy: an image of
    the batch, or a property of the array that is no image (its length, a
    method), on which [emailId] and [imageUrl] are [undefined]. *)
Inductive found : Type :=
  | Image (img : image)
  | Property.

(** [image.emailId] and [image.imageUrl] on what was found. *)
Definition emailIdOf (image : found) : option string :=
  match image with
  | Image img => Some (emailId img)
  | Property => None
  end.

Definition imageUrlOf (image : found) : option string :=
  match image with
  | Image img => Some (imageUrl img)
  | Property => None
  end.

(** [batch[selection.image_index]], or [None] when it is falsy: no such
    property, or the length of an empty batch. *)
Definition batchAt (batch : list image) (index : propertyKey) : option found :=
  match index with
  | IntegerKey z =>
      if z <? 0 then None else option_map Image (nth_error batch (Z.to_nat z))
  | LengthKey => if (List.length batch =? 0)%nat then None else Some Property
  | InheritedKey _ => Some Property
  | NoSuchKey => None
  end.

(** The callback of [parsed.selections.map] (lines 462-478). Reading
    [image_index] on a [null] entry raises a [TypeError]. *)
Definition selectionToCaption (batch : list image) (entry : option selection)
  : M (option post) :=
  match entry with
  | None => throw (Error "Cannot read properties of null")
  | Some sel =>
      match batchAt batch (image_index sel) with
      | None => ret None
      | Some image =>
          let imageUrls :=
            match imageUrlOf image with
            | Some (String c s) => [String c s]
            | _ => []
            end in
          fun tr =>
            (tr ++ [EvNow],
             inr (Some {| caption_text := caption sel;
                          email_id := emailIdOf image;
                          source_image_url := imageUrlOf image;
                          source_image_urls :=
                            if (0 <? List.length imageUrls)%nat
                            then Some imageUrls else None;
                          created_at := clock tr |}))
      end
  end.

(** [array.map(f)], for an effectful [f]. *)
Fixpoint mapM {A B : Type} (f : A -> M B) (l : list A) : M (list B) :=
  match l with
  | [] => ret []
  | a :: rest =>
      b <- f a ;;
      bs <- mapM f rest ;;
      ret (b :: bs)
  end.

(** [array.filter(Boolean)] on an array of posts and nulls. *)
Fixpoint filterBoolean (l : list (option post)) : list post :=
  match l with
  | [] => []
  | Some p :: rest => p :: filterBoolean rest
  | None :: rest => filterBoolean rest
  end.

(** Lines 443-486: from the response to the captions of the batch. *)
Definition batchCaptions (batch : list image) (resp : response) : M (list post) :=
  let text := messageContent resp in
  r <- attempt
         (match decodeSelections (jsonString text) with
          | None => throw (Error "Unexpected token")
          | Some NotAnArray => ret []
          | Some (SelectionsArray selections) =>
              if (List.length selections =? 0)%nat
              then ret []
              else
                captions <- mapM (selectionToCaption batch) selections ;;
                ret (filterBoolean captions)
          end) ;;
  match r with
  | inr captions => ret captions
  | inl _ => throw (Error "Claude response parsing failed")
  end.

Definition processBatch (batch : list image) (date : string) (batchIndex : nat)
  : M (list post) :=
  contentBlocks <- batchContent batch date ;;
  resp <- createWithRetry (mkRequest selectionSystem contentBlocks) ;;
  batchCaptions batch resp.

(** *** Selection mode: generateInstagramCaptions (lines 64-134) *)

(** Lines 76-87: every image of every email, with its email's context. *)
Definition flattenImages (emails : list email) : list image :=
  flat_map
    (fun e =>
       map (fun url =>
              {| imageUrl := url;
                 emailId := id e;
                 subject := email_subject e;
                 sender := email_sender e;
                 textContent := email_textContent e |})
           (imageUrls e))
    emails.

(** The loop over the batches (lines 117-130), from [batchIndex], with the
    posts collected so far. *)
Fixpoint processBatches (batchIndex : nat) (batches : list (list image))
    (date : string) (allPosts : list post) : M (list post) :=
  match batches with
  | [] => ret allPosts
  | batch :: rest =>
      posts <- processBatch batch date batchIndex ;;
      let allPosts := allPosts ++ posts in
      if (3 <=? List.length allPosts)%nat
      then ret allPosts
      else processBatches (S batchIndex) rest date allPosts
  end.

Definition generateInstagramCaptions (emails : option (list email)) (date : string)
  : M (list post) :=
  match anthropic with
  | None => throw (Error "Claude client not configured")
  | Some _ =>
      match emails with
      | None => ret []
      | Some emails =>
          if (List.length emails =? 0)%nat
          then ret []
          else
            let allImages := flattenImages emails in
            let batches :=
              Planner.planBatches (MAX_BATCH_SIZE_MB * 1024)
                                  ESTIMATED_IMAGE_SIZE_KB allImages in
            allPosts <- processBatches 0 batches date [] ;;
            ret (firstn 5 allPosts)
      end
  end.

(** *** Combined mode: generateCombinedPost (lines 140-313) *)

Definition combinedSystem : string :=
  "You are an expert social media manager for schools. You have a great eye for crafting compelling Instagram captions that capture multiple moments and activities.".

(** [images.length > 1 ? 's' : ''] *)
Definition plural (n : nat) : string :=
  if (1 <? n)%nat then "s" else EmptyString.

Definition combinedIntro (date : string) (n : nat) : string :=
  template [
    "You are a social media manager for a school. Today's date is ";
    beforeT date; "."; nl; nl;
    "A user has selected "; showNat n; " image"; plural n;
    " to create an Instagram post."; nl; nl;
    "Your task is to:"; nl;
    "1. Review all "; showNat n; " image"; plural n;
    " and their associated email content"; nl;
    "2. Write ONE engaging Instagram caption that captures the essence of all the images together"; nl;
    "3. The caption should be engaging, upbeat, and mention key details"; nl;
    "4. Maximum 60 words"; nl; nl;
    "Here are the selected images:"; nl; nl ].

Definition combinedContext (index : nat) (img : image) : string :=
  template [
    "--- Image "; showNat (index + 1); " ---"; nl;
    "Subject: "; orElse (subject img) "No subject"; nl;
    "From: "; orElse (sender img) "Unknown"; nl;
    "Text: "; slice0 500 (orElse (textContent img) EmptyString); nl ].

Definition combinedOutro (n : nat) : string :=
  template [
    nl; nl;
    "Now write a single Instagram caption that captures all "; showNat n;
    " image"; plural n;
    ". Respond in valid JSON with this exact shape:"; nl;
    "{"; nl;
    "  "; dq; "caption"; dq; ": "; dq; "Your engaging Instagram caption here..."; dq; ","; nl;
    "  "; dq; "reasoning"; dq; ": "; dq; "Brief explanation of your caption choice"; dq; nl;
    "}"; nl; nl;
    "Make the caption upbeat, engaging, and suitable for parents and students." ].

(** The two placeholder blocks (lines 196-199 and 213-216). *)
Definition tooLargePlaceholder : contentBlock :=
  TextBlock ("[Image too large to process]" ++ nl)%string.

Definition notLoadedPlaceholder : contentBlock :=
  TextBlock ("[Image could not be loaded]" ++ nl)%string.

(** The loop over the selected images (lines 175-223), from [index]: the
    context block, then the image block, or a placeholder when the image is
    over 5MB ([continue]) or could not be resolved ([catch]), then the
    separator. *)
Fixpoint addSelectedImages (index : nat) (images : list image)
    (contentBlocks : list contentBlock) : M (list contentBlock) :=
  match images with
  | [] => ret contentBlocks
  | img :: rest =>
      let contentBlocks := contentBlocks ++ [TextBlock (combinedContext index img)] in
      r <- attempt (imageUrlToBase64 (imageUrl img)) ;;
      match r with
      | inr resolved =>
          if overFiveMB (base64Data resolved)
          then addSelectedImages (S index) rest (contentBlocks ++ [tooLargePlaceholder])
          else
            addSelectedImages (S index) rest
              (contentBlocks
                 ++ [ImageBlock (mediaType resolved) (base64Data resolved)]
                 ++ [TextBlock nl])
      | inl _ =>
          addSelectedImages (S index) rest
            (contentBlocks ++ [notLoadedPlaceholder] ++ [TextBlock nl])
      end
  end.

(** Lines 156-235: the content of the combined request. *)
Definition combinedContent (images : list image) (date : string)
  : M (list contentBlock) :=
  contentBlocks <- addSelectedImages 0 images
                     [TextBlock (combinedIntro date (List.length images))] ;;
  ret (contentBlocks ++ [TextBlock (combinedOutro (List.length images))]).

(** Lines 277-312: from the response to the post. *)
Definition combinedPost (images : list image) (resp : response) : M post :=
  let text := messageContent resp in
  r <- attempt
         (match decodeCaption (jsonString text) with
          | None => throw (Error "Unexpected token")
          | Some parsedCaption =>
              match parsedCaption with
              | Some (String c s) =>
                  let imageUrls := filter truthy (map imageUrl images) in
                  match images with
                  | first :: _ =>
                      fun tr =>
                        (tr ++ [EvNow],
                         inr {| caption_text := String c s;
                                email_id := Some (emailId first);
                                source_image_url := Some (imageUrl first);
                                source_image_urls :=
                                  if (0 <? List.length imageUrls)%nat
                                  then Some imageUrls else None;
                                created_at := clock tr |})
                  | [] => throw (Error "Cannot read properties of undefined")
                  end
              | _ => throw (Error "No caption in response")
              end
          end) ;;
  match r with
  | inr p => ret p
  | inl _ => throw (Error "Failed to generate caption")
  end.

Definition generateCombinedPost (images : option (list image)) (date : string)
  : M post :=
  match anthropic with
  | None => throw (Error "Claude client not configured")
  | Some _ =>
      match images with
      | None => throw (Error "No images provided")
      | Some images =>
          if (List.length images =? 0)%nat
          then throw (Error "No images provided")
          else if (5 <? List.length images)%nat
          then throw (Error "Maximum 5 images can be selected")
          else
            contentBlocks <- combinedContent images date ;;
            resp <- createWithRetry (mkRequest combinedSystem contentBlocks) ;;
            combinedPost images resp
      end
  end.

(** *** The cron handler on this generator *)

(** The services of the cron handler, with [generateInstagramCaptions] of
    this file as the generator; the world is the trace. *)
Definition cronServices (s : Cron.services trace) : Cron.services trace :=
  Cron.withGenerator s
    (fun emails date => generateInstagramCaptions (Some emails) date).

(** A block that may be sent: an image block holds an image that is not
    over the limit of five megabytes. *)
Definition sendable (b : contentBlock) : Prop :=
  match b with
  | ImageBlock _ data => overFiveMB data = false
  | TextBlock _ => True
  end.

Definition isImageBlock (b : contentBlock) : bool :=
  match b with
  | ImageBlock _ _ => true
  | TextBlock _ => false
  end.

(** The number of image blocks of a content. *)
Definition imageBlocks (contentBlocks : list contentBlock) : nat :=
  List.length (filter isImageBlock contentBlocks).

(** *** Notions used to state the properties *)

(** An outcome of the generation service is the overload signal. *)
Definition overloadedOutcome (o : error + response) : bool :=
  match o with
  | inl e => isOverloaded e
  | inr _ => false
  end.

(** The entry is an object whose [image_index] is an integer or names no
    property: not [null], and no key of a property of the array that is no
    image. *)
Definition indexed (entry : option selection) : bool :=
  match entry with
  | Some sel =>
      match image_index sel with
      | IntegerKey _ | NoSuchKey => true
      | LengthKey | InheritedKey _ => false
      end
  | None => false
  end.

(** The [image_index] of an entry is an index of the batch. *)
Definition resolves (batch : list image) (entry : option selection) : bool :=
  match entry with
  | Some sel =>
      match image_index sel with
      | IntegerKey z => (0 <=? z) && (z <? Z.of_nat (List.length batch))
      | _ => false
      end
  | None => false
  end.

(** The post [p] is the entry, linked to the image it names. *)
Definition linked (batch : list image) (entry : option selection) (p : post) : Prop :=
  exists (sel : selection) (z : Z) (img : image),
    entry = Some sel
    /\ image_index sel = IntegerKey z
    /\ 0 <= z
    /\ nth_error batch (Z.to_nat z) = Some img
    /\ caption_text p = caption sel
    /\ email_id p = Some (emailId img)
    /\ source_image_url p = Some (imageUrl img).

(** The calls of the generation service in a trace. *)
Definition creates (tr : trace) : nat := List.length (filter isCreate tr).

(** A locator is fetched over the network: it is no data URL and starts with
    [http://] or [https://]. *)
Definition needsFetch (imageUrl : string) : bool :=
  match dataUrlMatch imageUrl with
  | Some _ => false
  | None => prefix "http://" imageUrl || prefix "https://" imageUrl
  end.

(** The fetches of a list of images: one for each locator that needs one, in
    the order of the list. *)
Definition fetches (images : list image) : trace :=
  map EvFetch (filter needsFetch (map imageUrl images)).

Definition isFetch (e : event) : bool :=
  match e with
  | EvFetch _ => true
  | _ => false
  end.

(** The fetches of a run, in their order. *)
Definition fetchEvents (tr : trace) : trace := filter isFetch tr.

(** The post [p] points to the image [img]: its email, its URL, and that URL
    alone as the list of URLs (no list when the URL is empty). *)
Definition fromImage (img : image) (p : post) : Prop :=
  email_id p = Some (emailId img)
  /\ source_image_url p = Some (imageUrl img)
  /\ source_image_urls p
     = (if truthy (imageUrl img) then Some [imageUrl img] else None).

(** The post [p] points to no image: it was made from a property of the
    batch that is no image, and has no email, no URL and no list of URLs. *)
Definition fromProperty (p : post) : Prop :=
  email_id p = None /\ source_image_url p = None /\ source_image_urls p = None.

(** Where a post of auto-selection mode comes from: one of the [images], or
    a property of a batch that is no image. *)
Definition origin (images : list image) (p : post) : Prop :=
  (exists img, In img images /\ fromImage img p) \/ fromProperty p.

(* ------------------------------------------------------------------ *)
(** ** Scripted collaborators for the examples *)

Definition sampleDate : string := "2025-03-14T09:30:00.000Z".

Definition sampleImage (n : nat) : image :=
  {| imageUrl := ("https://img.example/" ++ showNat n)%string;
     emailId := ("email-" ++ showNat (n / 4))%string;
     subject := Some "Field day";
     sender := None;
     textContent := Some "Photos from the field day." |}.

Definition sampleImages (n : nat) : list image := map sampleImage (seq 0 n).

(** One email carrying [n] images. *)
Definition sampleEmail (n : nat) : email :=
  {| id := "email-0";
     email_subject := Some "Field day";
     email_sender := Some "teacher@school.example";
     email_textContent := None;
     imageUrls := map (fun k => ("https://img.example/" ++ showNat k)%string) (seq 0 n) |}.

Definition sampleResponse : response :=
  mkResponse (Some [mkResponseBlock (Some "{...}")]).

Definition overloadedError : error := mkError (Some 529) "Overloaded".

Definition badRequestError : error := mkError (Some 400) "Bad request".

(** A service that always answers. *)
Definition answering : trace -> request -> error + response :=
  fun _ _ => inr sampleResponse.

(** A service that is overloaded for its first [n] calls. *)
Definition overloadedFor (n : nat) : trace -> request -> error + response :=
  fun tr _ =>
    if (List.length (filter isCreate tr) <? n)%nat
    then inl overloadedError
    else inr sampleResponse.

(** A service that answers its first call and is overloaded from then on. *)
Definition overloadedAfterFirst : trace -> request -> error + response :=
  fun tr _ =>
    if (List.length (filter isCreate tr) =? 0)%nat
    then inr sampleResponse
    else inl overloadedError.

(** No host can be reached. *)
Definition unreachable : trace -> string -> error + fetched :=
  fun _ _ => inl (Error "fetch failed").

(** Every URL answers 404. *)
Definition notFound : trace -> string -> error + fetched :=
  fun _ _ => inr (mkFetched false "Not Found" EmptyString None).

(** Every URL is a small PNG, served without a content type. *)
Definition smallPng : trace -> string -> error + fetched :=
  fun _ _ => inr (mkFetched true "OK" "iVBORw0KGgo=" None).

(** An image given inline. *)
Definition inlineImage : image :=
  {| imageUrl := "data:image/jpeg;base64,/9j/4AAQSkZJRg==";
     emailId := "email-9";
     subject := None;
     sender := Some "parent@home.example";
     textContent := None |}.

(** An image whose locator is neither a data URL nor an http(s) URL. *)
Definition ftpImage : image :=
  {| imageUrl := "ftp://img.example/0";
     emailId := "email-9";
     subject := None;
     sender := None;
     textContent := None |}.

Definition fixedClock : trace -> string :=
  fun _ => "2025-03-14T09:30:05.000Z".

(** The model selects the images of the given indices. *)
Definition selecting (indices : list Z) : string -> option selectionsField :=
  fun _ =>
    Some (SelectionsArray
            (map (fun z =>
                    Some (mkSelection (IntegerKey z) "Field day fun!" "Clear and lively"))
                 indices)).

Definition undecodable : string -> option selectionsField := fun _ => None.

Definition captioning : string -> option (option string) :=
  fun _ => Some (Some "Field day fun!").

(** Two organizations; the query of the second one fails. The clock stands
    still, the notification cannot be sent, and no generator is set. *)
Definition sampleOrganizations : list Cron.organization :=
  [Cron.mkOrganization "org-1" "Oak School"; Cron.mkOrganization "org-2" "Elm School"].

Definition sampleServices : Cron.services trace :=
  {| Cron.dateNow := fun w => (w, 1741944600000);
     Cron.toISOString := fun _ => sampleDate;
     Cron.listOrganizations := Handler.ret sampleOrganizations;
     Cron.fetchEmailsWithImagesForDateRange :=
       fun _ _ organizationId =>
         if String.eqb organizationId "org-1"
         then Handler.ret [sampleEmail 8]
         else Handler.throw (Error "connection lost");
     Cron.generateInstagramCaptions := fun _ _ => Handler.ret [];
     Cron.storeGeneratedPosts := fun _ _ => Handler.ret tt;
     Cron.sendDailyPostsNotification :=
       fun _ _ _ _ => Handler.throw (Error "Mailgun not configured") |}.

Definition sampleEnvironment : Cron.environment :=
  {| Cron.CLAUDE_API_KEY := Some "sk-test";
     Cron.NOTIFICATION_EMAIL := Some "office@school.example" |}.

(* ------------------------------------------------------------------ *)
(** ** The batch planner: nothing is dropped, and the batches are bounded *)

Section PlannerFacts.

Variable A : Type.
Variables maxBatchSizeKB estimateKB : Z.

Local Abbreviation step := (Planner.step (A := A) maxBatchSizeKB estimateKB).
Local Abbreviation seen := (Planner.seen (A := A)).
Local Abbreviation fits := (Planner.fits (A := A) maxBatchSizeKB estimateKB).
Local Abbreviation full := (Planner.full (A := A) maxBatchSizeKB estimateKB).
Local Abbreviation planned := (Planner.planned (A := A) maxBatchSizeKB estimateKB).

Lemma seen_step (st : Planner.state A) (x : A) :
  seen (step st x) = seen st ++ [x].
Proof.
  unfold Planner.seen, Planner.step.
  destruct (Planner.closes maxBatchSizeKB estimateKB st); simpl.
  - rewrite concat_app. simpl. now rewrite app_nil_r.
  - now rewrite app_assoc.
Qed.

Lemma seen_fold (l : list A) (st : Planner.state A) :
  seen (fold_left step l st) = seen st ++ l.
Proof.
  revert st. induction l as [|x l IH]; intro st; simpl.
  - now rewrite app_nil_r.
  - rewrite IH, seen_step, <- app_assoc. reflexivity.
Qed.

Lemma nonEmpty_false (l : list A) : Planner.nonEmpty l = false -> l = [].
Proof.
  destruct l; [reflexivity | discriminate].
Qed.

Lemma nonEmpty_true (l : list A) : Planner.nonEmpty l = true -> l <> [].
Proof.
  destruct l; [discriminate | intros _ H; discriminate H].
Qed.

Lemma concat_finish (st : Planner.state A) :
  List.concat (Planner.finish st) = seen st.
Proof.
  unfold Planner.finish, Planner.seen.
  destruct (Planner.nonEmpty (Planner.currentBatch st)) eqn:E.
  - rewrite concat_app. simpl. now rewrite app_nil_r.
  - apply nonEmpty_false in E. rewrite E. now rewrite app_nil_r.
Qed.

Lemma planned_init : planned Planner.init.
Proof.
  split; simpl.
  - reflexivity.
  - intro H. simpl in H. lia.
  - constructor.
Qed.

Lemma planned_step (st : Planner.state A) (x : A) :
  planned st -> planned (step st x).
Proof.
  intros [Hsize Hcur Hclosed].
  unfold Planner.step.
  destruct (Planner.closes maxBatchSizeKB estimateKB st) eqn:E; unfold Planner.closes in E.
  - apply andb_true_iff in E as [Hover Hne].
    apply Z.gtb_lt in Hover. apply nonEmpty_true in Hne.
    split; cbn [Planner.batches Planner.currentBatch Planner.currentBatchSizeKB].
    + change (List.length ([] ++ [x])) with 1%nat. lia.
    + intro H. change (List.length ([] ++ [x])) with 1%nat in H. lia.
    + apply Forall_app. split; [exact Hclosed|].
      constructor; [|constructor].
      repeat split; [exact Hne | exact Hcur |].
      unfold Planner.full. rewrite <- Hsize. lia.
  - split; cbn [Planner.batches Planner.currentBatch Planner.currentBatchSizeKB].
    + rewrite Hsize, length_app. change (List.length [x]) with 1%nat. lia.
    + unfold Planner.fits. rewrite length_app. change (List.length [x]) with 1%nat.
      intro H2.
      apply andb_false_iff in E as [Hle | Hempty].
      * rewrite Z.gtb_ltb in Hle. apply Z.ltb_ge in Hle. rewrite Hsize in Hle. lia.
      * apply nonEmpty_false in Hempty. rewrite Hempty in H2. simpl in H2. lia.
    + exact Hclosed.
Qed.

Lemma planned_fold (l : list A) (st : Planner.state A) :
  planned st -> planned (fold_left step l st).
Proof.
  revert st. induction l as [|x l IH]; intros st H; simpl.
  - exact H.
  - apply IH, planned_step, H.
Qed.

(** What the invariant gives for the batches that are returned. *)
Lemma finish_planned (st : Planner.state A) :
  planned st ->
  Forall (fun b => b <> [] /\ fits b) (Planner.finish st)
  /\ forall pre b post,
       Planner.finish st = pre ++ b :: post -> post <> [] -> full b.
Proof.
  intros [Hsize Hcur Hclosed].
  assert (Hweak : Forall (fun b => b <> [] /\ fits b) (Planner.batches st)).
  { eapply Forall_impl; [|exact Hclosed]. simpl. tauto. }
  assert (Hin : forall pre b post,
             Planner.batches st = pre ++ b :: post -> full b).
  { intros pre b post E. rewrite E in Hclosed.
    apply Forall_app in Hclosed as [_ Hb]. inversion Hb; subst. tauto. }
  unfold Planner.finish.
  destruct (Planner.nonEmpty (Planner.currentBatch st)) eqn:E.
  - split.
    + apply Forall_app. split; [exact Hweak|].
      constructor; [|constructor]. split; [now apply nonEmpty_true | exact Hcur].
    + intros pre b post Heq Hpost.
      destruct (exists_last Hpost) as [post' [z Hz]]. subst post.
      change (pre ++ b :: post' ++ [z]) with (pre ++ (b :: post') ++ [z]) in Heq.
      rewrite app_assoc in Heq.
      apply app_inj_tail in Heq as [Heq _].
      eapply Hin. exact Heq.
  - split; [exact Hweak|].
    intros pre b post Heq _. eapply Hin. exact Heq.
Qed.

(** C3. Nothing is dropped or duplicated: the batches, concatenated in order,
    are the input list. No image gives no batch, and a single image is a
    batch of its own whatever the ceiling and the estimate are (also when the
    estimate alone exceeds the ceiling). *)
Theorem planBatches_keeps_every_image (allImages : list A) :
  List.concat (Planner.planBatches maxBatchSizeKB estimateKB allImages) = allImages
  /\ Planner.planBatches maxBatchSizeKB estimateKB (@nil A) = []
  /\ (forall x : A, Planner.planBatches maxBatchSizeKB estimateKB [x] = [[x]]).
Proof.
  repeat split.
  - unfold Planner.planBatches. rewrite concat_finish, seen_fold. reflexivity.
  - intro x. unfold Planner.planBatches, Planner.step, Planner.closes.
    cbn [fold_left Planner.init Planner.currentBatch Planner.nonEmpty
         List.length Nat.ltb Nat.leb].
    rewrite andb_false_r. reflexivity.
Qed.

(** C4. With a non-negative per-item estimate, every batch of the plan has
    [(size - 1) * estimate <= ceiling] or is a single image. The planner is
    greedy: an iteration closes the open batch exactly when that batch is
    not empty and the running estimate plus one estimate exceeds the
    ceiling; so a batch of two or more fits under the ceiling as a whole,
    and every batch but the last could not have taken one more image. *)
Theorem planBatches_bound (allImages : list A) :
  0 <= estimateKB ->
  Forall (fun b => List.length b = 1%nat
                   \/ (Z.of_nat (List.length b) - 1) * estimateKB <= maxBatchSizeKB)
         (Planner.planBatches maxBatchSizeKB estimateKB allImages)
  /\ (forall (st : Planner.state A) (x : A),
        Planner.step maxBatchSizeKB estimateKB st x
        = if (Planner.currentBatchSizeKB st + estimateKB >? maxBatchSizeKB)
             && (0 <? List.length (Planner.currentBatch st))%nat
          then Planner.mkState (Planner.batches st ++ [Planner.currentBatch st])
                               [x] estimateKB
          else Planner.mkState (Planner.batches st)
                               (Planner.currentBatch st ++ [x])
                               (Planner.currentBatchSizeKB st + estimateKB))
  /\ Forall (fun b => b <> []
                      /\ ((2 <= List.length b)%nat ->
                          Z.of_nat (List.length b) * estimateKB <= maxBatchSizeKB))
            (Planner.planBatches maxBatchSizeKB estimateKB allImages)
  /\ (forall pre b post,
        Planner.planBatches maxBatchSizeKB estimateKB allImages = pre ++ b :: post ->
        post <> [] ->
        Z.of_nat (List.length b) * estimateKB + estimateKB > maxBatchSizeKB).
Proof.
  intro Hw.
  destruct (finish_planned
              (fold_left step allImages Planner.init)
              (planned_fold allImages Planner.init planned_init))
    as [Hall Hfull].
  repeat split.
  - eapply Forall_impl; [|exact Hall].
    intros b [Hne Hfit]. unfold Planner.fits in Hfit.
    destruct b as [|x [|y b]]; [congruence | now left | right].
    specialize (Hfit ltac:(simpl; lia)). nia.
  - intros st x. unfold Planner.step, Planner.closes, Planner.nonEmpty.
    destruct ((Planner.currentBatchSizeKB st + estimateKB >? maxBatchSizeKB)
              && (0 <? List.length (Planner.currentBatch st))%nat); reflexivity.
  - exact Hall.
  - exact Hfull.
Qed.

End PlannerFacts.

(* ------------------------------------------------------------------ *)
(** ** The generation call: three attempts, retried on overload only *)

Lemma isOverloaded_529 (e : error) : isOverloaded e = true <-> status e = Some 529.
Proof.
  unfold isOverloaded. destruct (status e) as [s|].
  - rewrite Z.eqb_eq. split; congruence.
  - split; discriminate.
Qed.

(** One iteration of the retry loop. *)
Lemma retryLoop_step
    (create : trace -> request -> error + response)
    (remaining i : nat) (lastError : option error) (req : request) (tr : trace) :
  anthropic = Some create ->
  retryLoop (S remaining) i lastError req tr
  = match create tr req with
    | inr r => (tr ++ [EvCreate req], inr r)
    | inl e =>
        if isOverloaded e && (i <? retries - 1)%nat
        then retryLoop remaining (S i) (Some e) req
               (tr ++ [EvCreate req; EvSleep ((Z.of_nat i + 1) * 2000)])
        else (tr ++ [EvCreate req], inl e)
    end.
Proof.
  intro Hclient.
  cbn [retryLoop]. unfold bind, attempt, messagesCreate, sleep, emit, ret, throw.
  rewrite Hclient.
  destruct (create tr req) as [e|r]; [|reflexivity].
  destruct (isOverloaded e && (i <? retries - 1)%nat); [|reflexivity].
  rewrite <- app_assoc. reflexivity.
Qed.

(** C5. A generation call runs in one of three ways. (1) The first attempt
    succeeds or fails with something else than the overload signal (status
    529): that outcome is the result, and nothing else happens. (2) The first
    attempt is overloaded: the call sleeps 2000ms and attempts again; a
    success or another failure of that attempt is the result. (3) The first
    two attempts are overloaded: the call sleeps 4000ms more and attempts a
    third time, and the outcome of the third attempt, whatever it is, is the
    result (an overload error is thrown, not retried). *)
Theorem createWithRetry_attempts
    (create : trace -> request -> error + response) (req : request) (tr : trace) :
  anthropic = Some create ->
  let attempt1 := tr in
  let attempt2 := tr ++ [EvCreate req; EvSleep 2000] in
  let attempt3 := tr ++ [EvCreate req; EvSleep 2000; EvCreate req; EvSleep 4000] in
  (overloadedOutcome (create attempt1 req) = false
   /\ createWithRetry req tr = (attempt1 ++ [EvCreate req], create attempt1 req))
  \/ (overloadedOutcome (create attempt1 req) = true
      /\ overloadedOutcome (create attempt2 req) = false
      /\ createWithRetry req tr = (attempt2 ++ [EvCreate req], create attempt2 req))
  \/ (overloadedOutcome (create attempt1 req) = true
      /\ overloadedOutcome (create attempt2 req) = true
      /\ createWithRetry req tr = (attempt3 ++ [EvCreate req], create attempt3 req)).
Proof.
  intros Hclient attempt1 attempt2 attempt3.
  assert (E3 : attempt2 ++ [EvCreate req; EvSleep 4000] = attempt3).
  { unfold attempt2, attempt3. now rewrite <- app_assoc. }
  unfold createWithRetry, retries. subst attempt1.
  rewrite (retryLoop_step create _ _ _ _ _ Hclient).
  destruct (create tr req) as [e1|r1] eqn:O1; cbn [overloadedOutcome].
  2: { left. split; reflexivity. }
  destruct (isOverloaded e1) eqn:V1; [|left; split; reflexivity].
  right. change ((Z.of_nat 0 + 1) * 2000) with 2000. fold attempt2.
  cbn [andb Nat.ltb Nat.leb Nat.sub retries].
  rewrite (retryLoop_step create _ _ _ _ _ Hclient).
  destruct (create attempt2 req) as [e2|r2] eqn:O2; cbn [overloadedOutcome].
  2: { left. repeat split. }
  destruct (isOverloaded e2) eqn:V2; [|left; repeat split].
  right. change ((Z.of_nat 1 + 1) * 2000) with 4000. rewrite E3.
  cbn [andb Nat.ltb Nat.leb Nat.sub retries].
  rewrite (retryLoop_step create _ _ _ _ _ Hclient).
  destruct (create attempt3 req) as [e3|r3] eqn:O3; [|repeat split].
  rewrite andb_false_r. repeat split.
Qed.

(* ------------------------------------------------------------------ *)
(** ** The content of a request: images that fail or are too large *)

(** One iteration of the loop of combined mode. *)
Lemma addSelectedImages_step
    (index : nat) (img : image) (rest : list image)
    (blocks : list contentBlock) (tr : trace) :
  addSelectedImages index (img :: rest) blocks tr
  = let (tr1, r) := imageUrlToBase64 (imageUrl img) tr in
    addSelectedImages (S index) rest
      (blocks
         ++ TextBlock (combinedContext index img)
         :: match r with
            | inl _ => [notLoadedPlaceholder; TextBlock nl]
            | inr resolved =>
                if overFiveMB (base64Data resolved)
                then [tooLargePlaceholder]
                else [ImageBlock (mediaType resolved) (base64Data resolved);
                      TextBlock nl]
            end)
      tr1.
Proof.
  cbn [addSelectedImages]. unfold bind, attempt.
  destruct (imageUrlToBase64 (imageUrl img) tr) as [tr1 [e|resolved]].
  - rewrite <- app_assoc. reflexivity.
  - destruct (overFiveMB (base64Data resolved)); rewrite <- app_assoc; reflexivity.
Qed.

(** One iteration of the loop of selection mode. *)
Lemma addBatchImages_step
    (imageIndex : nat) (img : image) (rest : list image)
    (blocks : list contentBlock) (tr : trace) :
  addBatchImages imageIndex (img :: rest) blocks tr
  = let (tr1, r) := imageUrlToBase64 (imageUrl img) tr in
    addBatchImages (S imageIndex) rest
      (blocks
         ++ TextBlock (selectionContext imageIndex img)
         :: match r with
            | inl _ => [TextBlock nl]
            | inr resolved =>
                if overFiveMB (base64Data resolved)
                then []
                else [ImageBlock (mediaType resolved) (base64Data resolved);
                      TextBlock nl]
            end)
      tr1.
Proof.
  cbn [addBatchImages]. unfold bind, attempt.
  destruct (imageUrlToBase64 (imageUrl img) tr) as [tr1 [e|resolved]].
  - rewrite <- app_assoc. reflexivity.
  - destruct (overFiveMB (base64Data resolved)); [reflexivity|].
    rewrite <- app_assoc. reflexivity.
Qed.

(** Both loops run to their end and return the blocks, whatever the images
    resolve to. *)
Lemma addSelectedImages_total (images : list image) :
  forall (index : nat) (blocks : list contentBlock) (tr : trace),
  exists tr' blocks',
    addSelectedImages index images blocks tr = (tr', inr blocks').
Proof.
  induction images as [|img rest IH]; intros index blocks tr.
  - exists tr, blocks. reflexivity.
  - rewrite addSelectedImages_step.
    destruct (imageUrlToBase64 (imageUrl img) tr) as [tr1 r]. apply IH.
Qed.

Lemma addBatchImages_total (batch : list image) :
  forall (imageIndex : nat) (blocks : list contentBlock) (tr : trace),
  exists tr' blocks',
    addBatchImages imageIndex batch blocks tr = (tr', inr blocks').
Proof.
  induction batch as [|img rest IH]; intros imageIndex blocks tr.
  - exists tr, blocks. reflexivity.
  - rewrite addBatchImages_step.
    destruct (imageUrlToBase64 (imageUrl img) tr) as [tr1 r]. apply IH.
Qed.

Lemma combinedContent_total (images : list image) (date : string) (tr : trace) :
  exists tr' contentBlocks,
    combinedContent images date tr = (tr', inr contentBlocks).
Proof.
  unfold combinedContent, bind.
  destruct (addSelectedImages_total images 0
              [TextBlock (combinedIntro date (List.length images))] tr)
    as [tr' [blocks E]].
  rewrite E. eexists. eexists. reflexivity.
Qed.

Lemma batchContent_total (batch : list image) (date : string) (tr : trace) :
  exists tr' contentBlocks,
    batchContent batch date tr = (tr', inr contentBlocks).
Proof.
  unfold batchContent, bind.
  destruct (addBatchImages_total batch 0
              [TextBlock (selectionIntro date (List.length batch))] tr)
    as [tr' [blocks E]].
  rewrite E. eexists. eexists. reflexivity.
Qed.

(** A locator that is neither a data URL nor an http(s) URL cannot be
    resolved, and nothing is fetched for it. *)
Lemma imageUrlToBase64_invalid (imageUrl : string) (tr : trace) :
  dataUrlMatch imageUrl = None ->
  prefix "http://" imageUrl = false ->
  prefix "https://" imageUrl = false ->
  imageUrlToBase64 imageUrl tr
  = (tr, inl (Error (template ["Invalid image URL format: "; imageUrl]))).
Proof.
  intros Hdata Hhttp Hhttps. unfold imageUrlToBase64.
  rewrite Hdata, Hhttp, Hhttps. reflexivity.
Qed.

(** C6, as the code has it. In combined mode an image that cannot be resolved
    gives the block "[Image could not be loaded]" after its context block,
    and an image over 5MB gives the block "[Image too large to process]". In
    selection mode neither placeholder is written: the image is skipped, its
    context block stays. In both modes the loop goes on with the next image,
    and the content of the request is built whatever the images resolve to;
    a batch always goes on to its generation call, with that content. *)
Theorem placeholders_by_mode
    (index : nat) (img : image) (rest : list image)
    (blocks : list contentBlock) (tr tr1 : trace) :
  (forall e,
      imageUrlToBase64 (imageUrl img) tr = (tr1, inl e) ->
      addSelectedImages index (img :: rest) blocks tr
      = addSelectedImages (S index) rest
          (blocks ++ [TextBlock (combinedContext index img);
                      TextBlock ("[Image could not be loaded]" ++ nl)%string;
                      TextBlock nl])
          tr1
      /\ addBatchImages index (img :: rest) blocks tr
         = addBatchImages (S index) rest
             (blocks ++ [TextBlock (selectionContext index img); TextBlock nl])
             tr1)
  /\ (forall resolved,
        imageUrlToBase64 (imageUrl img) tr = (tr1, inr resolved) ->
        addSelectedImages index (img :: rest) blocks tr
        = addSelectedImages (S index) rest
            (blocks
               ++ TextBlock (combinedContext index img)
               :: (if overFiveMB (base64Data resolved)
                   then [TextBlock ("[Image too large to process]" ++ nl)%string]
                   else [ImageBlock (mediaType resolved) (base64Data resolved);
                         TextBlock nl]))
            tr1
        /\ addBatchImages index (img :: rest) blocks tr
           = addBatchImages (S index) rest
               (blocks
                  ++ TextBlock (selectionContext index img)
                  :: (if overFiveMB (base64Data resolved)
                      then []
                      else [ImageBlock (mediaType resolved) (base64Data resolved);
                            TextBlock nl]))
               tr1)
  /\ (forall (images : list image) (date : string) (tr0 : trace),
        exists tr' contentBlocks,
          combinedContent images date tr0 = (tr', inr contentBlocks))
  /\ (forall (batch : list image) (date : string) (tr0 : trace),
        exists tr' contentBlocks,
          batchContent batch date tr0 = (tr', inr contentBlocks))
  /\ (forall (batch : list image) (date : string) (batchIndex : nat) (tr0 : trace),
        exists tr' contentBlocks,
          batchContent batch date tr0 = (tr', inr contentBlocks)
          /\ processBatch batch date batchIndex tr0
             = (resp <- createWithRetry (mkRequest selectionSystem contentBlocks) ;;
                batchCaptions batch resp) tr').
Proof.
  split; [|split; [|split; [|split]]].
  - intros e H. split.
    + rewrite addSelectedImages_step, H. reflexivity.
    + rewrite addBatchImages_step, H. reflexivity.
  - intros resolved H. split.
    + rewrite addSelectedImages_step, H. reflexivity.
    + rewrite addBatchImages_step, H. reflexivity.
  - apply combinedContent_total.
  - apply batchContent_total.
  - intros batch date batchIndex tr0.
    destruct (batchContent_total batch date tr0) as [tr' [contentBlocks E]].
    exists tr', contentBlocks. split; [exact E|].
    unfold processBatch. unfold bind at 1. rewrite E. reflexivity.
Qed.

(* ------------------------------------------------------------------ *)
(** ** Validation of the selections *)

Lemma batchAt_resolves (batch : list image) (sel : selection) :
  match batchAt batch (image_index sel) with
  | Some (Image img) =>
      resolves batch (Some sel) = true
      /\ exists z, image_index sel = IntegerKey z /\ 0 <= z
                   /\ nth_error batch (Z.to_nat z) = Some img
  | Some Property => indexed (Some sel) = false
  | None => resolves batch (Some sel) = false
  end.
Proof.
  unfold batchAt, resolves, indexed.
  destruct (image_index sel) as [z| |name|]; try reflexivity.
  - destruct (z <? 0) eqn:Hneg.
    + apply Z.ltb_lt in Hneg.
      replace (0 <=? z) with false by (symmetry; apply Z.leb_gt; lia).
      reflexivity.
    + apply Z.ltb_ge in Hneg.
      replace (0 <=? z) with true by (symmetry; apply Z.leb_le; lia).
      cbn [andb].
      destruct (nth_error batch (Z.to_nat z)) as [img|] eqn:Hnth; cbn [option_map].
      * split.
        -- apply Z.ltb_lt.
           assert (Z.to_nat z < List.length batch)%nat
             by (apply nth_error_Some; congruence).
           lia.
        -- exists z. auto.
      * apply Z.ltb_ge. apply nth_error_None in Hnth. lia.
  - destruct (List.length batch =? 0)%nat; reflexivity.
Qed.

(** On entries that are objects with an integer or with no property for an
    index, the mapping of the selections never raises; the entries it keeps
    are the entries whose index resolves, in their order, each linked to its
    image. *)
Lemma mapM_selectionToCaption (batch : list image) (entries : list (option selection)) :
  forallb indexed entries = true ->
  forall tr : trace,
  exists tr' captions,
    mapM (selectionToCaption batch) entries tr = (tr', inr captions)
    /\ Forall2 (linked batch) (filter (resolves batch) entries)
                              (filterBoolean captions).
Proof.
  induction entries as [|entry rest IH]; intros Hindexed tr.
  - exists tr, []. split; [reflexivity | constructor].
  - cbn [forallb] in Hindexed. apply andb_true_iff in Hindexed as [Hentry Hrest].
    destruct entry as [sel|]; [|discriminate Hentry].
    cbn [mapM filter]. unfold bind. unfold selectionToCaption at 1.
    pose proof (batchAt_resolves batch sel) as Hidx.
    destruct (batchAt batch (image_index sel)) as [[img|]|].
    + destruct Hidx as [Hres [z [Hz [Hpos Hnth]]]]. rewrite Hres.
      destruct (IH Hrest (tr ++ [EvNow])) as [tr' [captions [E HF]]].
      rewrite E. eexists. eexists. split; [reflexivity|].
      cbn [filterBoolean]. constructor; [|exact HF].
      exists sel, z, img. cbn. repeat split; assumption.
    + congruence.
    + rewrite Hidx. unfold ret at 1.
      destruct (IH Hrest tr) as [tr' [captions [E HF]]].
      rewrite E. eexists. eexists. split; [reflexivity|].
      cbn [filterBoolean]. exact HF.
Qed.

(** An entry that is [null] makes the mapping raise. *)
Lemma mapM_selectionToCaption_null (batch : list image)
    (entries : list (option selection)) :
  In None entries ->
  forall tr : trace,
  exists tr' e, mapM (selectionToCaption batch) entries tr = (tr', inl e).
Proof.
  induction entries as [|entry rest IH]; intros Hnull tr; [destruct Hnull|].
  cbn [mapM]. unfold bind.
  destruct entry as [sel|].
  - destruct Hnull as [Hnull | Hnull]; [discriminate Hnull|].
    unfold selectionToCaption at 1.
    destruct (batchAt batch (image_index sel)) as [image|].
    + destruct (IH Hnull (tr ++ [EvNow])) as [tr' [e E]].
      rewrite E. eexists. eexists. reflexivity.
    + unfold ret at 1. destruct (IH Hnull tr) as [tr' [e E]].
      rewrite E. eexists. eexists. reflexivity.
  - eexists. eexists. reflexivity.
Qed.

(** C8. When the response decodes to a [selections] array whose entries are
    objects with an [image_index] that is an integer or names no property,
    the batch gives one post for each entry whose [image_index] is an index
    of the batch, in the order of the response, with that entry's caption
    and that image's email id and URL; the other entries are dropped, and
    nothing is raised. When an entry of the array is [null], the batch
    raises "Claude response parsing failed" and gives no post. When
    [selections] is missing, not an array or empty, the batch gives no post,
    and no error. *)
Theorem batchCaptions_keeps_valid_selections
    (batch : list image) (resp : response) (tr : trace) :
  (forall entries,
      decodeSelections (jsonString (messageContent resp)) = Some (SelectionsArray entries) ->
      forallb indexed entries = true ->
      exists tr' posts,
        batchCaptions batch resp tr = (tr', inr posts)
        /\ Forall2 (linked batch) (filter (resolves batch) entries) posts)
  /\ (forall entries,
        decodeSelections (jsonString (messageContent resp))
        = Some (SelectionsArray entries) ->
        In None entries ->
        exists tr',
          batchCaptions batch resp tr
          = (tr', inl (Error "Claude response parsing failed")))
  /\ (decodeSelections (jsonString (messageContent resp)) = Some NotAnArray
      \/ decodeSelections (jsonString (messageContent resp)) = Some (SelectionsArray []) ->
      batchCaptions batch resp tr = (tr, inr [])).
Proof.
  split; [|split].
  - intros entries Hdec Hindexed. unfold batchCaptions, bind, attempt. rewrite Hdec.
    destruct entries as [|entry rest].
    + exists tr, []. split; [reflexivity | constructor].
    + cbn [List.length Nat.eqb].
      destruct (mapM_selectionToCaption batch (entry :: rest) Hindexed tr)
        as [tr' [captions [E HF]]].
      rewrite E. exists tr', (filterBoolean captions). split; [reflexivity | exact HF].
  - intros entries Hdec Hnull. unfold batchCaptions, bind, attempt. rewrite Hdec.
    destruct entries as [|entry rest]; [destruct Hnull|].
    cbn [List.length Nat.eqb].
    destruct (mapM_selectionToCaption_null batch (entry :: rest) Hnull tr)
      as [tr' [e E]].
    rewrite E. exists tr'. reflexivity.
  - intros [Hdec | Hdec]; unfold batchCaptions, bind, attempt; rewrite Hdec;
      reflexivity.
Qed.

(* ------------------------------------------------------------------ *)
(** ** The loop over the batches *)

(** The loop over [pre ++ rest] is the loop over [pre], followed by the loop
    over [rest] when [pre] was gone through without failure and without
    reaching three posts. *)
Lemma processBatches_app (date : string) (pre rest : list (list image)) :
  forall (batchIndex : nat) (allPosts : list post) (tr : trace),
  (List.length allPosts < 3)%nat ->
  processBatches batchIndex (pre ++ rest) date allPosts tr
  = match processBatches batchIndex pre date allPosts tr with
    | (tr1, inr posts) =>
        if (3 <=? List.length posts)%nat
        then (tr1, inr posts)
        else processBatches (batchIndex + List.length pre) rest date posts tr1
    | (tr1, inl e) => (tr1, inl e)
    end.
Proof.
  induction pre as [|batch pre IH]; intros batchIndex allPosts tr Hlt.
  - cbn [app processBatches List.length]. unfold ret.
    replace (3 <=? List.length allPosts)%nat with false
      by (symmetry; apply Nat.leb_gt; exact Hlt).
    now rewrite Nat.add_0_r.
  - cbn [app processBatches]. unfold bind.
    destruct (processBatch batch date batchIndex tr) as [tr1 [e|posts]];
      [reflexivity|].
    destruct (3 <=? List.length (allPosts ++ posts))%nat eqn:Hstop.
    + unfold ret. rewrite Hstop. reflexivity.
    + rewrite IH by (apply Nat.leb_gt; exact Hstop).
      cbn [List.length]. now rewrite Nat.add_succ_r.
Qed.

(** The run, when the client is configured and there are emails. *)
Lemma generateInstagramCaptions_run
    (create : trace -> request -> error + response)
    (emails : list email) (date : string) (tr : trace) :
  anthropic = Some create ->
  emails <> [] ->
  generateInstagramCaptions (Some emails) date tr
  = match processBatches 0
            (Planner.planBatches (MAX_BATCH_SIZE_MB * 1024) ESTIMATED_IMAGE_SIZE_KB
                                 (flattenImages emails))
            date [] tr with
    | (tr1, inr allPosts) => (tr1, inr (firstn 5 allPosts))
    | (tr1, inl e) => (tr1, inl e)
    end.
Proof.
  intros Hclient Hne. unfold generateInstagramCaptions. rewrite Hclient.
  destruct emails as [|e es]; [congruence|].
  cbn [List.length Nat.eqb]. unfold bind.
  destruct (processBatches _ _ _ _ _) as [tr1 [err|allPosts]]; reflexivity.
Qed.

(** C1. Whatever the emails, the images and the answers of the generation
    service are, a run of auto-selection mode that returns posts returns at
    most five. *)
Theorem generateInstagramCaptions_at_most_five
    (emails : option (list email)) (date : string) (tr tr' : trace)
    (posts : list post) :
  generateInstagramCaptions emails date tr = (tr', inr posts) ->
  (List.length posts <= 5)%nat.
Proof.
  unfold generateInstagramCaptions.
  destruct anthropic as [create|]; [|discriminate].
  destruct emails as [emails|].
  2: { intro H. inversion H. cbn. lia. }
  destruct (List.length emails =? 0)%nat.
  1: { intro H. inversion H. cbn. lia. }
  unfold bind.
  destruct (processBatches _ _ _ _ _) as [tr1 [err|allPosts]]; [discriminate|].
  unfold ret. intro H.
  assert (Hposts : firstn 5 allPosts = posts) by congruence.
  rewrite <- Hposts. apply firstn_le_length.
Qed.

(** C2. When going through a first part [pre] of the planned batches leaves
    three posts or more, the run ends there: its trace is the trace at that
    point, so no image of a later batch is fetched and the generation service
    is not called for any later batch; the posts collected so far, cut to
    five, are returned. *)
Theorem generateInstagramCaptions_stops_at_three
    (create : trace -> request -> error + response)
    (emails : list email) (date : string)
    (pre rest : list (list image)) (tr tr1 : trace) (allPosts : list post) :
  anthropic = Some create ->
  emails <> [] ->
  Planner.planBatches (MAX_BATCH_SIZE_MB * 1024) ESTIMATED_IMAGE_SIZE_KB
                      (flattenImages emails) = pre ++ rest ->
  processBatches 0 pre date [] tr = (tr1, inr allPosts) ->
  (3 <= List.length allPosts)%nat ->
  processBatches 0 (pre ++ rest) date [] tr = (tr1, inr allPosts)
  /\ generateInstagramCaptions (Some emails) date tr = (tr1, inr (firstn 5 allPosts)).
Proof.
  intros Hclient Hne Hplan Hpre Hthree.
  assert (Hloop : processBatches 0 (pre ++ rest) date [] tr = (tr1, inr allPosts)).
  { rewrite processBatches_app by (cbn; lia). rewrite Hpre.
    replace (3 <=? List.length allPosts)%nat with true
      by (symmetry; apply Nat.leb_le; exact Hthree).
    reflexivity. }
  split; [exact Hloop|].
  rewrite (generateInstagramCaptions_run create) by assumption.
  rewrite Hplan, Hloop. reflexivity.
Qed.

(** What makes [processBatch] fail: a generation call that fails, or a
    response that cannot be decoded. *)
Lemma processBatch_fatal
    (batch : list image) (date : string) (batchIndex : nat)
    (tr trc tr2 : trace) (contentBlocks : list contentBlock) :
  batchContent batch date tr = (trc, inr contentBlocks) ->
  (forall e,
      createWithRetry (mkRequest selectionSystem contentBlocks) trc = (tr2, inl e) ->
      processBatch batch date batchIndex tr = (tr2, inl e))
  /\ (forall resp,
        createWithRetry (mkRequest selectionSystem contentBlocks) trc = (tr2, inr resp) ->
        decodeSelections (jsonString (messageContent resp)) = None ->
        processBatch batch date batchIndex tr
        = (tr2, inl (Error "Claude response parsing failed"))).
Proof.
  intro Hcontent. split.
  - intros e Hcall. unfold processBatch, bind. rewrite Hcontent, Hcall. reflexivity.
  - intros resp Hcall Hdec. unfold processBatch, bind. rewrite Hcontent, Hcall.
    unfold batchCaptions, bind, attempt. rewrite Hdec. reflexivity.
Qed.

(** C7. When the batches before [batch] were gone through with fewer than
    three posts and [batch] fails, the run fails with the error of that
    batch, at the trace of that failure: no later batch is processed and the
    posts collected before are not returned. A batch fails when its
    generation call fails (a failure that is not retried, or the third
    overload), with the error of the call, and when its response cannot be
    decoded, with the error "Claude response parsing failed". *)
Theorem generateInstagramCaptions_fatal_batch
    (create : trace -> request -> error + response)
    (emails : list email) (date : string)
    (pre : list (list image)) (batch : list image) (rest : list (list image))
    (tr tr1 : trace) (allPosts : list post) :
  anthropic = Some create ->
  emails <> [] ->
  Planner.planBatches (MAX_BATCH_SIZE_MB * 1024) ESTIMATED_IMAGE_SIZE_KB
                      (flattenImages emails) = pre ++ batch :: rest ->
  processBatches 0 pre date [] tr = (tr1, inr allPosts) ->
  (List.length allPosts < 3)%nat ->
  (forall tr2 e,
      processBatch batch date (List.length pre) tr1 = (tr2, inl e) ->
      generateInstagramCaptions (Some emails) date tr = (tr2, inl e))
  /\ (forall trc contentBlocks tr2 e,
        batchContent batch date tr1 = (trc, inr contentBlocks) ->
        createWithRetry (mkRequest selectionSystem contentBlocks) trc = (tr2, inl e) ->
        generateInstagramCaptions (Some emails) date tr = (tr2, inl e))
  /\ (forall trc contentBlocks tr2 resp,
        batchContent batch date tr1 = (trc, inr contentBlocks) ->
        createWithRetry (mkRequest selectionSystem contentBlocks) trc = (tr2, inr resp) ->
        decodeSelections (jsonString (messageContent resp)) = None ->
        generateInstagramCaptions (Some emails) date tr
        = (tr2, inl (Error "Claude response parsing failed"))).
Proof.
  intros Hclient Hne Hplan Hpre Hlt.
  assert (Hrun : forall tr2 e,
             processBatch batch date (List.length pre) tr1 = (tr2, inl e) ->
             generateInstagramCaptions (Some emails) date tr = (tr2, inl e)).
  { intros tr2 e Hbatch.
    rewrite (generateInstagramCaptions_run create) by assumption.
    rewrite Hplan, processBatches_app by (cbn; lia). rewrite Hpre.
    replace (3 <=? List.length allPosts)%nat with false
      by (symmetry; apply Nat.leb_gt; exact Hlt).
    cbn [processBatches Nat.add]. unfold bind. rewrite Hbatch. reflexivity. }
  split; [exact Hrun|]. split.
  - intros trc contentBlocks tr2 e Hcontent Hcall. apply Hrun.
    apply (proj1 (processBatch_fatal batch date (List.length pre)
                    tr1 trc tr2 contentBlocks Hcontent)).
    exact Hcall.
  - intros trc contentBlocks tr2 resp Hcontent Hcall Hdec. apply Hrun.
    apply (proj2 (processBatch_fatal batch date (List.length pre)
                    tr1 trc tr2 contentBlocks Hcontent) resp); assumption.
Qed.

(* ------------------------------------------------------------------ *)
(** ** The guards of combined mode *)

(** C9. With a configured client, combined mode given more than five images
    fails with "Maximum 5 images can be selected" and leaves the trace as it
    was: no image was fetched and the generation service was not called. *)
Theorem generateCombinedPost_too_many_images
    (create : trace -> request -> error + response)
    (images : list image) (date : string) (tr : trace) :
  anthropic = Some create ->
  (5 < List.length images)%nat ->
  generateCombinedPost (Some images) date tr
  = (tr, inl (Error "Maximum 5 images can be selected")).
Proof.
  intros Hclient Hmany. unfold generateCombinedPost. rewrite Hclient.
  replace (List.length images =? 0)%nat with false
    by (symmetry; apply Nat.eqb_neq; lia).
  replace (5 <? List.length images)%nat with true
    by (symmetry; apply Nat.ltb_lt; exact Hmany).
  reflexivity.
Qed.

(** C10. With a configured client, combined mode given no list of images, or
    an empty one, fails with "No images provided" and leaves the trace as it
    was: no image was fetched and the generation service was not called. *)
Theorem generateCombinedPost_no_images
    (create : trace -> request -> error + response) (date : string) (tr : trace) :
  anthropic = Some create ->
  generateCombinedPost None date tr = (tr, inl (Error "No images provided"))
  /\ generateCombinedPost (Some []) date tr = (tr, inl (Error "No images provided")).
Proof.
  intro Hclient. unfold generateCombinedPost. rewrite Hclient.
  split; reflexivity.
Qed.

(** Without a client, both entry points fail at once, before anything else. *)
Lemma unconfigured_client
    (emails : option (list email)) (images : option (list image))
    (date : string) (tr : trace) :
  anthropic = None ->
  generateInstagramCaptions emails date tr
  = (tr, inl (Error "Claude client not configured"))
  /\ generateCombinedPost images date tr
     = (tr, inl (Error "Claude client not configured")).
Proof.
  intro Hnone. unfold generateInstagramCaptions, generateCombinedPost.
  rewrite Hnone. split; reflexivity.
Qed.

(* ------------------------------------------------------------------ *)
(** ** Strings: prefixes, suffixes and what is cut off *)

Lemma string_length_append (a b : string) :
  String.length (a ++ b)%string = (String.length a + String.length b)%nat.
Proof.
  induction a as [|c a IH]; simpl; [reflexivity | now rewrite IH].
Qed.

Lemma string_append_nil_r (a : string) : (a ++ EmptyString)%string = a.
Proof.
  induction a as [|c a IH]; simpl; [reflexivity | now rewrite IH].
Qed.

Lemma string_append_assoc (a b c : string) :
  ((a ++ b) ++ c)%string = (a ++ (b ++ c))%string.
Proof.
  induction a as [|x a IH]; simpl; [reflexivity | now rewrite IH].
Qed.

Lemma substring_all (s : string) : substring 0 (String.length s) s = s.
Proof.
  induction s as [|c s IH]; simpl; [reflexivity | now rewrite IH].
Qed.

Lemma substring_0_append (a b : string) :
  substring 0 (String.length a) (a ++ b)%string = a.
Proof.
  induction a as [|c a IH]; simpl.
  - destruct b; reflexivity.
  - now rewrite IH.
Qed.

Lemma substring_skip_append (a b : string) (m : nat) :
  substring (String.length a) m (a ++ b)%string = substring 0 m b.
Proof.
  induction a as [|c a IH]; simpl; [reflexivity | exact IH].
Qed.

Lemma prefix_append (p s : string) : prefix p (p ++ s)%string = true.
Proof.
  induction p as [|c p IH]; simpl.
  - destruct s; reflexivity.
  - rewrite IH. destruct (ascii_dec c c); [reflexivity | congruence].
Qed.

(** What [dropChars] leaves of [p ++ s] after [p]. *)
Lemma dropChars_append (p s : string) :
  dropChars (String.length p) (p ++ s)%string = s.
Proof.
  unfold dropChars. rewrite string_length_append, substring_skip_append.
  replace (String.length p + String.length s - String.length p)%nat
    with (String.length s) by lia.
  apply substring_all.
Qed.

(** A string with a prefix is that prefix followed by the rest. *)
Lemma prefix_split (p s : string) :
  prefix p s = true -> s = (p ++ dropChars (String.length p) s)%string.
Proof.
  revert s. induction p as [|c p IH]; intros s H.
  - cbn. unfold dropChars. rewrite Nat.sub_0_r. now rewrite substring_all.
  - destruct s as [|d s]; [discriminate|].
    simpl in H. destruct (ascii_dec c d) as [->|]; [|discriminate].
    cbn [append String.length]. f_equal.
    rewrite (IH s H) at 1. f_equal.
Qed.

Lemma dropLast_append (s q : string) :
  dropLast (String.length q) (s ++ q)%string = s.
Proof.
  unfold dropLast. rewrite string_length_append.
  replace (String.length s + String.length q - String.length q)%nat
    with (String.length s) by lia.
  apply substring_0_append.
Qed.

Lemma endsWith_append (s q : string) : endsWith q (s ++ q)%string = true.
Proof.
  unfold endsWith. rewrite string_length_append.
  replace (String.length q <=? String.length s + String.length q)%nat with true
    by (symmetry; apply Nat.leb_le; lia).
  replace (String.length s + String.length q - String.length q)%nat
    with (String.length s) by lia.
  rewrite dropChars_append. apply String.eqb_refl.
Qed.

(* ------------------------------------------------------------------ *)
(** ** Data URLs: what the webhook writes, the pipeline reads back *)

Lemma splitAtSemicolon_append (a b : string) :
  hasChar (Ascii.eqb ";"%char) a = false ->
  splitAtSemicolon (a ++ String ";"%char b)%string = Some (a, b).
Proof.
  induction a as [|c a IH]; intro H.
  - reflexivity.
  - cbn [hasChar] in H. apply orb_false_iff in H as [Hc Ha].
    cbn [append splitAtSemicolon]. rewrite Ascii.eqb_sym, Hc, (IH Ha). reflexivity.
Qed.

Lemma splitAtSemicolon_inv (s a b : string) :
  splitAtSemicolon s = Some (a, b) ->
  s = (a ++ String ";"%char b)%string /\ hasChar (Ascii.eqb ";"%char) a = false.
Proof.
  revert a. induction s as [|c s IH]; intros a H; [discriminate|].
  cbn [splitAtSemicolon] in H. destruct (Ascii.eqb c ";"%char) eqn:Hc.
  - apply Ascii.eqb_eq in Hc. inversion H; subst. split; reflexivity.
  - destruct (splitAtSemicolon s) as [[before after]|]; [|discriminate].
    inversion H; subst. destruct (IH before eq_refl) as [Hs Hno].
    split.
    + cbn [append]. now rewrite <- Hs.
    + cbn [hasChar]. rewrite Ascii.eqb_sym, Hc. exact Hno.
Qed.

(** X1. The locator the webhook writes for an attachment it could not upload
    is read back by the pipeline as the same media type and payload, without
    a fetch, provided the media type is not empty and has no semicolon and
    the payload is not empty and has no line break. Conversely every locator
    the pipeline reads as a data URL has that form. *)
Theorem data_url_round_trip (contentType base64 : string) (tr : trace) :
  (contentType <> EmptyString ->
   hasChar (Ascii.eqb ";"%char) contentType = false ->
   base64 <> EmptyString ->
   noLineTerminator base64 = true ->
   dataUrlMatch (fallbackLocator contentType base64) = Some (contentType, base64)
   /\ imageUrlToBase64 (fallbackLocator contentType base64) tr
      = (tr, inr (mkBase64 contentType base64)))
  /\ (forall imageUrl,
        dataUrlMatch imageUrl = Some (contentType, base64) ->
        imageUrl = fallbackLocator contentType base64).
Proof.
  split.
  - intros Htype Hsemi Hdata Hline.
    assert (Hmatch : dataUrlMatch (fallbackLocator contentType base64)
                     = Some (contentType, base64)).
    { unfold dataUrlMatch, fallbackLocator, template. cbn [String.concat].
      change ("data:" ++ EmptyString ++ contentType ++ EmptyString
                ++ ";base64," ++ EmptyString ++ base64)%string
        with ("data:" ++ (contentType ++ String ";"%char ("base64," ++ base64)))%string.
      rewrite prefix_append.
      rewrite (dropChars_append "data:"), (splitAtSemicolon_append _ _ Hsemi).
      destruct contentType as [|c s]; [congruence|].
      rewrite prefix_append.
      rewrite (dropChars_append "base64,").
      destruct base64 as [|d payload]; [congruence|].
      rewrite Hline. reflexivity. }
    split; [exact Hmatch|].
    unfold imageUrlToBase64. rewrite Hmatch. reflexivity.
  - intros imageUrl H. unfold dataUrlMatch in H.
    destruct (prefix "data:" imageUrl) eqn:Hdata; [|discriminate].
    apply prefix_split in Hdata. cbn [String.length] in Hdata.
    destruct (splitAtSemicolon (dropChars 5 imageUrl)) as [[type after]|] eqn:Hsplit;
      [|discriminate].
    destruct type as [|c s]; [discriminate|].
    destruct (prefix "base64," after) eqn:Hb64; [|discriminate].
    apply prefix_split in Hb64. cbn [String.length] in Hb64.
    destruct (dropChars 7 after) as [|d payload] eqn:Hdrop; [discriminate|].
    destruct (noLineTerminator (String d payload)); [|discriminate].
    inversion H; subst contentType base64.
    apply splitAtSemicolon_inv in Hsplit as [Hsplit _].
    rewrite Hdata, Hsplit, Hb64.
    unfold fallbackLocator, template. cbn [String.concat]. reflexivity.
Qed.

(* ------------------------------------------------------------------ *)
(** ** The text handed to JSON.parse *)

Lemma trimEnd_fence (a : string) : trimEnd (a ++ fence)%string = (a ++ fence)%string.
Proof.
  induction a as [|c a IH].
  - reflexivity.
  - cbn [append trimEnd]. rewrite IH.
    destruct (a ++ fence)%string eqn:E; [|reflexivity].
    destruct a; discriminate E.
Qed.

(** A text between an opening fence (with its optional tag and line break)
    and a closing fence on a line of its own. *)
Lemma jsonString_between (opening body : string) :
  prefix fence opening = true ->
  trimStart (opening ++ body ++ nl ++ fence)%string
  = (opening ++ body ++ nl ++ fence)%string ->
  stripOpeningFence (opening ++ body ++ nl ++ fence)%string
  = (body ++ nl ++ fence)%string ->
  jsonString (opening ++ body ++ nl ++ fence)%string = body.
Proof.
  intros Hfence Hstart Hopen. unfold jsonString, trim.
  rewrite Hstart.
  replace (opening ++ body ++ nl ++ fence)%string
    with ((opening ++ body ++ nl) ++ fence)%string
    by (now rewrite !string_append_assoc).
  rewrite trimEnd_fence.
  replace ((opening ++ body ++ nl) ++ fence)%string
    with (opening ++ body ++ nl ++ fence)%string
    by (now rewrite !string_append_assoc).
  assert (Hp : prefix fence (opening ++ body ++ nl ++ fence)%string = true).
  { rewrite (prefix_split _ _ Hfence), string_append_assoc. apply prefix_append. }
  rewrite Hp, Hopen. unfold stripClosingFence.
  replace (body ++ nl ++ fence)%string with ((body ++ nl) ++ fence)%string
    by (now rewrite string_append_assoc).
  rewrite endsWith_append.
  replace (dropLast 3 ((body ++ nl) ++ fence)%string) with (body ++ nl)%string
    by (symmetry; apply (dropLast_append (body ++ nl) fence)).
  rewrite endsWith_append.
  apply (dropLast_append body nl).
Qed.

(** X2. Whatever the body is, a body between an opening fence (bare, or
    tagged json or JSON) followed by a line break and a line break followed
    by a closing fence is handed to [JSON.parse] as the body alone; and a text
    that is trimmed and does not start with a fence is handed over as it is.
    So a fenced answer and the bare answer decode alike. *)
Theorem jsonString_strips_code_fence (body : string) :
  jsonString (template [fence; "json"; nl; body; nl; fence]) = body
  /\ jsonString (template [fence; "JSON"; nl; body; nl; fence]) = body
  /\ jsonString (template [fence; nl; body; nl; fence]) = body
  /\ (trim body = body -> prefix fence body = false -> jsonString body = body).
Proof.
  unfold template. cbn [String.concat].
  repeat split.
  - apply (jsonString_between ("```json" ++ nl)%string body); reflexivity || idtac.
    unfold stripOpeningFence.
    change ((("```json" ++ nl) ++ body ++ nl ++ fence)%string)
      with (fence ++ ("json" ++ (nl ++ (body ++ nl ++ fence))))%string.
    rewrite prefix_append.
    rewrite (dropChars_append "```"), prefix_append. cbn [orb].
    rewrite (dropChars_append "json").
    rewrite prefix_append.
    apply (dropChars_append nl).
  - apply (jsonString_between ("```JSON" ++ nl)%string body); reflexivity || idtac.
    unfold stripOpeningFence.
    change ((("```JSON" ++ nl) ++ body ++ nl ++ fence)%string)
      with (fence ++ ("JSON" ++ (nl ++ (body ++ nl ++ fence))))%string.
    rewrite prefix_append.
    rewrite (dropChars_append "```"), prefix_append. rewrite orb_true_r.
    rewrite (dropChars_append "JSON").
    rewrite prefix_append.
    apply (dropChars_append nl).
  - apply (jsonString_between ("```" ++ nl)%string body); reflexivity || idtac.
    unfold stripOpeningFence.
    change ((("```" ++ nl) ++ body ++ nl ++ fence)%string)
      with (fence ++ (nl ++ (body ++ nl ++ fence)))%string.
    rewrite prefix_append.
    rewrite (dropChars_append "```").
    change (prefix "json" (nl ++ body ++ nl ++ fence)%string) with false.
    change (prefix "JSON" (nl ++ body ++ nl ++ fence)%string) with false.
    cbn [orb]. rewrite prefix_append.
    apply (dropChars_append nl).
  - intros Htrim Hfence. unfold jsonString. rewrite Htrim, Hfence. reflexivity.
Qed.

(* ------------------------------------------------------------------ *)
(** ** escapeHtml *)

Lemma hasChar_append (p : ascii -> bool) (a b : string) :
  hasChar p (a ++ b)%string = hasChar p a || hasChar p b.
Proof.
  induction a as [|c a IH]; cbn [append hasChar]; [reflexivity|].
  now rewrite IH, orb_assoc.
Qed.

Lemma escapeChar_safe (c : ascii) : hasChar isMarkup (escapeChar c) = false.
Proof.
  unfold escapeChar.
  destruct (Ascii.eqb c "&"%char); [reflexivity|].
  destruct (Ascii.eqb c "<"%char) eqn:Hlt; [reflexivity|].
  destruct (Ascii.eqb c ">"%char) eqn:Hgt; [reflexivity|].
  destruct (Ascii.eqb c (ascii_of_nat 34)) eqn:Hdq; [reflexivity|].
  destruct (Ascii.eqb c "'"%char) eqn:Hq; [reflexivity|].
  cbn [hasChar]. unfold isMarkup. rewrite Hlt, Hgt, Hdq, Hq. reflexivity.
Qed.

(** The first two characters of what [escapeChar] writes tell the character
    it was written for. *)
Lemma escapeChar_inj (c d : ascii) (s t : string) :
  (escapeChar c ++ s)%string = (escapeChar d ++ t)%string -> c = d /\ s = t.
Proof.
  unfold escapeChar.
  destruct (Ascii.eqb c "&"%char) eqn:C1;
    [apply Ascii.eqb_eq in C1|
     destruct (Ascii.eqb c "<"%char) eqn:C2;
       [apply Ascii.eqb_eq in C2|
        destruct (Ascii.eqb c ">"%char) eqn:C3;
          [apply Ascii.eqb_eq in C3|
           destruct (Ascii.eqb c (ascii_of_nat 34)) eqn:C4;
             [apply Ascii.eqb_eq in C4|
              destruct (Ascii.eqb c "'"%char) eqn:C5;
                [apply Ascii.eqb_eq in C5|]]]]];
  (destruct (Ascii.eqb d "&"%char) eqn:D1;
    [apply Ascii.eqb_eq in D1|
     destruct (Ascii.eqb d "<"%char) eqn:D2;
       [apply Ascii.eqb_eq in D2|
        destruct (Ascii.eqb d ">"%char) eqn:D3;
          [apply Ascii.eqb_eq in D3|
           destruct (Ascii.eqb d (ascii_of_nat 34)) eqn:D4;
             [apply Ascii.eqb_eq in D4|
              destruct (Ascii.eqb d "'"%char) eqn:D5;
                [apply Ascii.eqb_eq in D5|]]]]]);
  cbn [append]; intro H; try discriminate H;
  inversion H; subst;
  solve [ split; reflexivity
        | exfalso; rewrite ?Ascii.eqb_refl in *; discriminate ].
Qed.

(** X3. What [escapeHtml] writes holds none of the characters that open or
    close a tag or an attribute value; escaping goes piece by piece; and no
    two texts are escaped to the same text. *)
Theorem escapeHtml_safe_and_faithful (text other : string) :
  hasChar isMarkup (escapeHtml text) = false
  /\ escapeHtml (text ++ other)%string = (escapeHtml text ++ escapeHtml other)%string
  /\ (escapeHtml text = escapeHtml other -> text = other).
Proof.
  repeat split.
  - induction text as [|c text IH]; [reflexivity|].
    cbn [escapeHtml]. now rewrite hasChar_append, escapeChar_safe, IH.
  - induction text as [|c text IH]; [reflexivity|].
    cbn [append escapeHtml]. now rewrite IH, string_append_assoc.
  - revert other. induction text as [|c text IH]; intros [|d other] H.
    + reflexivity.
    + cbn [escapeHtml] in H. exfalso.
      unfold escapeChar in H.
      repeat match type of H with
             | context [if ?b then _ else _] => destruct b
             end; discriminate H.
    + cbn [escapeHtml] in H. exfalso.
      unfold escapeChar in H.
      repeat match type of H with
             | context [if ?b then _ else _] => destruct b
             end; discriminate H.
    + cbn [escapeHtml] in H. apply escapeChar_inj in H as [-> H].
      now rewrite (IH other H).
Qed.

(* ------------------------------------------------------------------ *)
(** ** verifyCronSecret *)


(* ------------------------------------------------------------------ *)
(** ** What a run does to the outside: fetches and generation calls *)

Lemma creates_app (a b : trace) : creates (a ++ b) = (creates a + creates b)%nat.
Proof.
  unfold creates. now rewrite filter_app, length_app.
Qed.

Lemma imageUrlToBase64_trace (imageUrl : string) (tr : trace) :
  fst (imageUrlToBase64 imageUrl tr)
  = tr ++ (if needsFetch imageUrl then [EvFetch imageUrl] else []).
Proof.
  unfold imageUrlToBase64, needsFetch.
  destruct (dataUrlMatch imageUrl) as [[type data]|].
  - cbn. now rewrite app_nil_r.
  - destruct (prefix "http://" imageUrl || prefix "https://" imageUrl).
    + reflexivity.
    + cbn. now rewrite app_nil_r.
Qed.

Lemma fetches_cons (img : image) (rest : list image) :
  fetches (img :: rest)
  = (if needsFetch (imageUrl img) then [EvFetch (imageUrl img)] else [])
      ++ fetches rest.
Proof.
  unfold fetches. cbn [map filter].
  destruct (needsFetch (imageUrl img)); reflexivity.
Qed.

Lemma addSelectedImages_fetches (images : list image) :
  forall (index : nat) (blocks : list contentBlock) (tr : trace),
  fst (addSelectedImages index images blocks tr) = tr ++ fetches images.
Proof.
  induction images as [|img rest IH]; intros index blocks tr.
  - cbn. now rewrite app_nil_r.
  - rewrite addSelectedImages_step.
    pose proof (imageUrlToBase64_trace (imageUrl img) tr) as Htr.
    destruct (imageUrlToBase64 (imageUrl img) tr) as [tr1 r]. cbn [fst] in Htr.
    rewrite IH, Htr, fetches_cons, app_assoc. reflexivity.
Qed.

Lemma addBatchImages_fetches (batch : list image) :
  forall (imageIndex : nat) (blocks : list contentBlock) (tr : trace),
  fst (addBatchImages imageIndex batch blocks tr) = tr ++ fetches batch.
Proof.
  induction batch as [|img rest IH]; intros imageIndex blocks tr.
  - cbn. now rewrite app_nil_r.
  - rewrite addBatchImages_step.
    pose proof (imageUrlToBase64_trace (imageUrl img) tr) as Htr.
    destruct (imageUrlToBase64 (imageUrl img) tr) as [tr1 r]. cbn [fst] in Htr.
    rewrite IH, Htr, fetches_cons, app_assoc. reflexivity.
Qed.

(** X5. Building the content of a request, in either mode, fetches each image
    whose locator is an http(s) URL once, in the order of the images, and
    does nothing else to the outside: no fetch for a data URL or for a
    locator that is refused, and no call of the generation service. *)
Theorem content_fetches_each_http_image_once
    (images : list image) (date : string) (tr : trace) :
  (exists contentBlocks,
      batchContent images date tr = (tr ++ fetches images, inr contentBlocks))
  /\ (exists contentBlocks,
        combinedContent images date tr = (tr ++ fetches images, inr contentBlocks))
  /\ creates (fetches images) = 0%nat
  /\ (List.length (fetches images) <= List.length images)%nat.
Proof.
  split; [|split; [|split]].
  - destruct (batchContent_total images date tr) as [tr' [contentBlocks E]].
    exists contentBlocks. rewrite E. f_equal.
    unfold batchContent, bind in E.
    pose proof (addBatchImages_fetches images 0
                  [TextBlock (selectionIntro date (List.length images))] tr) as Hf.
    destruct (addBatchImages _ _ _ _) as [tr1 [e|blocks]]; cbn [fst] in Hf;
      inversion E; subst; reflexivity.
  - destruct (combinedContent_total images date tr) as [tr' [contentBlocks E]].
    exists contentBlocks. rewrite E. f_equal.
    unfold combinedContent, bind in E.
    pose proof (addSelectedImages_fetches images 0
                  [TextBlock (combinedIntro date (List.length images))] tr) as Hf.
    destruct (addSelectedImages _ _ _ _) as [tr1 [e|blocks]]; cbn [fst] in Hf;
      inversion E; subst; reflexivity.
  - unfold creates, fetches.
    induction (filter needsFetch (map imageUrl images)) as [|u us IH];
      [reflexivity | exact IH].
  - unfold fetches. rewrite length_map.
    etransitivity; [apply filter_length_le|]. now rewrite length_map.
Qed.

(** Counting the generation calls of a trace that was extended. *)
Ltac count :=
  cbn [fst] in *; rewrite ?creates_app; unfold creates in *;
  cbn [filter isCreate List.length] in *; try lia.

Lemma retryLoop_creates (remaining : nat) :
  forall (i : nat) (lastError : option error) (req : request) (tr : trace),
  (creates (fst (retryLoop remaining i lastError req tr))
   <= creates tr + remaining)%nat.
Proof.
  induction remaining as [|remaining IH]; intros i lastError req tr.
  - unfold retryLoop, throw. count.
  - cbn [retryLoop]. unfold bind, attempt, messagesCreate, sleep, emit, ret, throw.
    destruct anthropic as [create|].
    + destruct (create tr req) as [e|r].
      * destruct (isOverloaded e && (i <? retries - 1)%nat).
        -- etransitivity; [apply IH|]. count.
        -- count.
      * count.
    + cbn [isOverloaded Error status andb]. count.
Qed.

Lemma mapM_selectionToCaption_creates (batch : list image)
    (selections : list (option selection)) :
  forall tr : trace,
  creates (fst (mapM (selectionToCaption batch) selections tr)) = creates tr.
Proof.
  induction selections as [|entry rest IH]; intro tr; [reflexivity|].
  cbn [mapM]. unfold bind. unfold selectionToCaption at 1.
  destruct entry as [sel|]; [|reflexivity].
  destruct (batchAt batch (image_index sel)) as [img|].
  - specialize (IH (tr ++ [EvNow])).
    destruct (mapM (selectionToCaption batch) rest (tr ++ [EvNow])) as [tr' [e|bs]];
      unfold ret; cbn [fst] in *; rewrite IH; count.
  - unfold ret at 1. specialize (IH tr).
    destruct (mapM (selectionToCaption batch) rest tr) as [tr' [e|bs]];
      unfold ret; cbn [fst] in *; exact IH.
Qed.

Lemma batchCaptions_creates (batch : list image) (resp : response) (tr : trace) :
  creates (fst (batchCaptions batch resp tr)) = creates tr.
Proof.
  unfold batchCaptions, bind, attempt.
  destruct (decodeSelections (jsonString (messageContent resp))) as [[|selections]|];
    try reflexivity.
  destruct (List.length selections =? 0)%nat; [reflexivity|].
  pose proof (mapM_selectionToCaption_creates batch selections tr) as H.
  destruct (mapM (selectionToCaption batch) selections tr) as [tr' [e|captions]];
    exact H.
Qed.

Lemma processBatch_creates
    (batch : list image) (date : string) (batchIndex : nat) (tr : trace) :
  (creates (fst (processBatch batch date batchIndex tr)) <= creates tr + 3)%nat.
Proof.
  unfold processBatch. unfold bind at 1.
  destruct (batchContent_total batch date tr) as [trc [contentBlocks E]].
  pose proof (addBatchImages_fetches batch 0
                [TextBlock (selectionIntro date (List.length batch))] tr) as Hf.
  assert (Hc : creates trc = creates tr).
  { unfold batchContent, bind in E.
    destruct (addBatchImages _ _ _ _) as [tr1 [e|blocks]]; cbn [fst] in Hf;
      inversion E; subst.
    rewrite creates_app.
    assert (H0 : creates (fetches batch) = 0%nat).
    { unfold creates, fetches.
      induction (filter needsFetch (map imageUrl batch)) as [|u us IH];
        [reflexivity | exact IH]. }
    lia. }
  rewrite E. unfold bind.
  pose proof (retryLoop_creates retries 0 None
                (mkRequest selectionSystem contentBlocks) trc) as Hr.
  fold (createWithRetry (mkRequest selectionSystem contentBlocks)) in Hr.
  destruct (createWithRetry _ trc) as [tr2 [e|resp]]; cbn [fst] in *.
  - unfold retries in Hr. lia.
  - rewrite batchCaptions_creates. unfold retries in Hr. lia.
Qed.

Lemma processBatches_creates (date : string) (batches : list (list image)) :
  forall (batchIndex : nat) (allPosts : list post) (tr : trace),
  (creates (fst (processBatches batchIndex batches date allPosts tr))
   <= creates tr + 3 * List.length batches)%nat.
Proof.
  induction batches as [|batch rest IH]; intros batchIndex allPosts tr.
  - unfold processBatches, ret. count.
  - cbn [processBatches]. unfold bind.
    pose proof (processBatch_creates batch date batchIndex tr) as Hb.
    destruct (processBatch batch date batchIndex tr) as [tr1 [e|posts]];
      cbn [fst] in *.
    + cbn [List.length]. lia.
    + destruct (3 <=? List.length (allPosts ++ posts))%nat.
      * cbn [ret fst List.length]. lia.
      * etransitivity; [apply IH|]. cbn [List.length]. lia.
Qed.

(** X6. A run of auto-selection mode calls the generation service at most
    three times for each planned batch, and a run of combined mode at most
    three times, whatever the service answers. *)
Theorem generation_calls_are_bounded
    (emails : option (list email)) (images : option (list image))
    (date : string) (tr : trace) :
  (creates (fst (generateInstagramCaptions emails date tr))
   <= creates tr
      + 3 * List.length
              (Planner.planBatches (MAX_BATCH_SIZE_MB * 1024) ESTIMATED_IMAGE_SIZE_KB
                 (flattenImages (match emails with
                                 | Some es => es
                                 | None => []
                                 end))))%nat
  /\ (creates (fst (generateCombinedPost images date tr)) <= creates tr + 3)%nat.
Proof.
  split.
  - unfold generateInstagramCaptions.
    destruct anthropic as [create|]; [|unfold throw; count].
    destruct emails as [es|]; [|unfold ret; count].
    destruct (List.length es =? 0)%nat; [unfold ret; count|].
    unfold bind.
    pose proof (processBatches_creates date
                  (Planner.planBatches (MAX_BATCH_SIZE_MB * 1024)
                     ESTIMATED_IMAGE_SIZE_KB (flattenImages es)) 0 [] tr) as H.
    destruct (processBatches _ _ _ _ _) as [tr1 [e|allPosts]]; exact H.
  - unfold generateCombinedPost.
    destruct anthropic as [create|] eqn:Hclient; [|unfold throw; count].
    destruct images as [imgs|]; [|unfold throw; count].
    destruct (List.length imgs =? 0)%nat; [unfold throw; count|].
    destruct (5 <? List.length imgs)%nat; [unfold throw; count|].
    unfold bind at 1.
    destruct (combinedContent_total imgs date tr) as [trc [contentBlocks E]].
    pose proof (addSelectedImages_fetches imgs 0
                  [TextBlock (combinedIntro date (List.length imgs))] tr) as Hf.
    assert (Hc : creates trc = creates tr).
    { unfold combinedContent, bind in E.
      destruct (addSelectedImages _ _ _ _) as [tr1 [e|blocks]]; cbn [fst] in Hf;
        inversion E; subst.
      rewrite creates_app.
      assert (H0 : creates (fetches imgs) = 0%nat).
      { unfold creates, fetches.
        induction (filter needsFetch (map imageUrl imgs)) as [|u us IH];
          [reflexivity | exact IH]. }
      lia. }
    rewrite E. unfold bind.
    pose proof (retryLoop_creates retries 0 None
                  (mkRequest combinedSystem contentBlocks) trc) as Hr.
    fold (createWithRetry (mkRequest combinedSystem contentBlocks)) in Hr.
    destruct (createWithRetry _ trc) as [tr2 [e|resp]]; cbn [fst] in *.
    + unfold retries in Hr. lia.
    + assert (Hp : creates (fst (combinedPost imgs resp tr2)) = creates tr2).
      { unfold combinedPost, bind, attempt.
        destruct (decodeCaption (jsonString (messageContent resp)))
          as [[[|c s]|]|]; try reflexivity.
        destruct imgs as [|first rest]; [reflexivity|].
        unfold ret. count. }
      rewrite Hp. unfold retries in Hr. lia.
Qed.

(* ------------------------------------------------------------------ *)
(** ** Where the posts come from *)

Lemma selectionToCaption_fromBatch
    (batch : list image) (entry : option selection) (tr tr' : trace) (p : post) :
  selectionToCaption batch entry tr = (tr', inr (Some p)) ->
  origin batch p.
Proof.
  unfold selectionToCaption.
  destruct entry as [sel|]; [|discriminate].
  pose proof (batchAt_resolves batch sel) as Hidx.
  destruct (batchAt batch (image_index sel)) as [[img|]|]; [| |discriminate].
  - destruct Hidx as [_ [z [_ [_ Hnth]]]]. intro H. inversion H; subst.
    left. exists img. split; [eapply nth_error_In; exact Hnth|].
    unfold fromImage. cbn. repeat split.
    destruct (imageUrl img); reflexivity.
  - intro H. inversion H; subst. right. repeat split.
Qed.

Lemma mapM_fromBatch (batch : list image) (selections : list (option selection)) :
  forall (tr tr' : trace) (captions : list (option post)),
  mapM (selectionToCaption batch) selections tr = (tr', inr captions) ->
  Forall (origin batch) (filterBoolean captions).
Proof.
  induction selections as [|sel rest IH]; intros tr tr' captions H.
  - inversion H. constructor.
  - cbn [mapM] in H. unfold bind in H.
    destruct (selectionToCaption batch sel tr) as [tr1 [e|b]] eqn:Hsel;
      [discriminate|].
    destruct (mapM (selectionToCaption batch) rest tr1) as [tr2 [e|bs]] eqn:Hrest;
      [discriminate|].
    inversion H; subst. specialize (IH _ _ _ Hrest).
    destruct b as [p|]; cbn [filterBoolean]; [|exact IH].
    constructor; [|exact IH].
    eapply selectionToCaption_fromBatch. exact Hsel.
Qed.

Lemma processBatch_fromBatch
    (batch : list image) (date : string) (batchIndex : nat)
    (tr tr' : trace) (posts : list post) :
  processBatch batch date batchIndex tr = (tr', inr posts) ->
  Forall (origin batch) posts.
Proof.
  unfold processBatch, bind.
  destruct (batchContent batch date tr) as [trc [e|contentBlocks]]; [discriminate|].
  destruct (createWithRetry _ trc) as [tr2 [e|resp]]; [discriminate|].
  unfold batchCaptions, bind, attempt.
  destruct (decodeSelections (jsonString (messageContent resp)))
    as [[|selections]|]; unfold throw, ret.
  - intro H. inversion H. constructor.
  - destruct (List.length selections =? 0)%nat.
    + intro H. inversion H. constructor.
    + destruct (mapM (selectionToCaption batch) selections tr2)
        as [tr3 [e|captions]] eqn:Hmap; [discriminate|].
      intro H. inversion H; subst. eapply mapM_fromBatch. exact Hmap.
  - discriminate.
Qed.

Lemma origin_incl (batch all : list image) (p : post) :
  incl batch all -> origin batch p -> origin all p.
Proof.
  intros Hincl [[img [Hin Hp]] | Hp]; [left | right; exact Hp].
  exists img. split; [apply Hincl; exact Hin | exact Hp].
Qed.

Lemma processBatches_fromBatches
    (date : string) (all : list image) (batches : list (list image)) :
  (forall batch, In batch batches -> incl batch all) ->
  forall (batchIndex : nat) (allPosts : list post) (tr tr' : trace)
         (posts : list post),
  Forall (origin all) allPosts ->
  processBatches batchIndex batches date allPosts tr = (tr', inr posts) ->
  Forall (origin all) posts.
Proof.
  induction batches as [|batch rest IH]; intros Hincl batchIndex allPosts tr tr' posts Hacc H.
  - inversion H; subst. exact Hacc.
  - cbn [processBatches] in H. unfold bind in H.
    destruct (processBatch batch date batchIndex tr) as [tr1 [e|captions]] eqn:Hb;
      [discriminate|].
    assert (Hacc' : Forall (origin all) (allPosts ++ captions)).
    { apply Forall_app. split; [exact Hacc|].
      eapply Forall_impl; [|eapply processBatch_fromBatch; exact Hb].
      intros p Hp. apply (origin_incl batch); [|exact Hp].
      apply (Hincl batch). now left. }
    destruct (3 <=? List.length (allPosts ++ captions))%nat.
    + inversion H; subst. exact Hacc'.
    + eapply IH; [|exact Hacc'|exact H].
      intros b Hb'. apply Hincl. now right.
Qed.

Lemma Forall_firstn_keeps {A : Type} (P : A -> Prop) (n : nat) (l : list A) :
  Forall P l -> Forall P (firstn n l).
Proof.
  intro H. rewrite <- (firstn_skipn n l) in H.
  apply Forall_app in H. tauto.
Qed.

Lemma planBatches_concat {A : Type} (maxBatchSizeKB estimateKB : Z) (l : list A) :
  List.concat (Planner.planBatches maxBatchSizeKB estimateKB l) = l.
Proof.
  unfold Planner.planBatches. rewrite concat_finish, seen_fold. reflexivity.
Qed.

Lemma flattenImages_In (emails : list email) (img : image) :
  In img (flattenImages emails) ->
  exists e, In e emails /\ In (imageUrl img) (imageUrls e) /\ emailId img = id e.
Proof.
  unfold flattenImages. rewrite in_flat_map. intros [e [He Himg]].
  apply in_map_iff in Himg as [url [Heq Hurl]]. subst img.
  exists e. cbn. auto.
Qed.

(** Every post of a run was made from one of the flattened images, or from
    a property of a batch that is no image. *)
Lemma generateInstagramCaptions_fromImages
    (emails : option (list email)) (date : string) (tr tr' : trace)
    (posts : list post) :
  generateInstagramCaptions emails date tr = (tr', inr posts) ->
  Forall (origin (flattenImages (match emails with Some es => es | None => [] end)))
         posts.
Proof.
  unfold generateInstagramCaptions.
  destruct anthropic as [create|]; [|discriminate].
  destruct emails as [es|]; [|intro H; inversion H; constructor].
  destruct (List.length es =? 0)%nat; [intro H; inversion H; constructor|].
  unfold bind.
  destruct (processBatches _ _ _ _ _) as [tr1 [e|allPosts]] eqn:Hloop;
    [discriminate|].
  unfold ret. intro H.
  assert (Hposts : posts = firstn 5 allPosts) by congruence. subst posts.
  apply Forall_firstn_keeps.
  eapply (processBatches_fromBatches date (flattenImages es));
    [|constructor|exact Hloop].
  intros batch Hb x Hx.
  rewrite <- (planBatches_concat (MAX_BATCH_SIZE_MB * 1024)
                ESTIMATED_IMAGE_SIZE_KB (flattenImages es)).
  apply in_concat. exists batch. split; assumption.
Qed.

(** X7. Every post a run of auto-selection mode returns either points to an
    image of the emails it was given (its email id and its image URL are
    those of one image of one of the emails, and its list of URLs is that
    URL alone, or no list when the URL is empty), or points to no image at
    all: it has no email id, no URL and no list. The second kind comes from
    an entry whose [image_index] names a property of the batch that is no
    image, such as its length. *)
Theorem generateInstagramCaptions_posts_come_from_emails
    (emails : option (list email)) (date : string) (tr tr' : trace)
    (posts : list post) :
  generateInstagramCaptions emails date tr = (tr', inr posts) ->
  Forall (fun p =>
            (exists e url,
                In e (match emails with Some es => es | None => [] end)
                /\ In url (imageUrls e)
                /\ email_id p = Some (id e)
                /\ source_image_url p = Some url
                /\ source_image_urls p = (if truthy url then Some [url] else None))
            \/ (email_id p = None
                /\ source_image_url p = None
                /\ source_image_urls p = None))
         posts.
Proof.
  intro Hrun. apply generateInstagramCaptions_fromImages in Hrun.
  eapply Forall_impl; [|exact Hrun].
  intros p [[img [Hin [Hid [Hurl Hurls]]]] | Hp]; [left | right; exact Hp].
  apply flattenImages_In in Hin as [e [He [Hu Hid']]].
  exists e, (imageUrl img). repeat split; try assumption. congruence.
Qed.

(** X8. A run of auto-selection mode on emails without any image, or without
    emails, returns no post and does nothing to the outside. *)
Theorem generateInstagramCaptions_without_images
    (create : trace -> request -> error + response)
    (emails : option (list email)) (date : string) (tr : trace) :
  anthropic = Some create ->
  flattenImages (match emails with Some es => es | None => [] end) = [] ->
  generateInstagramCaptions emails date tr = (tr, inr []).
Proof.
  intros Hclient Hnone. unfold generateInstagramCaptions. rewrite Hclient.
  destruct emails as [es|]; [|reflexivity].
  destruct (List.length es =? 0)%nat; [reflexivity|].
  rewrite Hnone. reflexivity.
Qed.

(** X9. The post of a run of combined mode has a caption that is not empty,
    the email id and the URL of the first image, and as its list of URLs the
    URLs of the images that are not empty, in their order (no list when all
    are empty); the run was given one to five images. *)
Theorem generateCombinedPost_post
    (images : option (list image)) (date : string) (tr tr' : trace) (p : post) :
  generateCombinedPost images date tr = (tr', inr p) ->
  exists first rest,
    images = Some (first :: rest)
    /\ (List.length rest < 5)%nat
    /\ caption_text p <> EmptyString
    /\ email_id p = Some (emailId first)
    /\ source_image_url p = Some (imageUrl first)
    /\ source_image_urls p
       = match filter truthy (map imageUrl (first :: rest)) with
         | [] => None
         | urls => Some urls
         end.
Proof.
  unfold generateCombinedPost.
  destruct anthropic as [create|]; [|discriminate].
  destruct images as [[|first rest]|]; try discriminate.
  cbn [List.length Nat.eqb].
  destruct (5 <? S (List.length rest))%nat eqn:Hmany; [discriminate|].
  apply Nat.ltb_ge in Hmany.
  unfold bind.
  destruct (combinedContent (first :: rest) date tr) as [trc [e|contentBlocks]];
    [discriminate|].
  destruct (createWithRetry _ trc) as [tr2 [e|resp]]; [discriminate|].
  unfold combinedPost, bind, attempt.
  destruct (decodeCaption (jsonString (messageContent resp))) as [[[|c s]|]|];
    try discriminate.
  unfold ret. intro H. inversion H; subst. cbn.
  exists first, rest. repeat split; try lia; try discriminate.
  destruct (truthy (imageUrl first)); [reflexivity|].
  destruct (filter truthy (map imageUrl rest)); reflexivity.
Qed.

(* ------------------------------------------------------------------ *)
(** ** The plan with the constants of the source *)

Lemma concat_length_le {A : Type} (k : nat) (l : list (list A)) :
  Forall (fun b => (List.length b <= k)%nat) l ->
  (List.length (List.concat l) <= k * List.length l)%nat.
Proof.
  induction 1 as [|b l Hb _ IH]; cbn [List.concat List.length]; [lia|].
  rewrite length_app. lia.
Qed.

Lemma concat_length_full {A : Type} (k : nat) (l : list (list A)) :
  (forall pre b post, l = pre ++ b :: post -> post <> [] -> List.length b = k) ->
  Forall (fun b => (1 <= List.length b)%nat) l ->
  l <> [] ->
  (k * (List.length l - 1) + 1 <= List.length (List.concat l))%nat.
Proof.
  induction l as [|b l IH]; intros Hfull Hne Hl; [congruence|].
  inversion Hne as [|? ? Hb Hrest]; subst.
  cbn [List.concat List.length]. rewrite length_app.
  destruct l as [|b' l'].
  - cbn. lia.
  - assert (Hk : List.length b = k) by (apply (Hfull [] b (b' :: l')); [reflexivity | discriminate]).
    assert (IH' : (k * (List.length (b' :: l') - 1) + 1
                   <= List.length (List.concat (b' :: l')))%nat).
    { apply IH; [|exact Hrest|discriminate].
      intros pre x post E Hpost. apply (Hfull (b :: pre) x post); [|exact Hpost].
      cbn [app]. now rewrite E. }
    cbn [List.length] in *. lia.
Qed.

(** X10. With the constants of the source (500KB an image, 30MB a batch) a
    batch holds between 1 and 61 images and every batch but the last holds
    exactly 61; so [n] images are planned as the least number of batches
    of 61 that holds them. *)
Theorem planBatches_of_61 {A : Type} (allImages : list A) :
  let plan :=
    Planner.planBatches (MAX_BATCH_SIZE_MB * 1024) ESTIMATED_IMAGE_SIZE_KB allImages in
  Forall (fun b => (1 <= List.length b <= 61)%nat) plan
  /\ (forall pre b post,
        plan = pre ++ b :: post -> post <> [] -> List.length b = 61%nat)
  /\ (List.length allImages <= 61 * List.length plan)%nat
  /\ (61 * List.length plan < List.length allImages + 61)%nat.
Proof.
  intro plan.
  destruct (finish_planned A (MAX_BATCH_SIZE_MB * 1024) ESTIMATED_IMAGE_SIZE_KB
              (fold_left (Planner.step (MAX_BATCH_SIZE_MB * 1024)
                                       ESTIMATED_IMAGE_SIZE_KB)
                         allImages Planner.init)
              (planned_fold A _ _ allImages Planner.init (planned_init A _ _)))
    as [Hall Hfull].
  fold (Planner.planBatches (MAX_BATCH_SIZE_MB * 1024) ESTIMATED_IMAGE_SIZE_KB
                            allImages) in Hall, Hfull.
  fold plan in Hall, Hfull.
  assert (Hsize : Forall (fun b => (1 <= List.length b <= 61)%nat) plan).
  { eapply Forall_impl; [|exact Hall]. intros b [Hne Hfit].
    unfold Planner.fits, MAX_BATCH_SIZE_MB, ESTIMATED_IMAGE_SIZE_KB in Hfit.
    destruct b as [|x [|y b]]; [congruence | cbn; lia |].
    specialize (Hfit ltac:(cbn; lia)). cbn [List.length] in *. lia. }
  assert (Hclosed : forall pre b post,
             plan = pre ++ b :: post -> post <> [] -> List.length b = 61%nat).
  { intros pre b post E Hpost.
    pose proof (Hfull pre b post E Hpost) as Hf.
    unfold Planner.full, MAX_BATCH_SIZE_MB, ESTIMATED_IMAGE_SIZE_KB in Hf.
    assert (Hb : (1 <= List.length b <= 61)%nat).
    { rewrite E in Hsize. apply Forall_app in Hsize as [_ Hsize].
      inversion Hsize; assumption. }
    lia. }
  assert (Hn : List.length allImages = List.length (List.concat plan)).
  { unfold plan. now rewrite planBatches_concat. }
  split; [exact Hsize|]. split; [exact Hclosed|]. rewrite Hn. split.
  - apply concat_length_le. eapply Forall_impl; [|exact Hsize]. cbn. lia.
  - destruct plan as [|b rest] eqn:Eplan; [cbn; lia|].
    assert (H1 : (61 * (List.length (b :: rest) - 1) + 1
                  <= List.length (List.concat (b :: rest)))%nat).
    { apply concat_length_full; [exact Hclosed| |discriminate].
      eapply Forall_impl; [|exact Hsize]. cbn. lia. }
    cbn [List.length] in *. lia.
Qed.

(* ------------------------------------------------------------------ *)
(** ** Deleting images by their indices *)

Section DeleteFacts.

Import EmailRoutes.

Variable A : Type.

Lemma insertDescending_perm (x : Z) (l : list Z) :
  Permutation (insertDescending x l) (x :: l).
Proof.
  induction l as [|y l IH]; cbn [insertDescending]; [reflexivity|].
  destruct (y <=? x); [reflexivity|].
  rewrite IH. apply perm_swap.
Qed.

Lemma sortDescending_perm (l : list Z) : Permutation (sortDescending l) l.
Proof.
  induction l as [|x l IH]; cbn [sortDescending fold_right]; [reflexivity|].
  fold (sortDescending l). rewrite insertDescending_perm. now constructor.
Qed.

Lemma insertDescending_sorted (x : Z) (l : list Z) :
  StronglySorted Z.ge l -> StronglySorted Z.ge (insertDescending x l).
Proof.
  induction 1 as [|y l Hsorted IH Hall]; cbn [insertDescending].
  - repeat constructor.
  - destruct (y <=? x) eqn:Hle.
    + apply Z.leb_le in Hle. constructor; [now constructor|].
      constructor; [lia|]. eapply Forall_impl; [|exact Hall]. cbn. lia.
    + apply Z.leb_gt in Hle. constructor; [exact IH|].
      apply Forall_forall. intros z Hz.
      apply (Permutation_in _ (insertDescending_perm x l)) in Hz.
      destruct Hz as [<-|Hz]; [lia|].
      rewrite Forall_forall in Hall. now apply Hall.
Qed.

Lemma sortDescending_sorted (l : list Z) : StronglySorted Z.ge (sortDescending l).
Proof.
  induction l as [|x l IH]; cbn [sortDescending fold_right]; [constructor|].
  now apply insertDescending_sorted.
Qed.

Lemma sorted_nodup_strict (l : list Z) :
  StronglySorted Z.ge l -> NoDup l -> StronglySorted Z.gt l.
Proof.
  induction 1 as [|y l Hsorted IH Hall]; intro Hnd; [constructor|].
  inversion Hnd as [|? ? Hnotin Hnd']; subst.
  constructor; [now apply IH|].
  apply Forall_forall. intros z Hz. rewrite Forall_forall in Hall.
  specialize (Hall z Hz). assert (z <> y) by congruence. lia.
Qed.

Lemma among_In (l : list Z) (p : Z) : among l p = true <-> In p l.
Proof.
  unfold among. rewrite existsb_exists. split.
  - intros [x [Hx He]]. apply Z.eqb_eq in He. now subst.
  - intro H. exists p. split; [exact H | apply Z.eqb_refl].
Qed.

Lemma among_perm (l l' : list Z) (p : Z) :
  Permutation l l' -> among l p = among l' p.
Proof.
  intro H. apply eq_true_iff_eq. rewrite !among_In.
  split; apply Permutation_in; [exact H | now symmetry].
Qed.

Lemma filter_length_perm (f : Z -> bool) (l l' : list Z) :
  Permutation l l' -> List.length (filter f l) = List.length (filter f l').
Proof.
  induction 1 as [|x l l' _ IH|x y l|l l' l'' _ IH1 _ IH2]; cbn [filter].
  - reflexivity.
  - destruct (f x); cbn [List.length]; now rewrite IH.
  - destruct (f x), (f y); reflexivity.
  - now rewrite IH1.
Qed.

Lemma keepUnselected_ext (sel sel' : Z -> bool) (l : list A) :
  forall position : Z,
  (forall p, position <= p < position + Z.of_nat (List.length l) -> sel p = sel' p) ->
  keepUnselected sel position l = keepUnselected sel' position l.
Proof.
  induction l as [|x l IH]; intros position H; [reflexivity|].
  cbn [keepUnselected]. rewrite (H position) by (cbn [List.length]; lia).
  rewrite (IH (position + 1)); [reflexivity|].
  intros p Hp. apply H. cbn [List.length]. lia.
Qed.

Lemma keepUnselected_none (sel : Z -> bool) (l : list A) (position : Z) :
  (forall p, position <= p < position + Z.of_nat (List.length l) -> sel p = false) ->
  keepUnselected sel position l = l.
Proof.
  revert position. induction l as [|x l IH]; intros position H; [reflexivity|].
  cbn [keepUnselected]. rewrite (H position) by (cbn [List.length]; lia).
  f_equal. apply IH. intros p Hp. apply H. cbn [List.length]. lia.
Qed.

(** Removing the element at one position, then the elements at selected
    positions before it, removes the elements at all these positions. *)
Lemma keepUnselected_splice1 (sel sel' : Z -> bool) (k : nat) :
  forall (l : list A) (position : Z),
  (k < List.length l)%nat ->
  (forall p, sel p = (p =? position + Z.of_nat k) || sel' p) ->
  (forall p, sel' p = true -> p < position + Z.of_nat k) ->
  keepUnselected sel' position (splice1 k l) = keepUnselected sel position l.
Proof.
  induction k as [|k IH]; intros l position Hk Hsel Hbelow.
  - destruct l as [|x l]; [cbn in Hk; lia|].
    unfold splice1. cbn [firstn skipn app keepUnselected].
    rewrite Hsel. replace (position =? position + Z.of_nat 0) with true
      by (symmetry; apply Z.eqb_eq; lia).
    cbn [orb].
    rewrite !keepUnselected_none; [reflexivity| |].
    + intros p Hp. rewrite Hsel.
      replace (p =? position + Z.of_nat 0) with false
        by (symmetry; apply Z.eqb_neq; lia).
      cbn [orb]. destruct (sel' p) eqn:E; [|reflexivity].
      apply Hbelow in E. lia.
    + intros p Hp. destruct (sel' p) eqn:E; [|reflexivity].
      apply Hbelow in E. lia.
  - destruct l as [|x l]; [cbn in Hk; lia|].
    change (splice1 (S k) (x :: l)) with (x :: splice1 k l).
    cbn [keepUnselected].
    rewrite (Hsel position).
    replace (position =? position + Z.of_nat (S k)) with false
      by (symmetry; apply Z.eqb_neq; lia).
    cbn [orb].
    rewrite (IH l (position + 1)).
    + reflexivity.
    + cbn [List.length] in Hk. lia.
    + intro p. rewrite Hsel. f_equal. f_equal. lia.
    + intros p Hp. apply Hbelow in Hp. lia.
Qed.

Lemma splice1_length (k : nat) (l : list A) :
  (k < List.length l)%nat -> List.length (splice1 k l) = (List.length l - 1)%nat.
Proof.
  intro Hk. unfold splice1. rewrite length_app, length_firstn, length_skipn. lia.
Qed.

Lemma deleteLoop_descending (indices : list Z) :
  StronglySorted Z.gt indices ->
  forall (l : list A) (n : nat),
  deleteLoop indices l n
  = (keepUnselected (among indices) 0 l,
     (n + List.length (filter (inRange (List.length l)) indices))%nat).
Proof.
  induction 1 as [|i rest Hsorted IH Hall]; intros l n.
  - cbn [deleteLoop filter List.length]. rewrite keepUnselected_none.
    + now rewrite Nat.add_0_r.
    + reflexivity.
  - rewrite Forall_forall in Hall. cbn [deleteLoop filter].
    fold (inRange (List.length l) i).
    destruct (inRange (List.length l) i) eqn:Hin.
    + unfold inRange in Hin. apply andb_true_iff in Hin as [H0 Hlt].
      apply Z.leb_le in H0. apply Z.ltb_lt in Hlt.
      assert (Hk : (Z.to_nat i < List.length l)%nat) by lia.
      rewrite IH, (splice1_length _ _ Hk). f_equal.
      * apply keepUnselected_splice1; [exact Hk| |].
        -- intro p. unfold among. cbn [existsb]. f_equal. f_equal. lia.
        -- intros p Hp. apply among_In in Hp. specialize (Hall p Hp). lia.
      * cbn [List.length]. rewrite Nat.add_succ_r. cbn [Nat.add]. f_equal. f_equal.
        f_equal. apply filter_ext_in. intros r Hr. specialize (Hall r Hr).
        unfold inRange. f_equal.
        destruct (r <? Z.of_nat (List.length l - 1)) eqn:E1;
          destruct (r <? Z.of_nat (List.length l)) eqn:E2; try reflexivity.
        -- apply Z.ltb_lt in E1. apply Z.ltb_ge in E2. lia.
        -- apply Z.ltb_ge in E1. apply Z.ltb_lt in E2. lia.
    + rewrite IH. f_equal.
      apply keepUnselected_ext. intros p Hp. unfold among. cbn [existsb].
      replace (p =? i) with false; [reflexivity|].
      symmetry. apply Z.eqb_neq. intro Heq. subst p.
      unfold inRange in Hin. apply andb_false_iff in Hin as [H|H].
      * apply Z.leb_gt in H. lia.
      * apply Z.ltb_ge in H. lia.
Qed.

Lemma deleteLoop_count (indices : list Z) :
  forall (l : list A) (n : nat),
  (List.length (fst (deleteLoop indices l n)) + snd (deleteLoop indices l n)
   = List.length l + n)%nat.
Proof.
  induction indices as [|i rest IH]; intros l n; [reflexivity|].
  cbn [deleteLoop].
  destruct ((0 <=? i) && (i <? Z.of_nat (List.length l))) eqn:Hin.
  - apply andb_true_iff in Hin as [H0 Hlt].
    apply Z.leb_le in H0. apply Z.ltb_lt in Hlt.
    rewrite IH, splice1_length by lia. lia.
  - apply IH.
Qed.

(** X11. Deleting images of an email by a list of indices without repetition
    removes exactly the URLs at those positions: the URLs at the other
    positions stay, in their order, and the count grows by the number of
    listed indices that are indices of the array. Whatever the list is, the
    count grows by the number of URLs removed. The single route removes the
    URL at the given position alone, and writes nothing when the index is
    outside the array. *)
Theorem deleteImages_removes_listed_positions
    (currentUrls : list A) (indices : list Z) (deletedCount : nat) (imageIndex : Z) :
  (NoDup indices ->
   deleteImages currentUrls indices deletedCount
   = (keepUnselected (among indices) 0 currentUrls,
      (deletedCount
       + List.length (filter (inRange (List.length currentUrls)) indices))%nat))
  /\ (List.length (fst (deleteImages currentUrls indices deletedCount))
      + snd (deleteImages currentUrls indices deletedCount)
      = List.length currentUrls + deletedCount)%nat
  /\ deleteImage currentUrls imageIndex
     = (if inRange (List.length currentUrls) imageIndex
        then Some (keepUnselected (among [imageIndex]) 0 currentUrls)
        else None).
Proof.
  split; [|split].
  - intro Hnd. unfold deleteImages.
    rewrite deleteLoop_descending.
    + f_equal.
      * apply keepUnselected_ext. intros p _.
        apply among_perm, sortDescending_perm.
      * f_equal. apply filter_length_perm, sortDescending_perm.
    + apply sorted_nodup_strict; [apply sortDescending_sorted|].
      eapply Permutation_NoDup; [|exact Hnd].
      symmetry. apply sortDescending_perm.
  - apply deleteLoop_count.
  - unfold deleteImage. fold (inRange (List.length currentUrls) imageIndex).
    destruct (inRange (List.length currentUrls) imageIndex) eqn:Hin; [|reflexivity].
    unfold inRange in Hin. apply andb_true_iff in Hin as [H0 Hlt].
    apply Z.leb_le in H0. apply Z.ltb_lt in Hlt.
    f_equal.
    rewrite <- (keepUnselected_splice1 (among [imageIndex]) (fun _ => false)
                  (Z.to_nat imageIndex) currentUrls 0).
    + symmetry. now apply keepUnselected_none.
    + lia.
    + intro p. unfold among. cbn [existsb]. f_equal. f_equal. lia.
    + discriminate.
Qed.

End DeleteFacts.

(* ------------------------------------------------------------------ *)
(** ** The window of today *)

(** X12. When the window of today is two valid dates, it holds the present
    moment, it lasts one day less one millisecond, and its start is midnight
    on the clock that is [timezoneOffsetHours] ahead of UTC. For a present
    moment between 1970 and the year 190000 and an offset of at most a day,
    the window is two valid dates. *)
Theorem window_is_the_local_day (now timezoneOffsetHours : Z) :
  (forall start end_,
      Today.window now timezoneOffsetHours = (Some start, Some end_) ->
      start <= now <= end_
      /\ end_ - start = Today.msPerDay - 1
      /\ (start + timezoneOffsetHours * 3600000) mod Today.msPerDay = 0)
  /\ (0 <= now <= 6000000000000000 ->
      -24 <= timezoneOffsetHours <= 24 ->
      exists start end_,
        Today.window now timezoneOffsetHours = (Some start, Some end_)).
Proof.
  unfold Today.window, Today.setTime, Today.minus, Today.setUTCHours, Today.timeClip,
    Today.msPerDay.
  cbv zeta.
  remember (now + timezoneOffsetHours * 60 * 60 * 1000) as u eqn:Hu.
  pose proof (Z.div_mod u 86400000 ltac:(lia)) as Hdiv.
  pose proof (Z.mod_pos_bound u 86400000 ltac:(lia)) as Hmod.
  split.
  - intros start end_ H.
    repeat match type of H with
           | context [if ?b then _ else _] =>
               destruct b; cbv beta iota in H; try discriminate H
           end.
    inversion H; subst start end_. clear H.
    split; [lia|]. split; [lia|].
    match goal with
    | |- ?x mod _ = 0 => replace x with (u / 86400000 * 86400000) by lia
    end.
    apply Z.mod_mul. lia.
  - intros Hnow Hoff.
    repeat match goal with
           | |- context [Z.abs ?x <=? 8640000000000000] =>
               replace (Z.abs x <=? 8640000000000000) with true
                 by (symmetry; apply Z.leb_le; lia);
               cbv beta iota
           end.
    eexists. eexists. reflexivity.
Qed.

(* ------------------------------------------------------------------ *)
(** ** From the generator to the store *)

Lemma filter_idempotent {A : Type} (f : A -> bool) (l : list A) :
  filter f (filter f l) = filter f l.
Proof.
  induction l as [|x l IH]; [reflexivity|].
  cbn [filter]. destruct (f x) eqn:Hx; [|exact IH].
  cbn [filter]. now rewrite Hx, IH.
Qed.

Lemma toRow_fromImage (organizationId : option string) (isUserGenerated : option bool)
    (now : string) (img : image) (p : post) :
  fromImage img p ->
  PostService.toRow organizationId now (PostService.ofPost isUserGenerated p)
  = PostService.asIs organizationId isUserGenerated p.
Proof.
  destruct p as [caption emailId url urls createdAt].
  unfold fromImage. cbn [email_id source_image_url source_image_urls].
  intros [_ [Hurl Hurls]]. subst url urls.
  unfold PostService.toRow, PostService.normalizedUrls, PostService.ofPost,
    PostService.asIs.
  cbn [PostService.source_image_urls PostService.source_image_url
       PostService.caption_text PostService.email_id PostService.image_url
       PostService.suggested_image PostService.created_at
       PostService.is_user_generated].
  destruct (imageUrl img) as [|c s]; reflexivity.
Qed.

Lemma toRow_fromProperty (organizationId : option string)
    (isUserGenerated : option bool) (now : string) (p : post) :
  fromProperty p ->
  PostService.toRow organizationId now (PostService.ofPost isUserGenerated p)
  = PostService.asIs organizationId isUserGenerated p.
Proof.
  destruct p as [caption emailId url urls createdAt].
  unfold fromProperty. cbn [email_id source_image_url source_image_urls].
  intros [_ [Hurl Hurls]]. subst url urls. reflexivity.
Qed.

(** X17. [storeGeneratedPosts] builds, for a post of auto-selection mode, the
    row that holds the post as it is (a post that points to no image too),
    whatever the clock says; for the post of combined mode it keeps the
    caption, the list of URLs and the time, and the whole post when the URL
    of its first image is not empty. *)
Theorem toRow_keeps_generated_posts
    (organizationId : option string) (isUserGenerated : option bool) (now : string)
    (emails : option (list email)) (images : option (list image)) (date : string)
    (tr tr' : trace) (posts : list post) (p : post) :
  (generateInstagramCaptions emails date tr = (tr', inr posts) ->
   map (fun p => PostService.toRow organizationId now
                   (PostService.ofPost isUserGenerated p)) posts
   = map (PostService.asIs organizationId isUserGenerated) posts)
  /\ (generateCombinedPost images date tr = (tr', inr p) ->
      let r :=
        PostService.toRow organizationId now (PostService.ofPost isUserGenerated p) in
      PostService.Payload.caption_text r = caption_text p
      /\ PostService.Payload.source_image_urls r = source_image_urls p
      /\ PostService.Payload.created_at r = created_at p
      /\ (option_map truthy (source_image_url p) = Some true ->
          r = PostService.asIs organizationId isUserGenerated p)).
Proof.
  split.
  - intro Hrun. apply generateInstagramCaptions_fromImages in Hrun.
    apply map_ext_Forall. eapply Forall_impl; [|exact Hrun].
    intros q [[img [_ Hq]] | Hq];
      [apply (toRow_fromImage _ _ _ img) | apply toRow_fromProperty]; exact Hq.
  - unfold generateCombinedPost.
    destruct anthropic as [create|]; [|discriminate].
    destruct images as [[|first rest]|]; try discriminate.
    cbn [List.length Nat.eqb].
    destruct (5 <? S (List.length rest))%nat; [discriminate|].
    unfold bind.
    destruct (combinedContent (first :: rest) date tr) as [trc [e|contentBlocks]];
      [discriminate|].
    destruct (createWithRetry _ trc) as [tr2 [e|resp]]; [discriminate|].
    unfold combinedPost, bind, attempt.
    destruct (decodeCaption (jsonString (messageContent resp))) as [[[|c s]|]|];
      try discriminate.
    unfold ret. intro H. inversion H; subst. clear H.
    unfold PostService.toRow, PostService.normalizedUrls, PostService.ofPost,
      PostService.asIs.
    cbn [PostService.source_image_urls PostService.source_image_url
         PostService.caption_text PostService.email_id PostService.image_url
         PostService.suggested_image PostService.created_at
         PostService.is_user_generated
         PostService.Payload.caption_text PostService.Payload.source_image_urls
         PostService.Payload.created_at
         caption_text source_image_url source_image_urls created_at option_map].
    pose proof (filter_idempotent truthy (map imageUrl (first :: rest))) as Hidem.
    cbn [map filter] in Hidem |- *.
    destruct (truthy (imageUrl first)) eqn:Hfirst.
    + cbn [List.length Nat.ltb Nat.leb] in *.
      cbn [filter]. rewrite Hfirst.
      cbn [filter] in Hidem. rewrite Hfirst in Hidem.
      injection Hidem as Hidem. rewrite Hidem.
      cbn [List.length Nat.ltb Nat.leb].
      repeat split.
    + destruct (filter truthy (map imageUrl rest)) as [|u us] eqn:Hrest.
      * cbn [List.length Nat.ltb Nat.leb].
        destruct (imageUrl first) as [|c' s']; [|discriminate Hfirst].
        cbn [List.length Nat.ltb Nat.leb].
        repeat split; try discriminate.
      * cbn [List.length Nat.ltb Nat.leb]. rewrite Hidem.
        cbn [List.length Nat.ltb Nat.leb].
        repeat split; try discriminate.
Qed.

(* ------------------------------------------------------------------ *)
(** ** The content of a request: what is sent *)

Lemma imageBlocks_app (a b : list contentBlock) :
  imageBlocks (a ++ b) = (imageBlocks a + imageBlocks b)%nat.
Proof. unfold imageBlocks. now rewrite filter_app, length_app. Qed.

Lemma addBatchImages_blocks (batch : list image) :
  forall (imageIndex : nat) (blocks : list contentBlock) (tr : trace),
  exists tr' added,
    addBatchImages imageIndex batch blocks tr = (tr', inr (blocks ++ added))
    /\ Forall sendable added
    /\ (imageBlocks added <= List.length batch)%nat
    /\ forall k img,
         nth_error batch k = Some img ->
         In (TextBlock (selectionContext (imageIndex + k) img)) added.
Proof.
  induction batch as [|img rest IH]; intros imageIndex blocks tr.
  - exists tr, []. rewrite app_nil_r. repeat split; [constructor | cbn; lia |].
    intros k img' H. destruct k; discriminate H.
  - rewrite addBatchImages_step.
    destruct (imageUrlToBase64 (imageUrl img) tr) as [tr1 r].
    set (step := TextBlock (selectionContext imageIndex img) :: _).
    destruct (IH (S imageIndex) (blocks ++ step) tr1)
      as [tr' [added [Heq [Hsend [Hcount Hctx]]]]].
    exists tr', (step ++ added). split; [|split; [|split]].
    + rewrite Heq, <- app_assoc. reflexivity.
    + apply Forall_app. split; [|exact Hsend]. subst step.
      constructor; [exact I|].
      destruct r as [e|resolved]; [repeat constructor|].
      destruct (overFiveMB (base64Data resolved)) eqn:Hover; [constructor|].
      constructor; [exact Hover|]. repeat constructor.
    + rewrite imageBlocks_app. cbn [List.length].
      assert (Hstep : (imageBlocks step <= 1)%nat).
      { subst step. destruct r as [e|resolved]; [cbn; lia|].
        destruct (overFiveMB (base64Data resolved)); cbn; lia. }
      lia.
    + intros k img' Hk. apply in_or_app. destruct k as [|k].
      * left. cbn in Hk. injection Hk as <-. rewrite Nat.add_0_r.
        subst step. left. reflexivity.
      * right. cbn in Hk. replace (imageIndex + S k)%nat with (S imageIndex + k)%nat by lia.
        apply Hctx. exact Hk.
Qed.

Lemma addSelectedImages_blocks (images : list image) :
  forall (index : nat) (blocks : list contentBlock) (tr : trace),
  exists tr' added,
    addSelectedImages index images blocks tr = (tr', inr (blocks ++ added))
    /\ Forall sendable added
    /\ (imageBlocks added <= List.length images)%nat
    /\ forall k img,
         nth_error images k = Some img ->
         In (TextBlock (combinedContext (index + k) img)) added.
Proof.
  induction images as [|img rest IH]; intros index blocks tr.
  - exists tr, []. rewrite app_nil_r. repeat split; [constructor | cbn; lia |].
    intros k img' H. destruct k; discriminate H.
  - rewrite addSelectedImages_step.
    destruct (imageUrlToBase64 (imageUrl img) tr) as [tr1 r].
    set (step := TextBlock (combinedContext index img) :: _).
    destruct (IH (S index) (blocks ++ step) tr1)
      as [tr' [added [Heq [Hsend [Hcount Hctx]]]]].
    exists tr', (step ++ added). split; [|split; [|split]].
    + rewrite Heq, <- app_assoc. reflexivity.
    + apply Forall_app. split; [|exact Hsend]. subst step.
      constructor; [exact I|].
      destruct r as [e|resolved]; [repeat constructor|].
      destruct (overFiveMB (base64Data resolved)) eqn:Hover; [repeat constructor|].
      constructor; [exact Hover|]. repeat constructor.
    + rewrite imageBlocks_app. cbn [List.length].
      assert (Hstep : (imageBlocks step <= 1)%nat).
      { subst step. destruct r as [e|resolved]; [cbn; lia|].
        destruct (overFiveMB (base64Data resolved)); cbn; lia. }
      lia.
    + intros k img' Hk. apply in_or_app. destruct k as [|k].
      * left. cbn in Hk. injection Hk as <-. rewrite Nat.add_0_r.
        subst step. left. reflexivity.
      * right. cbn in Hk. replace (index + S k)%nat with (S index + k)%nat by lia.
        apply Hctx. exact Hk.
Qed.

(** X22. The content of a request, in either mode, is always built, and it
    never holds an image over the limit of five megabytes; it holds at most
    one image block for each image, and it describes every image, loaded or
    not, by the text block of its context, under its position. *)
Theorem content_is_sendable (images : list image) (date : string) (tr : trace) :
  (exists tr' contentBlocks,
      batchContent images date tr = (tr', inr contentBlocks)
      /\ Forall sendable contentBlocks
      /\ (imageBlocks contentBlocks <= List.length images)%nat
      /\ forall k img,
           nth_error images k = Some img ->
           In (TextBlock (selectionContext k img)) contentBlocks)
  /\ (exists tr' contentBlocks,
        combinedContent images date tr = (tr', inr contentBlocks)
        /\ Forall sendable contentBlocks
        /\ (imageBlocks contentBlocks <= List.length images)%nat
        /\ forall k img,
             nth_error images k = Some img ->
             In (TextBlock (combinedContext k img)) contentBlocks).
Proof.
  split.
  - unfold batchContent, bind.
    destruct (addBatchImages_blocks images 0
                [TextBlock (selectionIntro date (List.length images))] tr)
      as [tr' [added [Heq [Hsend [Hcount Hctx]]]]].
    rewrite Heq. eexists. eexists. split; [reflexivity|]. split; [|split].
    + apply Forall_app. split; [|repeat constructor].
      apply Forall_app. split; [repeat constructor | exact Hsend].
    + rewrite !imageBlocks_app. cbn. lia.
    + intros k img Hk. apply in_or_app. left. apply in_or_app. right.
      apply (Hctx k img Hk).
  - unfold combinedContent, bind.
    destruct (addSelectedImages_blocks images 0
                [TextBlock (combinedIntro date (List.length images))] tr)
      as [tr' [added [Heq [Hsend [Hcount Hctx]]]]].
    rewrite Heq. eexists. eexists. split; [reflexivity|]. split; [|split].
    + apply Forall_app. split; [|repeat constructor].
      apply Forall_app. split; [repeat constructor | exact Hsend].
    + rewrite !imageBlocks_app. cbn. lia.
    + intros k img Hk. apply in_or_app. left. apply in_or_app. right.
      apply (Hctx k img Hk).
Qed.

(* ------------------------------------------------------------------ *)
(** ** An answer without text *)

Lemma messageContent_without_text (resp : response) :
  response_content resp = None
  \/ response_content resp = Some []
  \/ (exists rest, response_content resp = Some (mkResponseBlock None :: rest)) ->
  messageContent resp = "{}".
Proof.
  unfold messageContent. intros [-> | [-> | [rest ->]]]; reflexivity.
Qed.

(** X23. An answer of the service that has no content, or whose first block
    has no text, is read as the empty object. When the decoders read the
    empty object as JSON.parse does (no selections, no caption), a batch of
    auto-selection mode then yields no post and no error, while combined
    mode fails with "Failed to generate caption"; neither reads the clock. *)
Theorem answer_without_text
    (batch images : list image) (resp : response) (tr : trace) :
  response_content resp = None
  \/ response_content resp = Some []
  \/ (exists rest, response_content resp = Some (mkResponseBlock None :: rest)) ->
  decodeSelections "{}" = Some NotAnArray ->
  decodeCaption "{}" = Some None ->
  batchCaptions batch resp tr = (tr, inr [])
  /\ combinedPost images resp tr = (tr, inl (Error "Failed to generate caption")).
Proof.
  intros Hresp Hselections Hcaption.
  apply messageContent_without_text in Hresp.
  unfold batchCaptions, combinedPost, bind, attempt. rewrite Hresp.
  change (jsonString "{}") with "{}".
  rewrite Hselections, Hcaption. split; reflexivity.
Qed.

(* ------------------------------------------------------------------ *)
(** ** The fetches of a run *)

Lemma fetchEvents_app (a b : trace) :
  fetchEvents (a ++ b) = fetchEvents a ++ fetchEvents b.
Proof. apply filter_app. Qed.

Lemma fetchEvents_fetches (images : list image) :
  fetchEvents (fetches images) = fetches images.
Proof.
  unfold fetchEvents, fetches.
  induction (filter needsFetch (map imageUrl images)) as [|u us IH]; [reflexivity|].
  cbn [map filter isFetch]. now rewrite IH.
Qed.

Lemma fetches_app (a b : list image) : fetches (a ++ b) = fetches a ++ fetches b.
Proof. unfold fetches. now rewrite map_app, filter_app, map_app. Qed.

Lemma retryLoop_fetchEvents (remaining : nat) :
  forall (i : nat) (lastError : option error) (req : request) (tr : trace),
  fetchEvents (fst (retryLoop remaining i lastError req tr)) = fetchEvents tr.
Proof.
  induction remaining as [|remaining IH]; intros i lastError req tr.
  - reflexivity.
  - cbn [retryLoop]. unfold bind, attempt, messagesCreate, sleep, emit, ret, throw.
    destruct anthropic as [create|].
    + destruct (create tr req) as [e|r].
      * destruct (isOverloaded e && (i <? retries - 1)%nat).
        -- rewrite IH, !fetchEvents_app. cbn. now rewrite !app_nil_r.
        -- cbn [fst]. rewrite fetchEvents_app. cbn. now rewrite app_nil_r.
      * cbn [fst]. rewrite fetchEvents_app. cbn. now rewrite app_nil_r.
    + cbn [isOverloaded Error status andb]. reflexivity.
Qed.

Lemma mapM_selectionToCaption_fetchEvents (batch : list image)
    (selections : list (option selection)) :
  forall tr : trace,
  fetchEvents (fst (mapM (selectionToCaption batch) selections tr)) = fetchEvents tr.
Proof.
  induction selections as [|entry rest IH]; intro tr; [reflexivity|].
  cbn [mapM]. unfold bind. unfold selectionToCaption at 1.
  destruct entry as [sel|]; [|reflexivity].
  destruct (batchAt batch (image_index sel)) as [img|].
  - specialize (IH (tr ++ [EvNow])).
    destruct (mapM (selectionToCaption batch) rest (tr ++ [EvNow])) as [tr' [e|bs]];
      unfold ret; cbn [fst] in *; rewrite IH, fetchEvents_app; cbn;
      now rewrite app_nil_r.
  - unfold ret at 1. specialize (IH tr).
    destruct (mapM (selectionToCaption batch) rest tr) as [tr' [e|bs]];
      unfold ret; cbn [fst] in *; exact IH.
Qed.

Lemma batchCaptions_fetchEvents (batch : list image) (resp : response) (tr : trace) :
  fetchEvents (fst (batchCaptions batch resp tr)) = fetchEvents tr.
Proof.
  unfold batchCaptions, bind, attempt.
  destruct (decodeSelections (jsonString (messageContent resp))) as [[|selections]|];
    try reflexivity.
  destruct (List.length selections =? 0)%nat; [reflexivity|].
  pose proof (mapM_selectionToCaption_fetchEvents batch selections tr) as H.
  destruct (mapM (selectionToCaption batch) selections tr) as [tr' [e|captions]];
    exact H.
Qed.

Lemma processBatch_fetchEvents
    (batch : list image) (date : string) (batchIndex : nat) (tr : trace) :
  fetchEvents (fst (processBatch batch date batchIndex tr))
  = fetchEvents tr ++ fetches batch.
Proof.
  unfold processBatch. unfold bind at 1.
  destruct (batchContent_total batch date tr) as [trc [contentBlocks E]].
  pose proof (addBatchImages_fetches batch 0
                [TextBlock (selectionIntro date (List.length batch))] tr) as Hf.
  assert (Hc : fetchEvents trc = fetchEvents tr ++ fetches batch).
  { unfold batchContent, bind in E.
    destruct (addBatchImages _ _ _ _) as [tr1 [e|blocks]]; cbn [fst] in Hf;
      inversion E; subst.
    now rewrite fetchEvents_app, fetchEvents_fetches. }
  rewrite E. unfold bind.
  pose proof (retryLoop_fetchEvents retries 0 None
                (mkRequest selectionSystem contentBlocks) trc) as Hr.
  fold (createWithRetry (mkRequest selectionSystem contentBlocks)) in Hr.
  destruct (createWithRetry _ trc) as [tr2 [e|resp]]; cbn [fst] in *.
  - now rewrite Hr.
  - now rewrite batchCaptions_fetchEvents, Hr.
Qed.

Lemma processBatches_fetchEvents (date : string) (batches : list (list image)) :
  forall (batchIndex : nat) (allPosts : list post) (tr : trace),
  exists processed rest,
    batches = processed ++ rest
    /\ fetchEvents (fst (processBatches batchIndex batches date allPosts tr))
       = fetchEvents tr ++ fetches (List.concat processed).
Proof.
  induction batches as [|batch rest IH]; intros batchIndex allPosts tr.
  - exists [], []. split; [reflexivity|]. cbn. now rewrite app_nil_r.
  - cbn [processBatches]. unfold bind.
    pose proof (processBatch_fetchEvents batch date batchIndex tr) as Hb.
    destruct (processBatch batch date batchIndex tr) as [tr1 [e|posts]];
      cbn [fst] in *.
    + exists [batch], rest. split; [reflexivity|].
      cbn [List.concat]. now rewrite app_nil_r.
    + destruct (3 <=? List.length (allPosts ++ posts))%nat.
      * exists [batch], rest. split; [reflexivity|].
        cbn [ret fst List.concat]. now rewrite app_nil_r.
      * destruct (IH (S batchIndex) (allPosts ++ posts) tr1)
          as [processed [rest' [Heq Hf]]].
        exists (batch :: processed), rest'. split.
        -- cbn [app]. now rewrite Heq.
        -- rewrite Hf, Hb. cbn [List.concat]. now rewrite fetches_app, app_assoc.
Qed.

(** X24. A run of auto-selection mode fetches the images of the emails in
    their order, each at most once: its fetches are those of the first
    images, up to the last batch that was processed, and no retry of the
    generation call fetches again. A run of combined mode fetches the images
    it was given, each once, or nothing when it stops at one of its guards. *)
Theorem run_fetches_each_image_at_most_once
    (emails : option (list email)) (images : option (list image))
    (date : string) (tr : trace) :
  (exists fetchedImages later,
      flattenImages (match emails with Some es => es | None => [] end)
      = fetchedImages ++ later
      /\ fetchEvents (fst (generateInstagramCaptions emails date tr))
         = fetchEvents tr ++ fetches fetchedImages)
  /\ (fetchEvents (fst (generateCombinedPost images date tr)) = fetchEvents tr
      \/ exists given,
           images = Some given
           /\ (1 <= List.length given <= 5)%nat
           /\ fetchEvents (fst (generateCombinedPost images date tr))
              = fetchEvents tr ++ fetches given).
Proof.
  split.
  - unfold generateInstagramCaptions.
    destruct anthropic as [create|].
    2: { exists [], (flattenImages (match emails with Some es => es | None => [] end)).
         split; [reflexivity|]. cbn. now rewrite app_nil_r. }
    destruct emails as [es|].
    2: { exists [], []. split; [reflexivity|]. cbn. now rewrite app_nil_r. }
    destruct (List.length es =? 0)%nat.
    { exists [], (flattenImages es). split; [reflexivity|]. cbn. now rewrite app_nil_r. }
    unfold bind.
    destruct (processBatches_fetchEvents date
                (Planner.planBatches (MAX_BATCH_SIZE_MB * 1024) ESTIMATED_IMAGE_SIZE_KB
                   (flattenImages es)) 0 [] tr)
      as [processed [rest [Hplan Hf]]].
    exists (List.concat processed), (List.concat rest). split.
    + rewrite <- concat_app, <- Hplan. symmetry. apply planBatches_concat.
    + destruct (processBatches _ _ _ _ _) as [tr1 [e|allPosts]]; exact Hf.
  - unfold generateCombinedPost.
    destruct anthropic as [create|] eqn:Hclient; [|left; reflexivity].
    destruct images as [given|]; [|left; reflexivity].
    destruct (List.length given =? 0)%nat eqn:Hnone; [left; reflexivity|].
    destruct (5 <? List.length given)%nat eqn:Hmany; [left; reflexivity|].
    right. exists given. split; [reflexivity|].
    apply Nat.eqb_neq in Hnone. apply Nat.ltb_ge in Hmany. split; [lia|].
    unfold bind at 1.
    destruct (combinedContent_total given date tr) as [trc [contentBlocks E]].
    pose proof (addSelectedImages_fetches given 0
                  [TextBlock (combinedIntro date (List.length given))] tr) as Hf.
    assert (Hc : fetchEvents trc = fetchEvents tr ++ fetches given).
    { unfold combinedContent, bind in E.
      destruct (addSelectedImages _ _ _ _) as [tr1 [e|blocks]]; cbn [fst] in Hf;
        inversion E; subst.
      now rewrite fetchEvents_app, fetchEvents_fetches. }
    rewrite E. unfold bind.
    pose proof (retryLoop_fetchEvents retries 0 None
                  (mkRequest combinedSystem contentBlocks) trc) as Hr.
    fold (createWithRetry (mkRequest combinedSystem contentBlocks)) in Hr.
    destruct (createWithRetry _ trc) as [tr2 [e|resp]]; cbn [fst] in *.
    + now rewrite Hr.
    + unfold combinedPost, bind, attempt, throw, ret.
      destruct (decodeCaption (jsonString (messageContent resp))) as [[[|c s]|]|];
        cbn [fst]; try (now rewrite Hr).
      destruct given as [|first more]; cbn [fst]; [now rewrite Hr|].
      rewrite fetchEvents_app, Hr, Hc. cbn. now rewrite app_nil_r.
Qed.

End Pipeline.

(** The plan of 62 images with the constants of the source: 61 images
    (30500KB, under 30720KB) form the first batch, image 62 starts the next. *)
Example plan_of_62_images :
  Planner.planBatches (MAX_BATCH_SIZE_MB * 1024) ESTIMATED_IMAGE_SIZE_KB (seq 0 62)
  = [seq 0 61; [61%nat]].
Proof. vm_compute. reflexivity. Qed.

(** An estimate above the ceiling: every image is a batch of its own. *)
Example plan_oversized_items :
  Planner.planBatches 100 500 [1%nat; 2%nat; 3%nat] = [[1%nat]; [2%nat]; [3%nat]].
Proof. vm_compute. reflexivity. Qed.

(** The bound, on the plan of 62 images with the constants of the source. *)
Lemma planBatches_bound_witness :
  0 <= ESTIMATED_IMAGE_SIZE_KB
  /\ Forall (fun b => List.length b = 1%nat
                      \/ (Z.of_nat (List.length b) - 1) * ESTIMATED_IMAGE_SIZE_KB
                         <= MAX_BATCH_SIZE_MB * 1024)
            (Planner.planBatches (MAX_BATCH_SIZE_MB * 1024) ESTIMATED_IMAGE_SIZE_KB
                                 (seq 0 62)).
Proof.
  split.
  - vm_compute. discriminate.
  - apply (planBatches_bound nat (MAX_BATCH_SIZE_MB * 1024) ESTIMATED_IMAGE_SIZE_KB
                             (seq 0 62)).
    vm_compute. discriminate.
Defined.

(* ------------------------------------------------------------------ *)
(** ** The properties on scripted runs *)

(** The helpers of the prompts, on the values of the examples. *)
Example beforeT_sampleDate : beforeT sampleDate = "2025-03-14".
Proof. reflexivity. Qed.

Example showNat_62 : showNat 62 = "62".
Proof. reflexivity. Qed.

Example slice0_short : slice0 500 "Photos" = "Photos" /\ slice0 3 "Photos" = "Pho".
Proof. split; reflexivity. Qed.

(** A fenced answer and the bare answer give the same text to [JSON.parse]. *)
Example jsonString_fenced :
  let bare := template ["{"; dq; "caption"; dq; ":"; dq; "x"; dq; "}"] in
  jsonString (template [fence; "json"; nl; bare; nl; fence]) = bare
  /\ jsonString (template [" "; nl; fence; nl; bare; fence; nl]) = bare
  /\ jsonString (template [fence; "JSON"; bare; nl; fence]) = bare
  /\ jsonString (template ["  "; bare; nl]) = bare
  /\ jsonString (template [bare; nl; fence]) = template [bare; nl; fence].
Proof. repeat split. Qed.

(** Two emails with two and one images: three images, in the order of the
    emails, each with the id of its email. *)
Example flattenImages_order :
  map (fun img => (emailId img, imageUrl img))
      (flattenImages
         [mkEmail "a" None None None ["a1"; "a2"]; mkEmail "b" None None None ["b1"]])
  = [("a", "a1"); ("a", "a2"); ("b", "b1")].
Proof. reflexivity. Qed.

(** Two overloads, then an answer: two retries, after 2000ms and 4000ms. *)
Lemma createWithRetry_attempts_witness :
  Some (overloadedFor 2) = Some (overloadedFor 2)
  /\ forall req,
       createWithRetry (Some (overloadedFor 2)) req []
       = ([EvCreate req; EvSleep 2000; EvCreate req; EvSleep 4000; EvCreate req],
          inr sampleResponse).
Proof.
  split; [reflexivity|]. intro req.
  destruct (createWithRetry_attempts
              (Some (overloadedFor 2)) (overloadedFor 2) req [] eq_refl)
    as [[H _] | [[_ [H _]] | [_ [_ H]]]].
  - discriminate H.
  - discriminate H.
  - exact H.
Defined.

(** Three overloads: the third error is thrown, after three calls. *)
Example createWithRetry_exhausted (req : request) :
  createWithRetry (Some (overloadedFor 3)) req []
  = ([EvCreate req; EvSleep 2000; EvCreate req; EvSleep 4000; EvCreate req],
     inl overloadedError).
Proof. reflexivity. Qed.

(** Another failure: thrown at once, after one call. *)
Example createWithRetry_other_failure (req : request) :
  createWithRetry (Some (fun _ _ => inl badRequestError)) req []
  = ([EvCreate req], inl badRequestError).
Proof. reflexivity. Qed.

(** Resolution on the locators of the examples: a data URL is split without
    a fetch, a URL that answers 404 fails, a PNG served without a content
    type is taken as [image/png], and another locator is refused. *)
Example imageUrlToBase64_samples :
  imageUrlToBase64 unreachable (imageUrl inlineImage) []
  = ([], inr (mkBase64 "image/jpeg" "/9j/4AAQSkZJRg=="))
  /\ imageUrlToBase64 notFound "https://img.example/0" []
     = ([EvFetch "https://img.example/0"],
        inl (Error "Failed to fetch image from https://img.example/0: Not Found"))
  /\ imageUrlToBase64 smallPng "http://img.example/0" []
     = ([EvFetch "http://img.example/0"], inr (mkBase64 "image/png" "iVBORw0KGgo="))
  /\ imageUrlToBase64 smallPng (imageUrl ftpImage) []
     = ([], inl (Error "Invalid image URL format: ftp://img.example/0"))
  /\ dataUrlMatch "data:;base64,AAAA" = None
  /\ dataUrlMatch "data:image/png;base64," = None.
Proof. repeat split. Qed.

(** An image that cannot be fetched, in both modes; an image whose locator
    is refused; an image given inline. *)
Lemma placeholders_by_mode_witness :
  addSelectedImages notFound 0 [sampleImage 0] [] []
  = ([EvFetch "https://img.example/0"],
     inr [TextBlock (combinedContext 0 (sampleImage 0));
          TextBlock ("[Image could not be loaded]" ++ nl)%string;
          TextBlock nl])
  /\ addBatchImages notFound 0 [sampleImage 0] [] []
     = ([EvFetch "https://img.example/0"],
        inr [TextBlock (selectionContext 0 (sampleImage 0)); TextBlock nl])
  /\ addSelectedImages smallPng 0 [ftpImage] [] []
     = ([],
        inr [TextBlock (combinedContext 0 ftpImage);
             TextBlock ("[Image could not be loaded]" ++ nl)%string;
             TextBlock nl])
  /\ addSelectedImages unreachable 0 [inlineImage] [] []
     = ([],
        inr [TextBlock (combinedContext 0 inlineImage);
             ImageBlock "image/jpeg" "/9j/4AAQSkZJRg==";
             TextBlock nl])
  /\ addBatchImages unreachable 0 [inlineImage] [] []
     = ([],
        inr [TextBlock (selectionContext 0 inlineImage);
             ImageBlock "image/jpeg" "/9j/4AAQSkZJRg==";
             TextBlock nl]).
Proof.
  destruct (proj1 (placeholders_by_mode (Some answering) notFound fixedClock
                     (selecting []) 0 (sampleImage 0) [] [] []
                     [EvFetch "https://img.example/0"])
                  (Error "Failed to fetch image from https://img.example/0: Not Found")
                  eq_refl)
    as [Hcombined Hselection].
  pose proof (proj1 (proj1 (placeholders_by_mode (Some answering) smallPng fixedClock
                              (selecting []) 0 ftpImage [] [] [] [])
                           (Error "Invalid image URL format: ftp://img.example/0")
                           eq_refl))
    as Hftp.
  destruct (proj1 (proj2 (placeholders_by_mode (Some answering) unreachable fixedClock
                            (selecting []) 0 inlineImage [] [] [] []))
                  (mkBase64 "image/jpeg" "/9j/4AAQSkZJRg==") eq_refl)
    as [Hinline Hinline'].
  repeat split; assumption.
Defined.

(** C6 as the specification states it fails in selection mode: the image of
    this batch cannot be fetched, and the content of the request holds the
    instructions, the context of the image and the separator, without the
    placeholder "[Image could not be loaded]". *)
Lemma selection_mode_writes_no_placeholder :
  imageUrlToBase64 notFound (imageUrl (sampleImage 0)) []
  = ([EvFetch "https://img.example/0"],
     inl (Error "Failed to fetch image from https://img.example/0: Not Found"))
  /\ exists contentBlocks,
       batchContent notFound [sampleImage 0] sampleDate []
       = ([EvFetch "https://img.example/0"], inr contentBlocks)
       /\ contentBlocks
          = [TextBlock (selectionIntro sampleDate 1);
             TextBlock (selectionContext 0 (sampleImage 0));
             TextBlock nl;
             TextBlock selectionOutro]
       /\ ~ In (TextBlock ("[Image could not be loaded]" ++ nl)%string) contentBlocks.
Proof.
  split; [reflexivity|].
  eexists. split; [reflexivity|]. split; [reflexivity|].
  intro H. vm_compute in H.
  destruct H as [H | [H | [H | [H | []]]]]; discriminate H.
Qed.

(** Index 99 against a batch of five images: that entry is dropped, the
    entries for images 0 and 2 are kept, in their order. *)
Example batchCaptions_index_99 :
  batchCaptions fixedClock (selecting [0; 99; 2]) (sampleImages 5) sampleResponse []
  = ([EvNow; EvNow],
     inr [ {| caption_text := "Field day fun!";
              email_id := Some "email-0";
              source_image_url := Some "https://img.example/0";
              source_image_urls := Some ["https://img.example/0"];
              created_at := "2025-03-14T09:30:05.000Z" |};
           {| caption_text := "Field day fun!";
              email_id := Some "email-0";
              source_image_url := Some "https://img.example/2";
              source_image_urls := Some ["https://img.example/2"];
              created_at := "2025-03-14T09:30:05.000Z" |} ]).
Proof. vm_compute. reflexivity. Qed.

(** An array with a valid entry and a [null] entry: the batch raises, and the
    valid entry is not returned. An array whose entry names the length of
    the batch: the entry is not dropped, and its post points to no image. *)
Lemma batchCaptions_null_entry_or_property_key :
  resolves (sampleImages 5)
           (Some (mkSelection (IntegerKey 0) "Field day fun!" "Clear and lively"))
  = true
  /\ batchCaptions fixedClock
       (fun _ =>
          Some (SelectionsArray
                  [Some (mkSelection (IntegerKey 0) "Field day fun!" "Clear and lively");
                   None]))
       (sampleImages 5) sampleResponse []
     = ([EvNow], inl (Error "Claude response parsing failed"))
  /\ resolves (sampleImages 5)
              (Some (mkSelection LengthKey "Field day fun!" "Clear and lively"))
     = false
  /\ batchCaptions fixedClock
       (fun _ =>
          Some (SelectionsArray
                  [Some (mkSelection LengthKey "Field day fun!" "Clear and lively")]))
       (sampleImages 5) sampleResponse []
     = ([EvNow],
        inr [ {| caption_text := "Field day fun!";
                 email_id := None;
                 source_image_url := None;
                 source_image_urls := None;
                 created_at := "2025-03-14T09:30:05.000Z" |} ])
  /\ ~ (forall (clock : trace -> string)
               (decodeSelections : string -> option selectionsField)
               (batch : list image) (resp : response) (tr : trace)
               (entries : list (option selection)),
          decodeSelections (jsonString (messageContent resp))
          = Some (SelectionsArray entries) ->
          exists tr' posts,
            batchCaptions clock decodeSelections batch resp tr = (tr', inr posts)
            /\ Forall2 (linked batch) (filter (resolves batch) entries) posts).
Proof.
  repeat split.
  intro Hclaim.
  destruct (Hclaim fixedClock
              (fun _ =>
                 Some (SelectionsArray
                         [Some (mkSelection LengthKey "Field day fun!"
                                            "Clear and lively")]))
              (sampleImages 5) sampleResponse [] _ eq_refl)
    as [tr' [posts [Hrun Hlinked]]].
  vm_compute in Hrun. injection Hrun as _ <-.
  vm_compute in Hlinked. inversion Hlinked.
Qed.

(** The response of the example above, a response with a [null] entry, and
    two responses without selections. *)
Lemma batchCaptions_keeps_valid_selections_witness :
  (exists tr' posts,
      batchCaptions fixedClock (selecting [0; 99; 2]) (sampleImages 5)
                    sampleResponse [] = (tr', inr posts)
      /\ Forall2 (linked (sampleImages 5))
                 [Some (mkSelection (IntegerKey 0) "Field day fun!" "Clear and lively");
                  Some (mkSelection (IntegerKey 2) "Field day fun!" "Clear and lively")]
                 posts)
  /\ (exists tr',
        batchCaptions fixedClock
          (fun _ =>
             Some (SelectionsArray
                     [Some (mkSelection (IntegerKey 0) "Field day fun!"
                                        "Clear and lively");
                      None]))
          (sampleImages 5) sampleResponse []
        = (tr', inl (Error "Claude response parsing failed")))
  /\ batchCaptions fixedClock (fun _ => Some NotAnArray) (sampleImages 5)
                   sampleResponse [] = ([], inr [])
  /\ batchCaptions fixedClock (selecting []) (sampleImages 5)
                   sampleResponse [] = ([], inr []).
Proof.
  split; [|split; [|split]].
  - exact (proj1 (batchCaptions_keeps_valid_selections
                    fixedClock (selecting [0; 99; 2]) (sampleImages 5)
                    sampleResponse [])
                 _ eq_refl eq_refl).
  - exact (proj1 (proj2 (batchCaptions_keeps_valid_selections
                           fixedClock
                           (fun _ =>
                              Some (SelectionsArray
                                      [Some (mkSelection (IntegerKey 0) "Field day fun!"
                                                         "Clear and lively");
                                       None]))
                           (sampleImages 5) sampleResponse []))
                 _ eq_refl (or_intror (or_introl eq_refl))).
  - exact (proj2 (proj2 (batchCaptions_keeps_valid_selections
                           fixedClock (fun _ => Some NotAnArray) (sampleImages 5)
                           sampleResponse []))
                 (or_introl eq_refl)).
  - exact (proj2 (proj2 (batchCaptions_keeps_valid_selections
                           fixedClock (selecting []) (sampleImages 5)
                           sampleResponse []))
                 (or_intror eq_refl)).
Defined.

(** One batch of eight images of which the model selects seven: five posts
    are returned. *)
Lemma generateInstagramCaptions_at_most_five_witness :
  exists tr' posts,
    generateInstagramCaptions (Some answering) smallPng fixedClock
                              (selecting [0; 1; 2; 3; 4; 5; 6])
                              (Some [sampleEmail 8]) sampleDate []
    = (tr', inr posts)
    /\ (List.length posts <= 5)%nat
    /\ map source_image_url posts
       = [Some "https://img.example/0"; Some "https://img.example/1";
          Some "https://img.example/2"; Some "https://img.example/3";
          Some "https://img.example/4"].
Proof.
  eexists. eexists. split; [vm_compute; reflexivity|]. split.
  - eapply (generateInstagramCaptions_at_most_five
              (Some answering) smallPng fixedClock
              (selecting [0; 1; 2; 3; 4; 5; 6]) (Some [sampleEmail 8]) sampleDate []).
    vm_compute. reflexivity.
  - reflexivity.
Defined.

(** 62 images are planned as two batches. The model selects three images of
    the first batch: the run returns these three posts after one call of the
    generation service, and the image of the second batch is never fetched. *)
Lemma generateInstagramCaptions_stops_at_three_witness :
  exists tr1 allPosts,
    Planner.planBatches (MAX_BATCH_SIZE_MB * 1024) ESTIMATED_IMAGE_SIZE_KB
                        (flattenImages [sampleEmail 62])
    = [firstn 61 (flattenImages [sampleEmail 62])]
        ++ [skipn 61 (flattenImages [sampleEmail 62])]
    /\ processBatches (Some answering) unreachable fixedClock (selecting [0; 1; 2]) 0
                      [firstn 61 (flattenImages [sampleEmail 62])] sampleDate [] []
       = (tr1, inr allPosts)
    /\ (3 <= List.length allPosts)%nat
    /\ generateInstagramCaptions (Some answering) unreachable fixedClock
                                 (selecting [0; 1; 2])
                                 (Some [sampleEmail 62]) sampleDate []
       = (tr1, inr (firstn 5 allPosts))
    /\ creates tr1 = 1%nat
    /\ ~ In (EvFetch "https://img.example/61") tr1.
Proof.
  eexists. eexists.
  split; [vm_compute; reflexivity|].
  split; [vm_compute; reflexivity|].
  split; [vm_compute; lia|].
  split.
  - apply (generateInstagramCaptions_stops_at_three
             (Some answering) unreachable fixedClock (selecting [0; 1; 2])
             answering [sampleEmail 62] sampleDate
             [firstn 61 (flattenImages [sampleEmail 62])]
             [skipn 61 (flattenImages [sampleEmail 62])] []).
    + reflexivity.
    + discriminate.
    + vm_compute. reflexivity.
    + vm_compute. reflexivity.
    + vm_compute. lia.
  - split; [vm_compute; reflexivity|].
    intro H. apply (in_map (fun e => match e with
                                     | EvFetch url => url
                                     | _ => EmptyString
                                     end)) in H.
    vm_compute in H.
    repeat (destruct H as [H | H]; [discriminate H|]). exact H.
Defined.

(** 62 images, two batches. The model selects two images of the first batch;
    the service is overloaded from its second call on. The second batch
    fails after three attempts, and so does the run: the two posts of the
    first batch are not returned. *)
Lemma generateInstagramCaptions_fatal_batch_witness :
  exists tr1 allPosts tr2,
    Planner.planBatches (MAX_BATCH_SIZE_MB * 1024) ESTIMATED_IMAGE_SIZE_KB
                        (flattenImages [sampleEmail 62])
    = [firstn 61 (flattenImages [sampleEmail 62])]
        ++ skipn 61 (flattenImages [sampleEmail 62]) :: []
    /\ processBatches (Some overloadedAfterFirst) unreachable fixedClock
                      (selecting [0; 1]) 0
                      [firstn 61 (flattenImages [sampleEmail 62])] sampleDate [] []
       = (tr1, inr allPosts)
    /\ List.length allPosts = 2%nat
    /\ processBatch (Some overloadedAfterFirst) unreachable fixedClock
                    (selecting [0; 1])
                    (skipn 61 (flattenImages [sampleEmail 62])) sampleDate 1 tr1
       = (tr2, inl overloadedError)
    /\ generateInstagramCaptions (Some overloadedAfterFirst) unreachable fixedClock
                                 (selecting [0; 1])
                                 (Some [sampleEmail 62]) sampleDate []
       = (tr2, inl overloadedError)
    /\ creates tr2 = 4%nat.
Proof.
  eexists. eexists. eexists.
  split; [vm_compute; reflexivity|].
  split; [vm_compute; reflexivity|].
  split; [vm_compute; reflexivity|].
  split; [vm_compute; reflexivity|].
  split; [|vm_compute; reflexivity].
  refine (proj1 (generateInstagramCaptions_fatal_batch
                   (Some overloadedAfterFirst) unreachable fixedClock (selecting [0; 1])
                   overloadedAfterFirst [sampleEmail 62] sampleDate
                   [firstn 61 (flattenImages [sampleEmail 62])]
                   (skipn 61 (flattenImages [sampleEmail 62])) [] [] _ _
                   eq_refl _ _ _ _)
                _ _ _).
  - discriminate.
  - vm_compute. reflexivity.
  - vm_compute. reflexivity.
  - vm_compute. lia.
  - vm_compute. reflexivity.
Defined.

(** A response that cannot be decoded: the run fails with the parsing error. *)
Example generateInstagramCaptions_undecodable :
  snd (generateInstagramCaptions (Some answering) smallPng fixedClock undecodable
                                 (Some [sampleEmail 2]) sampleDate [])
  = inl (Error "Claude response parsing failed").
Proof. vm_compute. reflexivity. Qed.

(** Six images in combined mode. *)
Lemma generateCombinedPost_too_many_images_witness :
  (5 < List.length (sampleImages 6))%nat
  /\ generateCombinedPost (Some answering) smallPng fixedClock captioning
                          (Some (sampleImages 6)) sampleDate []
     = ([], inl (Error "Maximum 5 images can be selected")).
Proof.
  split.
  - vm_compute. lia.
  - apply (generateCombinedPost_too_many_images
             (Some answering) smallPng fixedClock captioning answering).
    + reflexivity.
    + vm_compute. lia.
Defined.

(** No list of images, and an empty one, in combined mode. *)
Lemma generateCombinedPost_no_images_witness :
  generateCombinedPost (Some answering) smallPng fixedClock captioning
                       None sampleDate []
  = ([], inl (Error "No images provided"))
  /\ generateCombinedPost (Some answering) smallPng fixedClock captioning
                          (Some []) sampleDate []
     = ([], inl (Error "No images provided")).
Proof.
  apply (generateCombinedPost_no_images
           (Some answering) smallPng fixedClock captioning answering).
  reflexivity.
Defined.

(** Two images in combined mode, of which none can be fetched: one call of
    the generation service, one post, linked to the first image. *)
Example generateCombinedPost_two_images :
  exists tr',
    generateCombinedPost (Some answering) unreachable fixedClock captioning
                         (Some (sampleImages 2)) sampleDate []
    = (tr',
       inr {| caption_text := "Field day fun!";
              email_id := Some "email-0";
              source_image_url := Some "https://img.example/0";
              source_image_urls := Some ["https://img.example/0"; "https://img.example/1"];
              created_at := "2025-03-14T09:30:05.000Z" |})
    /\ creates tr' = 1%nat.
Proof. eexists. split; vm_compute; reflexivity. Qed.


(* ------------------------------------------------------------------ *)
(** ** The properties of the surrounding code on examples *)

(** A JPEG that the webhook could not upload is read back by the pipeline,
    without a fetch. *)
Lemma data_url_round_trip_witness :
  dataUrlMatch (fallbackLocator "image/jpeg" "/9j/4AAQSkZJRg==")
  = Some ("image/jpeg", "/9j/4AAQSkZJRg==")
  /\ imageUrlToBase64 unreachable (fallbackLocator "image/jpeg" "/9j/4AAQSkZJRg==") []
     = ([], inr (mkBase64 "image/jpeg" "/9j/4AAQSkZJRg==")).
Proof.
  apply (proj1 (data_url_round_trip unreachable "image/jpeg" "/9j/4AAQSkZJRg==" [])).
  - discriminate.
  - reflexivity.
  - discriminate.
  - reflexivity.
Defined.

(** A content type with parameters does not match: the locator is refused. *)
Example data_url_with_parameters :
  dataUrlMatch (fallbackLocator "image/png;name=a.png" "iVBORw0KGgo=") = None
  /\ imageUrlToBase64 smallPng (fallbackLocator "image/png;name=a.png" "iVBORw0KGgo=") []
     = ([], inl (Error "Invalid image URL format: data:image/png;name=a.png;base64,iVBORw0KGgo=")).
Proof. split; reflexivity. Qed.

(** An answer without a fence is handed to the parser as it is. *)
Lemma jsonString_strips_code_fence_witness :
  jsonString "{...}" = "{...}".
Proof.
  apply (proj2 (proj2 (proj2 (jsonString_strips_code_fence "{...}")))).
  - reflexivity.
  - reflexivity.
Defined.

(** Two texts with the same escaped form are the same text. *)
Lemma escapeHtml_safe_and_faithful_witness :
  escapeHtml "a<b" = escapeHtml "a<b" /\ "a<b" = "a<b".
Proof.
  split; [reflexivity|].
  apply (proj2 (proj2 (escapeHtml_safe_and_faithful "a<b" "a<b"))).
  reflexivity.
Defined.

Example escapeHtml_sample :
  escapeHtml "<a href='x'>Tom & Jerry</a>"
  = "&lt;a href=&#039;x&#039;&gt;Tom &amp; Jerry&lt;/a&gt;".
Proof. reflexivity. Qed.


Example verifyCronSecret_samples :
  verifyCronSecret (Some "s3cret") (Some "bearer s3cret") = Respond 401 "Unauthorized"
  /\ verifyCronSecret (Some "s3cret") None = Respond 401 "Unauthorized"
  /\ verifyCronSecret (Some "s3cret") (Some "Bearer s3cret ") = Respond 401 "Unauthorized"
  /\ verifyCronSecret (Some EmptyString) (Some "Bearer ")
     = Respond 500 "Cron secret not configured".
Proof. repeat split. Qed.

(** Eight images; the model selects two of them and, in between, names the
    length of the batch: two posts carry the identifier of the email and
    one of its URLs, the post in between points to no image. *)
Lemma generateInstagramCaptions_posts_come_from_emails_witness :
  exists tr' posts,
    generateInstagramCaptions
      (Some answering) smallPng fixedClock
      (fun _ =>
         Some (SelectionsArray
                 [Some (mkSelection (IntegerKey 6) "Field day fun!" "Clear and lively");
                  Some (mkSelection LengthKey "Field day fun!" "Clear and lively");
                  Some (mkSelection (IntegerKey 3) "Field day fun!" "Clear and lively")]))
      (Some [sampleEmail 8]) sampleDate []
    = (tr', inr posts)
    /\ map source_image_url posts
       = [Some "https://img.example/6"; None; Some "https://img.example/3"]
    /\ Forall (fun p =>
                 (exists e url,
                     In e [sampleEmail 8]
                     /\ In url (imageUrls e)
                     /\ email_id p = Some (id e)
                     /\ source_image_url p = Some url
                     /\ source_image_urls p
                        = (if truthy url then Some [url] else None))
                 \/ (email_id p = None
                     /\ source_image_url p = None
                     /\ source_image_urls p = None))
              posts.
Proof.
  eexists. eexists. split; [vm_compute; reflexivity|]. split; [reflexivity|].
  eapply (generateInstagramCaptions_posts_come_from_emails
            (Some answering) smallPng fixedClock
            (fun _ =>
               Some (SelectionsArray
                       [Some (mkSelection (IntegerKey 6) "Field day fun!"
                                          "Clear and lively");
                        Some (mkSelection LengthKey "Field day fun!" "Clear and lively");
                        Some (mkSelection (IntegerKey 3) "Field day fun!"
                                          "Clear and lively")]))
            (Some [sampleEmail 8]) sampleDate []).
  vm_compute. reflexivity.
Defined.

(** An email without images: no post, and nothing is fetched or generated. *)
Lemma generateInstagramCaptions_without_images_witness :
  generateInstagramCaptions (Some answering) smallPng fixedClock (selecting [0])
                            (Some [sampleEmail 0]) sampleDate []
  = ([], inr []).
Proof.
  apply (generateInstagramCaptions_without_images
           (Some answering) smallPng fixedClock (selecting [0]) answering).
  - reflexivity.
  - reflexivity.
Defined.

(** Two images: the post names the first image and lists both. *)
Lemma generateCombinedPost_post_witness :
  exists tr' p,
    generateCombinedPost (Some answering) unreachable fixedClock captioning
                         (Some (sampleImages 2)) sampleDate []
    = (tr', inr p)
    /\ exists first rest,
        Some (sampleImages 2) = Some (first :: rest)
        /\ (List.length rest < 5)%nat
        /\ caption_text p <> EmptyString
        /\ email_id p = Some (emailId first)
        /\ source_image_url p = Some (imageUrl first)
        /\ source_image_urls p
           = match filter truthy (map imageUrl (first :: rest)) with
             | [] => None
             | urls => Some urls
             end.
Proof.
  eexists. eexists. split; [vm_compute; reflexivity|].
  eapply (generateCombinedPost_post
            (Some answering) unreachable fixedClock captioning
            (Some (sampleImages 2)) sampleDate []).
  vm_compute. reflexivity.
Defined.

(** 130 images: the batch before the last ones is full. *)
Lemma planBatches_of_61_witness :
  map (@List.length image)
      (Planner.planBatches (MAX_BATCH_SIZE_MB * 1024) ESTIMATED_IMAGE_SIZE_KB
         (sampleImages 130))
  = [61; 61; 8]%nat
  /\ List.length (sampleImages 61) = 61%nat.
Proof.
  split; [vm_compute; reflexivity|].
  apply (proj1 (proj2 (planBatches_of_61 (sampleImages 130)))
           [] (sampleImages 61)
           (Planner.planBatches (MAX_BATCH_SIZE_MB * 1024) ESTIMATED_IMAGE_SIZE_KB
              (skipn 61 (sampleImages 130)))).
  - vm_compute. reflexivity.
  - vm_compute. discriminate.
Defined.

(** Indices 2 and 0, an index out of range and a negative one: the first and
    the third URL go. *)
Lemma deleteImages_removes_listed_positions_witness :
  EmailRoutes.deleteImages ["a"; "b"; "c"; "d"] [2; 7; 0; -1] 0 = (["b"; "d"], 2%nat).
Proof.
  apply (proj1 (deleteImages_removes_listed_positions
                  string ["a"; "b"; "c"; "d"] [2; 7; 0; -1] 0%nat 0)).
  repeat constructor; cbn; intuition discriminate.
Defined.

(** An index given twice deletes two images: after the first deletion the
    index names the next image. *)
Example deleteImages_repeated_index :
  EmailRoutes.deleteImages ["a"; "b"; "c"; "d"] [1; 1] 0 = (["a"; "d"], 2%nat).
Proof. reflexivity. Qed.

(** 14 March 2025, 09:30 UTC, five hours behind UTC: the day runs from
    05:00 UTC to 04:59:59.999 UTC of the next day. *)
Lemma window_is_the_local_day_witness :
  Today.window 1741944600000 (-5) = (Some 1741928400000, Some 1742014799999)
  /\ 1741928400000 <= 1741944600000 <= 1742014799999
  /\ 1742014799999 - 1741928400000 = Today.msPerDay - 1
  /\ (1741928400000 + -5 * 3600000) mod Today.msPerDay = 0.
Proof.
  split; [reflexivity|].
  apply (proj1 (window_is_the_local_day 1741944600000 (-5))).
  reflexivity.
Defined.

(** 02:00 UTC, five hours behind UTC: the local day began the day before. *)
Example window_before_local_midnight :
  Today.window 1741917600000 (-5) = (Some 1741842000000, Some 1741928399999).
Proof. reflexivity. Qed.


(* ------------------------------------------------------------------ *)
(** ** storeGeneratedPosts: what is inserted *)

Module PostServiceFacts.
Import PostService.

Lemma filter_truthy_Forall (urls : list string) :
  Forall (fun url => truthy url = true) (filter truthy urls).
Proof.
  apply Forall_forall. intros url Hin. apply filter_In in Hin. tauto.
Qed.

Lemma normalizedUrls_truthy (p : input) :
  Forall (fun url => truthy url = true) (normalizedUrls p).
Proof.
  unfold normalizedUrls. destruct (source_image_urls p) as [urls|].
  - apply filter_truthy_Forall.
  - destruct (source_image_url p) as [[|c s]|]; repeat constructor.
Qed.

Lemma toRow_normalized (organizationId : option string) (now : string) (p : input) :
  normalized (toRow organizationId now p).
Proof.
  unfold normalized, toRow. cbn [Payload.source_image_urls Payload.source_image_url].
  pose proof (normalizedUrls_truthy p) as Htruthy.
  destruct (normalizedUrls p) as [|first rest]; cbn [List.length Nat.ltb Nat.leb].
  - exact I.
  - exists first, rest. auto.
Qed.

Lemma toRow_organization (organizationId : option string) (now : string) (p : input) :
  Payload.organization_id (toRow organizationId now p) = organizationId.
Proof. reflexivity. Qed.

Lemma payload_rows (organizationId : option string) (now : nat -> string)
    (posts : list input) (start : nat) :
  let payload :=
    map (fun ip => toRow organizationId (now (fst ip)) (snd ip))
        (combine (seq start (List.length posts)) posts) in
  List.length payload = List.length posts
  /\ Forall normalized payload
  /\ Forall (fun r => Payload.organization_id r = organizationId) payload
  /\ map Payload.caption_text payload = map caption_text posts.
Proof.
  revert start. induction posts as [|p rest IH]; intro start; cbn [List.length seq combine map].
  - repeat split; constructor.
  - destruct (IH (S start)) as [Hlen [Hnorm [Horg Hcap]]].
    repeat split.
    + cbn [List.length]. now rewrite Hlen.
    + constructor; [apply toRow_normalized | exact Hnorm].
    + constructor; [reflexivity | exact Horg].
    + cbn [fst snd]. now rewrite Hcap.
Qed.

End PostServiceFacts.

(** X13. Whatever posts it is given, [storeGeneratedPosts] inserts nothing
    when the posts are not an array or are empty (it returns an empty list
    whatever the database would answer), and otherwise inserts once, one row
    for each post, in their order and with their captions, all under the
    given organization; a row that carries a list of URLs carries a list
    that is not empty, holds no empty URL, and starts with the URL of the
    row. What the insert answers is returned, its error is thrown. *)
Theorem storeGeneratedPosts_payload
    {Stored : Type} (now : nat -> string) (posts : option (list PostService.input))
    (organizationId : option string) :
  match posts with
  | None | Some [] =>
      forall insert,
        PostService.storeGeneratedPosts (Stored := Stored) (Some insert) now posts
                                        organizationId
        = inr []
  | Some posts =>
      exists payload,
        List.length payload = List.length posts
        /\ map PostService.Payload.caption_text payload
           = map PostService.caption_text posts
        /\ Forall PostService.normalized payload
        /\ Forall (fun r => PostService.Payload.organization_id r = organizationId)
                  payload
        /\ forall insert,
            PostService.storeGeneratedPosts (Stored := Stored) (Some insert) now
                                            (Some posts) organizationId
            = match insert payload with
              | (_, Some e) => inl e
              | (Some data, None) => inr data
              | (None, None) => inr []
              end
  end.
Proof.
  destruct posts as [[|p rest]|]; [reflexivity| |reflexivity].
  destruct (PostServiceFacts.payload_rows organizationId now (p :: rest) 0)
    as [Hlen [Hnorm [Horg Hcap]]].
  eexists. split; [exact Hlen|]. split; [exact Hcap|].
  split; [exact Hnorm|]. split; [exact Horg|].
  intro insert. reflexivity.
Qed.

(** A post whose array holds empty URLs only is stored without a list, under
    its own URL; a post without an array is stored with its URL as the list;
    the empty URLs of an array are dropped. *)
Example toRow_samples :
  let p urls url :=
    PostService.mkInput "Field day fun!" None url urls None None None None in
  let stored r :=
    (PostService.Payload.source_image_url r, PostService.Payload.source_image_urls r) in
  stored (PostService.toRow None "now" (p (Some [EmptyString]) (Some "u")))
  = (Some "u", None)
  /\ stored (PostService.toRow None "now" (p None (Some "u"))) = (Some "u", Some ["u"])
  /\ stored (PostService.toRow None "now" (p (Some [EmptyString; "a"; "b"]) (Some "u")))
     = (Some "a", Some ["a"; "b"])
  /\ stored (PostService.toRow None "now" (p None None)) = (None, None).
Proof. repeat split. Qed.


(* ------------------------------------------------------------------ *)
(** ** The cron handler: one entry for each organization *)

Module CronFacts.
Import Cron.

Lemma processOrganization_reports {W : Type} (s : services W) (env : environment)
    (start end_ : option Z) (now : Z) (org : organization) (w w1 : W) (entry : result) :
  processOrganization s env start end_ now org w = (w1, inr entry) ->
  reports org entry.
Proof.
  unfold processOrganization, Handler.bind, Handler.ret, Handler.throw, Handler.ignoring.
  destruct start as [start|]; [|discriminate].
  destruct end_ as [end_|]; [|discriminate].
  destruct (fetchEmailsWithImagesForDateRange s start end_ (id org) w)
    as [wa [e|emails]]; [discriminate|].
  destruct (List.length emails =? 0)%nat eqn:Hemails.
  { intro H. inversion H. split; [reflexivity|exact I]. }
  destruct (generateInstagramCaptions s emails (toISOString s now) wa)
    as [wb [e|captions]]; [discriminate|].
  destruct (List.length captions =? 0)%nat eqn:Hcaptions.
  { intro H. inversion H. split; [reflexivity|exact I]. }
  destruct (storeGeneratedPosts s captions (id org) wb) as [wc [e|[]]]; [discriminate|].
  apply Nat.eqb_neq in Hemails, Hcaptions.
  destruct (NOTIFICATION_EMAIL env) as [[|c rest]|].
  - intro H. inversion H. split; [reflexivity|]. cbn. lia.
  - destruct (sendDailyPostsNotification s (String c rest) captions (name org) now wc)
      as [wd r].
    intro H. inversion H. split; [reflexivity|]. cbn. lia.
  - intro H. inversion H. split; [reflexivity|]. cbn. lia.
Qed.

Lemma forOrganizations_reports {W : Type} (s : services W) (env : environment)
    (start end_ : option Z) (now : Z) (organizations : list organization) :
  forall (results : list result) (w : W),
  exists entries,
    snd (forOrganizations s env start end_ now organizations results w)
    = results ++ entries
    /\ Forall2 reports organizations entries.
Proof.
  induction organizations as [|org rest IH]; intros results w; cbn [forOrganizations].
  - exists []. split; [now rewrite app_nil_r | constructor].
  - destruct (processOrganization s env start end_ now org w) as [w1 [e|entry]] eqn:Hstep.
    + destruct (IH (results ++ [Failed (name org) (message e)]) w1)
        as [entries [Heq Hall]].
      exists (Failed (name org) (message e) :: entries). split.
      * rewrite Heq, <- app_assoc. reflexivity.
      * constructor; [split; [reflexivity|exact I] | exact Hall].
    + destruct (IH (results ++ [entry]) w1) as [entries [Heq Hall]].
      exists (entry :: entries). split.
      * rewrite Heq, <- app_assoc. reflexivity.
      * constructor; [|exact Hall].
        apply (processOrganization_reports s env start end_ now org w w1). exact Hstep.
Qed.

Lemma totalCaptions_sum (results : list result) (sum : nat) :
  fold_left (fun sum r => (sum + captionsGenerated_of r)%nat) results sum
  = (sum + list_sum (map captionsGenerated_of results))%nat.
Proof.
  revert sum. induction results as [|r rest IH]; intro sum; cbn [fold_left map list_sum fold_right].
  - lia.
  - rewrite IH. unfold list_sum. lia.
Qed.

Lemma list_sum_bound (bound : nat) (l : list nat) :
  Forall (fun n => (n <= bound)%nat) l ->
  (list_sum l <= bound * List.length l)%nat.
Proof.
  induction 1 as [|n l Hn Hl IH]; cbn [list_sum fold_right List.length].
  - lia.
  - unfold list_sum in IH. lia.
Qed.

End CronFacts.

(** X14. Once the organizations are listed, the cron handler answers with
    success whatever happens for any one of them: the results hold one
    entry for each organization, in their order and under their names, a
    failure of the query, of the generator, of the store or an invalid
    window of time is reported in the entry of that organization alone, an
    entry with stored posts counts at least one post and one email, and
    [totalCaptions] is the sum of the counts of the entries. *)
Theorem generateDailyPosts_reports_every_organization
    {W : Type} (s : Cron.services W) (env : Cron.environment)
    (timezoneOffsetHours : option Z) (w w1 w2 w3 : W) (startTime now : Z)
    (organizations : list Cron.organization) :
  option_map truthy (Cron.CLAUDE_API_KEY env) = Some true ->
  Cron.dateNow s w = (w1, startTime) ->
  Cron.dateNow s w1 = (w2, now) ->
  Cron.listOrganizations s w2 = (w3, inr organizations) ->
  organizations <> [] ->
  exists w' results duration,
    Cron.generateDailyPosts s env timezoneOffsetHours w
    = (w', Cron.Completed results
                          (list_sum (map Cron.captionsGenerated_of results)) duration)
    /\ Forall2 Cron.reports organizations results.
Proof.
  intros Hkey Hstart Hnow Hlist Hne. unfold Cron.generateDailyPosts.
  rewrite Hstart.
  destruct (Cron.CLAUDE_API_KEY env) as [[|c key]|]; try discriminate Hkey.
  rewrite Hnow.
  destruct (Cron.today now timezoneOffsetHours) as [start end_].
  rewrite Hlist.
  destruct organizations as [|org rest]; [congruence|].
  cbn [List.length Nat.eqb].
  destruct (CronFacts.forOrganizations_reports s env start end_ now (org :: rest) [] w3)
    as [entries [Heq Hall]].
  destruct (Cron.forOrganizations s env start end_ now (org :: rest) [] w3)
    as [w4 results].
  cbn [snd app] in Heq. subst entries.
  destruct (Cron.dateNow s w4) as [w5 finished].
  exists w5, results, (finished - startTime).
  split; [|exact Hall].
  rewrite CronFacts.totalCaptions_sum. reflexivity.
Qed.


(** With an invalid window of time nothing is asked of any service: every
    organization fails on the spot. *)
Lemma forOrganizations_invalid_window {W : Type} (s : Cron.services W)
    (env : Cron.environment) (start end_ : option Z) (now : Z)
    (organizations : list Cron.organization) :
  start = None \/ end_ = None ->
  forall (results : list Cron.result) (w : W),
    Cron.forOrganizations s env start end_ now organizations results w
    = (w, results
          ++ map (fun org => Cron.Failed (Cron.name org) "Invalid time value")
                 organizations).
Proof.
  intro Hinvalid.
  assert (Hstep : forall org w,
             Cron.processOrganization s env start end_ now org w
             = (w, inl (Error "Invalid time value"))).
  { intros org w. unfold Cron.processOrganization.
    destruct Hinvalid as [-> | ->]; [reflexivity|].
    destruct start; reflexivity. }
  induction organizations as [|org rest IH]; intros results w; cbn [Cron.forOrganizations map].
  - now rewrite app_nil_r.
  - rewrite Hstep, IH, <- app_assoc. reflexivity.
Qed.

(** X15. When [TIMEZONE_OFFSET] does not parse to a number, the cron handler
    still answers with success, but every organization is reported as
    failed, and between the listing of the organizations and the last
    reading of the clock no service is called: no query, no generation,
    nothing stored, no notification. *)
Theorem generateDailyPosts_offset_not_a_number
    {W : Type} (s : Cron.services W) (env : Cron.environment)
    (w w1 w2 w3 w4 : W) (startTime now finished : Z)
    (organizations : list Cron.organization) :
  option_map truthy (Cron.CLAUDE_API_KEY env) = Some true ->
  Cron.dateNow s w = (w1, startTime) ->
  Cron.dateNow s w1 = (w2, now) ->
  Cron.listOrganizations s w2 = (w3, inr organizations) ->
  organizations <> [] ->
  Cron.dateNow s w3 = (w4, finished) ->
  Cron.generateDailyPosts s env None w
  = (w4,
     Cron.Completed
       (map (fun org => Cron.Failed (Cron.name org) "Invalid time value") organizations)
       0 (finished - startTime)).
Proof.
  intros Hkey Hstart Hnow Hlist Hne Hend. unfold Cron.generateDailyPosts.
  rewrite Hstart.
  destruct (Cron.CLAUDE_API_KEY env) as [[|c key]|]; try discriminate Hkey.
  rewrite Hnow. cbn [Cron.today]. rewrite Hlist.
  destruct organizations as [|org rest]; [congruence|].
  cbn [List.length Nat.eqb].
  rewrite (forOrganizations_invalid_window s env None None now (org :: rest)
             (or_introl eq_refl) [] w3).
  cbn [app]. rewrite Hend. f_equal. f_equal.
  rewrite CronFacts.totalCaptions_sum.
  generalize (org :: rest). intro l. induction l as [|o l IH]; [reflexivity|exact IH].
Qed.

(** What the generator of this file returns is cut to five posts. *)
Lemma generateInstagramCaptions_returns_firstn
    (anthropic : option (trace -> request -> error + response))
    (fetch : trace -> string -> error + fetched) (clock : trace -> string)
    (decodeSelections : string -> option selectionsField)
    (emails : option (list email)) (date : string) (tr tr' : trace) (posts : list post) :
  generateInstagramCaptions anthropic fetch clock decodeSelections emails date tr
  = (tr', inr posts) ->
  exists allPosts, posts = firstn 5 allPosts.
Proof.
  unfold generateInstagramCaptions.
  destruct anthropic as [create|]; [|discriminate].
  destruct emails as [emails|].
  2: { intro H. inversion H. exists []. reflexivity. }
  destruct (List.length emails =? 0)%nat.
  1: { intro H. inversion H. exists []. reflexivity. }
  unfold bind.
  destruct (processBatches _ _ _ _ _ _ _ _) as [tr1 [err|allPosts]]; [discriminate|].
  unfold ret. intro H. exists allPosts. congruence.
Qed.

Lemma processOrganization_cap
    (anthropic : option (trace -> request -> error + response))
    (fetch : trace -> string -> error + fetched) (clock : trace -> string)
    (decodeSelections : string -> option selectionsField)
    (s : Cron.services trace) (env : Cron.environment)
    (start end_ : option Z) (now : Z) (org : Cron.organization) (w w1 : trace)
    (entry : Cron.result) :
  Cron.processOrganization (cronServices anthropic fetch clock decodeSelections s)
                           env start end_ now org w
  = (w1, inr entry) ->
  (Cron.captionsGenerated_of entry <= 5)%nat.
Proof.
  unfold Cron.processOrganization, Handler.bind, Handler.ret, Handler.throw,
    Handler.ignoring.
  destruct start as [start|]; [|discriminate].
  destruct end_ as [end_|]; [|discriminate].
  destruct (Cron.fetchEmailsWithImagesForDateRange _ start end_ (Cron.id org) w)
    as [wa [e|emails]]; [discriminate|].
  destruct (List.length emails =? 0)%nat.
  { intro H. inversion H. cbn. lia. }
  destruct (Cron.generateInstagramCaptions _ emails _ wa)
    as [wb [e|captions]] eqn:Hgen; [discriminate|].
  cbn [cronServices Cron.withGenerator Cron.generateInstagramCaptions] in Hgen.
  apply generateInstagramCaptions_returns_firstn in Hgen as [allPosts ->].
  pose proof (firstn_le_length 5 allPosts) as Hcap.
  destruct (List.length (firstn 5 allPosts) =? 0)%nat.
  { intro H. inversion H. cbn. lia. }
  destruct (Cron.storeGeneratedPosts _ _ (Cron.id org) wb) as [wc [e|[]]]; [discriminate|].
  destruct (Cron.NOTIFICATION_EMAIL env) as [[|c rest]|].
  - intro H. inversion H. exact Hcap.
  - destruct (Cron.sendDailyPostsNotification _ _ _ _ _ wc) as [wd r].
    intro H. inversion H. exact Hcap.
  - intro H. inversion H. exact Hcap.
Qed.

Lemma forOrganizations_cap
    (anthropic : option (trace -> request -> error + response))
    (fetch : trace -> string -> error + fetched) (clock : trace -> string)
    (decodeSelections : string -> option selectionsField)
    (s : Cron.services trace) (env : Cron.environment)
    (start end_ : option Z) (now : Z) (organizations : list Cron.organization) :
  forall (results : list Cron.result) (w : trace),
    Forall (fun r => (Cron.captionsGenerated_of r <= 5)%nat) results ->
    Forall (fun r => (Cron.captionsGenerated_of r <= 5)%nat)
           (snd (Cron.forOrganizations
                   (cronServices anthropic fetch clock decodeSelections s)
                   env start end_ now organizations results w)).
Proof.
  induction organizations as [|org rest IH]; intros results w Hresults;
    cbn [Cron.forOrganizations].
  - exact Hresults.
  - destruct (Cron.processOrganization _ env start end_ now org w)
      as [w1 [e|entry]] eqn:Hstep.
    + apply IH. apply Forall_app. split; [exact Hresults|].
      constructor; [cbn; lia|constructor].
    + apply IH. apply Forall_app. split; [exact Hresults|].
      constructor; [|constructor].
      apply (processOrganization_cap anthropic fetch clock decodeSelections
               s env start end_ now org w w1). exact Hstep.
Qed.

(** X16. With the generator of this file, whatever the other services do, the
    cron handler reports at most five posts for an organization, and so at
    most five times as many posts in total as there are entries. *)
Theorem generateDailyPosts_at_most_five_each
    (anthropic : option (trace -> request -> error + response))
    (fetch : trace -> string -> error + fetched) (clock : trace -> string)
    (decodeSelections : string -> option selectionsField)
    (s : Cron.services trace) (env : Cron.environment)
    (timezoneOffsetHours : option Z) (w : trace) :
  match snd (Cron.generateDailyPosts
               (cronServices anthropic fetch clock decodeSelections s)
               env timezoneOffsetHours w) with
  | Cron.Completed results totalCaptions _ =>
      Forall (fun r => (Cron.captionsGenerated_of r <= 5)%nat) results
      /\ (totalCaptions <= 5 * List.length results)%nat
  | _ => True
  end.
Proof.
  unfold Cron.generateDailyPosts.
  destruct (Cron.dateNow _ w) as [w1 startTime].
  destruct (Cron.CLAUDE_API_KEY env) as [[|c key]|]; try exact I.
  destruct (Cron.dateNow _ w1) as [w2 now].
  destruct (Cron.today now timezoneOffsetHours) as [start end_].
  destruct (Cron.listOrganizations _ w2) as [w3 [e|organizations]].
  { destruct (Cron.dateNow _ w3). exact I. }
  destruct (List.length organizations =? 0)%nat.
  { destruct (Cron.dateNow _ w3). exact I. }
  pose proof (forOrganizations_cap anthropic fetch clock decodeSelections
                s env start end_ now organizations [] w3 (Forall_nil _)) as Hcap.
  destruct (Cron.forOrganizations _ env start end_ now organizations [] w3)
    as [w4 results].
  cbn [snd] in Hcap.
  destruct (Cron.dateNow _ w4) as [w5 finished]. cbn [snd].
  split; [exact Hcap|].
  rewrite CronFacts.totalCaptions_sum. cbn [Nat.add].
  rewrite <- (length_map Cron.captionsGenerated_of results).
  apply CronFacts.list_sum_bound.
  apply Forall_forall. intros n Hn. apply in_map_iff in Hn as [r [<- Hr]].
  rewrite Forall_forall in Hcap. apply Hcap. exact Hr.
Qed.


(** Two organizations: three posts for the first one, although the
    notification fails; the failure of the second one is reported in its
    entry. *)
Lemma generateDailyPosts_reports_every_organization_witness :
  exists w' results duration,
    Cron.generateDailyPosts
      (cronServices (Some answering) smallPng fixedClock (selecting [6; 0; 3])
                    sampleServices)
      sampleEnvironment (Some (-5)) []
    = (w', Cron.Completed results
                          (list_sum (map Cron.captionsGenerated_of results)) duration)
    /\ Forall2 Cron.reports sampleOrganizations results.
Proof.
  apply (generateDailyPosts_reports_every_organization
           (cronServices (Some answering) smallPng fixedClock (selecting [6; 0; 3])
                         sampleServices)
           sampleEnvironment (Some (-5)) [] [] [] [] 1741944600000 1741944600000
           sampleOrganizations).
  - reflexivity.
  - reflexivity.
  - reflexivity.
  - reflexivity.
  - discriminate.
Defined.

Example generateDailyPosts_two_organizations :
  snd (Cron.generateDailyPosts
         (cronServices (Some answering) smallPng fixedClock (selecting [6; 0; 3])
                       sampleServices)
         sampleEnvironment (Some (-5)) [])
  = Cron.Completed [Cron.Generated "Oak School" 3 1 8;
                    Cron.Failed "Elm School" "connection lost"]
                   3 0.
Proof. vm_compute. reflexivity. Qed.

(** Without a key nothing is listed. *)
Example generateDailyPosts_without_key :
  Cron.generateDailyPosts sampleServices (Cron.mkEnvironment None None) (Some (-5)) []
  = ([], Cron.NotConfigured).
Proof. reflexivity. Qed.

(** An offset that is not a number: both organizations fail, nothing is
    fetched or generated. *)
Lemma generateDailyPosts_offset_not_a_number_witness :
  Cron.generateDailyPosts
    (cronServices (Some answering) smallPng fixedClock (selecting [6; 0; 3])
                  sampleServices)
    sampleEnvironment None []
  = ([],
     Cron.Completed [Cron.Failed "Oak School" "Invalid time value";
                     Cron.Failed "Elm School" "Invalid time value"]
                    0 0).
Proof.
  apply (generateDailyPosts_offset_not_a_number
           (cronServices (Some answering) smallPng fixedClock (selecting [6; 0; 3])
                         sampleServices)
           sampleEnvironment [] [] [] [] [] 1741944600000 1741944600000 1741944600000
           sampleOrganizations).
  - reflexivity.
  - reflexivity.
  - reflexivity.
  - reflexivity.
  - discriminate.
  - reflexivity.
Defined.


(** The three posts of a run are stored as they are, marked as generated by
    a user, whatever the clock of the store says. *)
Lemma toRow_keeps_generated_posts_witness :
  exists tr' posts,
    generateInstagramCaptions (Some answering) smallPng fixedClock (selecting [6; 0; 3])
                              (Some [sampleEmail 8]) sampleDate []
    = (tr', inr posts)
    /\ map (fun p => PostService.toRow (Some "org-1") "2025-03-14T09:31:00.000Z"
                       (PostService.ofPost (Some true) p)) posts
       = map (PostService.asIs (Some "org-1") (Some true)) posts
    /\ map PostService.Payload.source_image_urls
           (map (PostService.asIs (Some "org-1") (Some true)) posts)
       = [Some ["https://img.example/6"]; Some ["https://img.example/0"];
          Some ["https://img.example/3"]].
Proof.
  eexists. eexists. split; [vm_compute; reflexivity|]. split.
  - eapply (proj1 (toRow_keeps_generated_posts
                     (Some answering) smallPng fixedClock (selecting [6; 0; 3]) captioning
                     (Some "org-1") (Some true) "2025-03-14T09:31:00.000Z"
                     (Some [sampleEmail 8]) None sampleDate [] _ _
                     (mkPost EmptyString None None None EmptyString))).
    vm_compute. reflexivity.
  - vm_compute. reflexivity.
Defined.

(** A combined post whose first image has no URL is stored under the URL of
    the second image. *)
Example toRow_first_url_empty :
  let p :=
    {| caption_text := "Field day fun!";
       email_id := Some "email-0";
       source_image_url := Some EmptyString;
       source_image_urls := Some ["https://img.example/1"];
       created_at := "2025-03-14T09:30:05.000Z" |} in
  PostService.Payload.source_image_url
    (PostService.toRow None "2025-03-14T09:31:00.000Z" (PostService.ofPost None p))
  = Some "https://img.example/1".
Proof. reflexivity. Qed.


(* ------------------------------------------------------------------ *)
(** ** fetchEmailsWithImagesForDateRange: emails that have images *)

Lemma flattenImages_length (emails : list email) :
  List.length (flattenImages emails)
  = list_sum (map (fun e => List.length (imageUrls e)) emails).
Proof.
  unfold flattenImages. induction emails as [|e rest IH]; [reflexivity|].
  cbn [flat_map map list_sum fold_right]. rewrite length_app, length_map, IH.
  reflexivity.
Qed.

(** X18. Whatever the database answers, every email that
    [fetchEmailsWithImagesForDateRange] returns has at least one image, so
    the generator finds at least as many images as emails, and finds none
    only when no email is returned; the emails are the rows that have
    images, in the order of the rows, of the answer to one query for the
    given bounds, and for the organization when one is given. *)
Theorem fetchEmailsWithImagesForDateRange_has_images
    (supabaseAdmin : option (EmailService.query
                             -> option (list EmailService.row) * option error))
    (startDate endDate : string) (organizationId : option string)
    (emails : list email) :
  EmailService.fetchEmailsWithImagesForDateRange supabaseAdmin startDate endDate
                                                  organizationId
  = inr emails ->
  Forall (fun e => imageUrls e <> []) emails
  /\ (List.length emails <= List.length (flattenImages emails))%nat
  /\ (flattenImages emails = [] -> emails = [])
  /\ exists run data,
       supabaseAdmin = Some run
       /\ run {| EmailService.received_from := startDate;
                 EmailService.received_to := endDate;
                 EmailService.organization_id :=
                   match organizationId with
                   | Some (String c s) => Some (String c s)
                   | _ => None
                   end |}
          = (data, None)
       /\ map id emails
          = map EmailService.id
                (filter EmailService.hasImages
                        (match data with Some rows => rows | None => [] end)).
Proof.
  unfold EmailService.fetchEmailsWithImagesForDateRange.
  destruct supabaseAdmin as [run|]; [|discriminate].
  destruct (run _) as [data [e|]] eqn:Hrun; [discriminate|].
  intro H. injection H as <-.
  set (rows := match data with Some rows => rows | None => [] end).
  assert (Himages : Forall (fun e => imageUrls e <> [])
                           (map EmailService.flatten (filter EmailService.hasImages rows))).
  { apply Forall_forall. intros e He. apply in_map_iff in He as [r [<- Hr]].
    apply filter_In in Hr as [_ Hr]. unfold EmailService.hasImages in Hr.
    unfold EmailService.flatten. cbn [imageUrls].
    destruct (EmailService.parsed_content r) as [content|]; [|discriminate].
    destruct (EmailService.image_urls content) as [[|u us]|]; discriminate. }
  assert (Hcount : forall l, Forall (fun e => imageUrls e <> []) l ->
                             (List.length l <= List.length (flattenImages l))%nat).
  { intros l Hl. rewrite flattenImages_length.
    induction Hl as [|e l He Hl IH]; [cbn; lia|].
    cbn [List.length map list_sum fold_right]. unfold list_sum in IH.
    destruct (imageUrls e); [congruence|]. cbn [List.length]. lia. }
  split; [exact Himages|]. split; [apply Hcount; exact Himages|]. split.
  - intro Hnone. apply Hcount in Himages. rewrite Hnone in Himages.
    destruct (map EmailService.flatten _); [reflexivity|]. cbn in Himages. lia.
  - exists run, data. split; [reflexivity|]. split; [exact Hrun|].
    rewrite map_map. reflexivity.
Qed.

(* ------------------------------------------------------------------ *)
(** ** cleanupOldImages: what is listed and what is removed *)

Module StorageFacts.
Import StorageService.

Lemma removals_app (a b : list call) :
  removals (a ++ b) = (removals a + removals b)%nat.
Proof. unfold removals. now rewrite map_app, list_sum_app. Qed.

Lemma filePaths_expired (cutoffDateString : string) (folder : file)
    (folderFiles : list file) :
  toDelete cutoffDateString folder = true ->
  Forall (expired cutoffDateString)
         (map (fun file => template [name folder; "/"; name file]) folderFiles).
Proof.
  intro Hfolder. unfold toDelete in Hfolder.
  apply andb_true_iff in Hfolder as [Hfolder Hbefore].
  apply andb_true_iff in Hfolder as [_ Hdate].
  apply Forall_forall. intros path Hpath.
  apply in_map_iff in Hpath as [f [<- _]].
  exists (name folder), (name f). repeat split; assumption.
Qed.

Lemma forFolders_calls (storage : bucket) (cutoffDateString : string)
    (foldersToDelete : list file) :
  Forall (fun folder => toDelete cutoffDateString folder = true) foldersToDelete ->
  forall (totalDeleted : nat) (totalSize : Z) (calls : list call),
  exists made,
    fst (forFolders storage foldersToDelete totalDeleted totalSize calls)
    = calls ++ made
    /\ Forall (allowed cutoffDateString) made
    /\ (deletedCount (snd (forFolders storage foldersToDelete totalDeleted totalSize calls))
        <= totalDeleted + removals made)%nat.
Proof.
  induction 1 as [|folder rest Hfolder Hrest IH]; intros totalDeleted totalSize calls;
    cbn [forFolders].
  - exists []. rewrite app_nil_r. repeat split; [constructor | cbn; lia].
  - assert (Hlist : allowed cutoffDateString (ListFolder (name folder))).
    { right. unfold toDelete in Hfolder.
      apply andb_true_iff in Hfolder as [Hfolder Hbefore].
      apply andb_true_iff in Hfolder as [_ Hdate]. split; assumption. }
    destruct (list_ storage calls (name folder)) as [e|folderFiles].
    + destruct (IH totalDeleted totalSize (calls ++ [ListFolder (name folder)]))
        as [made [Heq [Hall Hcount]]].
      exists (ListFolder (name folder) :: made). split; [|split].
      * rewrite Heq, <- app_assoc. reflexivity.
      * constructor; assumption.
      * change (ListFolder (name folder) :: made)
          with ([ListFolder (name folder)] ++ made).
        rewrite removals_app. cbn [removals map list_sum fold_right] in *. lia.
    + destruct (0 <? List.length folderFiles)%nat eqn:Hsome.
      * set (filePaths := map (fun file => template [name folder; "/"; name file])
                              folderFiles).
        assert (Hremove : allowed cutoffDateString (Remove filePaths)).
        { split.
          - subst filePaths. apply Nat.ltb_lt in Hsome.
            destruct folderFiles; [cbn in Hsome; lia | discriminate].
          - apply filePaths_expired. exact Hfolder. }
        set (totalSize' := totalSize + _).
        destruct (remove storage (calls ++ [ListFolder (name folder)]) filePaths)
          as [e|].
        -- destruct (IH totalDeleted totalSize'
                        ((calls ++ [ListFolder (name folder)]) ++ [Remove filePaths]))
             as [made [Heq [Hall Hcount]]].
           exists (ListFolder (name folder) :: Remove filePaths :: made).
           split; [|split].
           ++ rewrite Heq, <- !app_assoc. reflexivity.
           ++ constructor; [exact Hlist|constructor; [exact Hremove|exact Hall]].
           ++ change (ListFolder (name folder) :: Remove filePaths :: made)
                with ([ListFolder (name folder); Remove filePaths] ++ made).
              rewrite removals_app. cbn [removals map list_sum fold_right] in *. lia.
        -- destruct (IH (totalDeleted + List.length filePaths)%nat totalSize'
                        ((calls ++ [ListFolder (name folder)]) ++ [Remove filePaths]))
             as [made [Heq [Hall Hcount]]].
           exists (ListFolder (name folder) :: Remove filePaths :: made).
           split; [|split].
           ++ rewrite Heq, <- !app_assoc. reflexivity.
           ++ constructor; [exact Hlist|constructor; [exact Hremove|exact Hall]].
           ++ change (ListFolder (name folder) :: Remove filePaths :: made)
                with ([ListFolder (name folder); Remove filePaths] ++ made).
              rewrite removals_app. cbn [removals map list_sum fold_right] in *. lia.
      * destruct (IH totalDeleted totalSize (calls ++ [ListFolder (name folder)]))
          as [made [Heq [Hall Hcount]]].
        exists (ListFolder (name folder) :: made). split; [|split].
        -- rewrite Heq, <- app_assoc. reflexivity.
        -- constructor; assumption.
        -- change (ListFolder (name folder) :: made)
             with ([ListFolder (name folder)] ++ made).
           rewrite removals_app. cbn [removals map list_sum fold_right] in *. lia.
Qed.

End StorageFacts.

(** X19. Whatever the storage answers, [cleanupOldImages] lists the bucket
    and then touches only folders that are named as a date before the
    cutoff: each listing is of such a folder, each removal is of paths in
    such a folder and is not empty. The count it returns is at most the
    number of paths it handed to [remove], and when it throws nothing was
    handed to [remove]. *)
Theorem cleanupOldImages_touches_expired_folders_only
    (supabaseAdmin : option StorageService.bucket) (cutoffDateString : string)
    (calls : list StorageService.call) :
  exists made,
    fst (StorageService.cleanupOldImages supabaseAdmin cutoffDateString calls)
    = calls ++ made
    /\ Forall (StorageService.allowed cutoffDateString) made
    /\ match snd (StorageService.cleanupOldImages supabaseAdmin cutoffDateString calls) with
       | inr result =>
           (StorageService.deletedCount result <= StorageService.removals made)%nat
       | inl _ => StorageService.removals made = 0%nat
       end.
Proof.
  unfold StorageService.cleanupOldImages.
  destruct supabaseAdmin as [storage|].
  2: { exists []. rewrite app_nil_r. repeat split. constructor. }
  assert (Hroot : StorageService.allowed cutoffDateString
                    (StorageService.ListFolder EmptyString)) by (left; reflexivity).
  destruct (StorageService.list_ storage calls EmptyString) as [e|files].
  { exists [StorageService.ListFolder EmptyString].
    split; [reflexivity|]. split; [|reflexivity].
    constructor; [exact Hroot|constructor]. }
  destruct (List.length _ =? 0)%nat.
  { exists [StorageService.ListFolder EmptyString].
    split; [reflexivity|]. split; [|cbn; lia].
    constructor; [exact Hroot|constructor]. }
  destruct (StorageFacts.forFolders_calls storage cutoffDateString
              (filter (StorageService.toDelete cutoffDateString) files))
    with (totalDeleted := 0%nat) (totalSize := 0)
         (calls := calls ++ [StorageService.ListFolder EmptyString])
    as [made [Heq [Hall Hcount]]].
  { apply Forall_forall. intros f Hf. apply filter_In in Hf. tauto. }
  destruct (StorageService.forFolders _ _ _ _ _) as [calls' result].
  cbn [fst snd] in *.
  exists (StorageService.ListFolder EmptyString :: made). split; [|split].
  - rewrite Heq, <- app_assoc. reflexivity.
  - constructor; assumption.
  - change (StorageService.ListFolder EmptyString :: made)
      with ([StorageService.ListFolder EmptyString] ++ made).
    rewrite StorageFacts.removals_app. cbn. lia.
Qed.

(* ------------------------------------------------------------------ *)
(** ** requireAuth *)

(** X20. [requireAuth] sets [req.user] and calls [next()] exactly when the
    client is configured, the authorization header is "Bearer " followed by
    a token, and [getUser] answers for that very token with a user and
    without an error; the user set is that user. A request without such a
    header is answered 401 even when the client is not configured, and
    every other answer is 401 or 500. *)
Theorem requireAuth_authenticated_iff
    (supabaseAdmin : option (string -> error + (option Auth.user * option error)))
    (authorization : option string) (reqUser : Auth.user) :
  (Auth.requireAuth supabaseAdmin authorization = Auth.Authenticated reqUser
   <-> exists getUser token,
         supabaseAdmin = Some getUser
         /\ authorization = Some ("Bearer " ++ token)%string
         /\ getUser token = inr (Some reqUser, None))
  /\ ((forall token, authorization <> Some ("Bearer " ++ token)%string) ->
      Auth.requireAuth supabaseAdmin authorization = Auth.Rejected 401 "Unauthorized")
  /\ (forall status errorMessage,
        Auth.requireAuth supabaseAdmin authorization
        = Auth.Rejected status errorMessage ->
        status = 401%nat \/ status = 500%nat).
Proof.
  split; [|split].
  - split.
    + unfold Auth.requireAuth.
      destruct authorization as [[|c rest]|]; try discriminate.
      destruct (prefix "Bearer " (String c rest)) eqn:Hp; [|discriminate].
      destruct supabaseAdmin as [getUser|]; [|discriminate].
      destruct (getUser _) as [e|[[dataUser|] [e|]]] eqn:Hget; try discriminate.
      intro H. injection H as <-.
      exists getUser, (dropChars (String.length "Bearer ") (String c rest)).
      split; [reflexivity|]. split.
      * f_equal. apply prefix_split. exact Hp.
      * rewrite Hget. destruct dataUser. reflexivity.
    + intros [getUser [token [-> [-> Hget]]]].
      pose proof (prefix_append "Bearer " token) as Hp.
      pose proof (dropChars_append "Bearer " token) as Hd.
      unfold Auth.requireAuth. cbn [append] in *. cbv zeta.
      rewrite Hp, Hd, Hget.
      destruct reqUser. reflexivity.
  - intro Hnot. unfold Auth.requireAuth.
    destruct authorization as [[|c rest]|]; try reflexivity.
    destruct (prefix "Bearer " (String c rest)) eqn:Hp; [|reflexivity].
    apply prefix_split in Hp. exfalso.
    apply (Hnot (dropChars (String.length "Bearer ") (String c rest))).
    f_equal. exact Hp.
  - intros status errorMessage. unfold Auth.requireAuth.
    destruct authorization as [[|c rest]|];
      try (intro H; injection H as <- _; auto).
    destruct (prefix "Bearer " (String c rest));
      [|intro H; injection H as <- _; auto].
    destruct supabaseAdmin as [getUser|]; [|intro H; injection H as <- _; auto].
    destruct (getUser _) as [e|[[dataUser|] [e|]]];
      intro H; try discriminate H; injection H as <- _; auto.
Qed.


(** Three rows: one with two images, one without parsed content, one with
    an empty array of images. The first one alone is returned, with the raw
    text where the parsed text is empty. *)
Lemma fetchEmailsWithImagesForDateRange_has_images_witness :
  let rows :=
    [EmailService.mkRow "email-1" (Some "teacher@school.example") (Some "Field day")
       (Some "raw text")
       (Some (EmailService.mkParsedContent (Some EmptyString)
                (Some ["https://img.example/0"; "https://img.example/1"])));
     EmailService.mkRow "email-2" None None None None;
     EmailService.mkRow "email-3" None None None
       (Some (EmailService.mkParsedContent (Some "text") (Some [])))] in
  let emails :=
    [mkEmail "email-1" (Some "Field day") (Some "teacher@school.example")
       (Some "raw text") ["https://img.example/0"; "https://img.example/1"]] in
  EmailService.fetchEmailsWithImagesForDateRange
    (Some (fun _ => (Some rows, None)))
    "2025-03-14T05:00:00.000Z" "2025-03-15T04:59:59.999Z" (Some "org-1")
  = inr emails
  /\ Forall (fun e => imageUrls e <> []) emails.
Proof.
  cbv zeta. split; [reflexivity|].
  apply (proj1 (fetchEmailsWithImagesForDateRange_has_images
                  (Some (fun _ =>
                           (Some [EmailService.mkRow "email-1"
                                    (Some "teacher@school.example") (Some "Field day")
                                    (Some "raw text")
                                    (Some (EmailService.mkParsedContent
                                             (Some EmptyString)
                                             (Some ["https://img.example/0";
                                                    "https://img.example/1"])));
                                  EmailService.mkRow "email-2" None None None None;
                                  EmailService.mkRow "email-3" None None None
                                    (Some (EmailService.mkParsedContent
                                             (Some "text") (Some [])))],
                            None)))
                  "2025-03-14T05:00:00.000Z" "2025-03-15T04:59:59.999Z" (Some "org-1")
                  [mkEmail "email-1" (Some "Field day") (Some "teacher@school.example")
                     (Some "raw text")
                     ["https://img.example/0"; "https://img.example/1"]]
                  eq_refl)).
Defined.

(** An expired folder whose files cannot be removed, a folder that is not
    expired and an entry that is not named as a date: the expired folder
    alone is listed; nothing is deleted, yet its size is reported as freed. *)
Example cleanupOldImages_failed_removal :
  let storage :=
    {| StorageService.list_ :=
         fun _ path =>
           if String.eqb path EmptyString
           then inr [StorageService.mkFile "2024-12-01" None;
                     StorageService.mkFile "2025-03-01" None;
                     StorageService.mkFile "logs" None]
           else inr [StorageService.mkFile "a.png" (Some 2048);
                     StorageService.mkFile "b.png" None];
       StorageService.remove := fun _ _ => Some (Error "permission denied") |} in
  StorageService.cleanupOldImages (Some storage) "2025-01-13" []
  = ([StorageService.ListFolder EmptyString;
      StorageService.ListFolder "2024-12-01";
      StorageService.Remove ["2024-12-01/a.png"; "2024-12-01/b.png"]],
     inr (StorageService.mkCleanup 0 2048)).
Proof. reflexivity. Qed.

(** A token the auth service knows, and a header without the scheme. *)
Lemma requireAuth_authenticated_iff_witness :
  let getUser token :=
    if String.eqb token "tok-1"
    then inr (Some (Auth.mkUser "user-1" (Some "teacher@school.example")), None)
    else inr (None, Some (Error "invalid JWT")) in
  Auth.requireAuth (Some getUser) (Some "Bearer tok-1")
  = Auth.Authenticated (Auth.mkUser "user-1" (Some "teacher@school.example"))
  /\ Auth.requireAuth None (Some "tok-1") = Auth.Rejected 401 "Unauthorized".
Proof.
  cbv zeta. split.
  - apply (proj2 (proj1 (requireAuth_authenticated_iff _ (Some "Bearer tok-1") _))).
    eexists. exists "tok-1". split; [reflexivity|]. split; reflexivity.
  - apply (proj1 (proj2 (requireAuth_authenticated_iff
                           None (Some "tok-1") (Auth.mkUser EmptyString None)))).
    intros token H. discriminate H.
Defined.

Example requireAuth_samples :
  let getUser token :=
    if String.eqb token "tok-1"
    then inr (Some (Auth.mkUser "user-1" None), None)
    else if String.eqb token "tok-2"
    then inl (Error "network")
    else inr (None, Some (Error "invalid JWT")) in
  Auth.requireAuth (Some getUser) (Some "Bearer tok-2")
  = Auth.Rejected 500 "Auth check failed"
  /\ Auth.requireAuth (Some getUser) (Some "Bearer tok-3")
     = Auth.Rejected 401 "Invalid token"
  /\ Auth.requireAuth None (Some "Bearer tok-1")
     = Auth.Rejected 500 "Supabase client not configured"
  /\ Auth.requireAuth (Some getUser) None = Auth.Rejected 401 "Unauthorized".
Proof. repeat split. Qed.


(* ------------------------------------------------------------------ *)
(** ** uploadImageToStorage: the path of an upload *)

Module UploadFacts.
Import StorageService.

Lemma isSafe_underscore : isSafe "_"%char = false.
Proof. reflexivity. Qed.

Lemma sanitize_length (originalName : string) :
  String.length (sanitize originalName) = String.length originalName.
Proof.
  induction originalName as [|c rest IH]; [reflexivity|].
  cbn [sanitize String.length]. now rewrite IH.
Qed.

Lemma sanitize_chars (originalName : string) :
  hasChar (fun c => negb (isSafe c || Ascii.eqb c "_"%char)) (sanitize originalName)
  = false.
Proof.
  induction originalName as [|c rest IH]; [reflexivity|].
  cbn [sanitize hasChar]. rewrite IH, orb_false_r.
  destruct (isSafe c) eqn:Hc.
  - now rewrite Hc.
  - reflexivity.
Qed.

Lemma sanitize_no_slash (originalName : string) :
  hasChar (Ascii.eqb "/"%char) (sanitize originalName) = false.
Proof.
  induction originalName as [|c rest IH]; [reflexivity|].
  cbn [sanitize hasChar]. rewrite IH, orb_false_r.
  destruct (isSafe c) eqn:Hc; [|reflexivity].
  destruct (Ascii.eqb "/"%char c) eqn:Heq; [|reflexivity].
  apply Ascii.eqb_eq in Heq. subst c. discriminate Hc.
Qed.

Lemma sanitize_safe (name : string) :
  hasChar (fun c => negb (isSafe c)) name = false -> sanitize name = name.
Proof.
  induction name as [|c rest IH]; [reflexivity|].
  cbn [sanitize hasChar]. intro H. apply orb_false_iff in H as [Hc Hrest].
  apply negb_false_iff in Hc. rewrite Hc, (IH Hrest). reflexivity.
Qed.

End UploadFacts.

(** X21. Whatever the name of a file is, the name under which it is uploaded
    is as long as the original, holds only letters, digits, dots, hyphens and
    underscores (so no slash), and is the original when that holds only
    letters, digits, dots and hyphens; the path of the upload is the date
    folder, a slash, the UUID, a hyphen and that name. *)
Theorem storagePath_sanitized (nowISO uuid originalName : string) :
  StorageService.storagePath nowISO uuid originalName
  = (beforeT nowISO ++ "/" ++ uuid ++ "-" ++ StorageService.sanitize originalName)%string
  /\ String.length (StorageService.sanitize originalName) = String.length originalName
  /\ hasChar (fun c => negb (StorageService.isSafe c || Ascii.eqb c "_"%char))
             (StorageService.sanitize originalName) = false
  /\ hasChar (Ascii.eqb "/"%char) (StorageService.sanitize originalName) = false
  /\ (hasChar (fun c => negb (StorageService.isSafe c)) originalName = false ->
      StorageService.sanitize originalName = originalName).
Proof.
  split; [|split; [|split; [|split]]].
  - unfold StorageService.storagePath, template. cbn [String.concat].
    cbn [append]. reflexivity.
  - apply UploadFacts.sanitize_length.
  - apply UploadFacts.sanitize_chars.
  - apply UploadFacts.sanitize_no_slash.
  - apply UploadFacts.sanitize_safe.
Qed.

(** A name that is made of safe characters is kept. *)
Lemma storagePath_sanitized_witness :
  StorageService.sanitize "IMG-0042.jpeg" = "IMG-0042.jpeg".
Proof.
  apply (proj2 (proj2 (proj2 (proj2
           (storagePath_sanitized "2025-03-14T09:30:00.000Z" "uuid" "IMG-0042.jpeg"))))).
  reflexivity.
Defined.

(** A name that tries to leave the folder. *)
Example storagePath_traversal :
  StorageService.storagePath "2025-03-14T09:30:00.000Z"
    "123e4567-e89b-12d3-a456-426614174000" "../../field day (1).png"
  = "2025-03-14/123e4567-e89b-12d3-a456-426614174000-.._.._field_day__1_.png".
Proof. reflexivity. Qed.


(** An answer without content, with decoders that know the empty object. *)
Lemma answer_without_text_witness :
  let decodeSelections s :=
    if String.eqb s "{}" then Some NotAnArray else None in
  let decodeCaption s :=
    if String.eqb s "{}" then Some None else None in
  batchCaptions fixedClock decodeSelections (sampleImages 2) (mkResponse None) []
  = ([], inr [])
  /\ combinedPost fixedClock decodeCaption (sampleImages 2) (mkResponse None) []
     = ([], inl (Error "Failed to generate caption")).
Proof.
  cbv zeta.
  apply (answer_without_text fixedClock
           (fun s => if String.eqb s "{}" then Some NotAnArray else None)
           (fun s => if String.eqb s "{}" then Some None else None)
           (sampleImages 2) (sampleImages 2) (mkResponse None) []).
  - left. reflexivity.
  - reflexivity.
  - reflexivity.
Defined.

(** A first block whose text is the empty string is not read as the empty
    object: the batch fails. *)
Example answer_with_empty_text :
  batchCaptions fixedClock
    (fun s => if String.eqb s "{}" then Some NotAnArray else None)
    (sampleImages 2) (mkResponse (Some [mkResponseBlock (Some EmptyString)])) []
  = ([], inl (Error "Claude response parsing failed")).
Proof. reflexivity. Qed.


(** Two images that cannot be fetched: no image block, and both images are
    described all the same. *)
Lemma content_is_sendable_witness :
  exists contentBlocks,
    snd (batchContent notFound (sampleImages 2) sampleDate []) = inr contentBlocks
    /\ imageBlocks contentBlocks = 0%nat
    /\ In (TextBlock (selectionContext 1 (sampleImage 1))) contentBlocks.
Proof.
  destruct (proj1 (content_is_sendable notFound (sampleImages 2) sampleDate []))
    as [tr' [contentBlocks [Hrun [_ [_ Hcontext]]]]].
  exists contentBlocks. split; [now rewrite Hrun|]. split.
  - assert (Hblocks : inr contentBlocks
                      = snd (batchContent notFound (sampleImages 2) sampleDate []))
      by now rewrite Hrun.
    vm_compute in Hblocks. injection Hblocks as ->. reflexivity.
  - apply (Hcontext 1%nat (sampleImage 1)). reflexivity.
Defined.
